(** * Autoresponder agent: mailbox session, draft generator and tool-dispatch loop

    A shallow embedding of [app/utils/email_utils.py],
    [app/utils/mailbox_session.py] and [app/agents/gmail_agent.py], and the
    properties of the design document checked against it; then of
    [app/clients/ollama_client.py] and of the endpoints of [app/main.py],
    with further properties of the code.

    Conventions of the embedding.
    - A Python [str] is a [string]; every [ascii] stands for one character
      (code points below 256); a text that holds another character is
      outside the model.
    - Values that come from the language model or go back to it untyped
      (tool arguments, result dictionaries) are [PyVal]s; JSON numbers with
      a fraction or an exponent are outside the model.
    - The answers of the mail provider are typed as its interface documents
      them: a listing is a list of message references, a message has a
      payload tree, a snippet and a thread.
    - Methods run in a state-and-exception monad.  A raised exception keeps
      the state reached so far, as in Python.
    - The capabilities (mail provider, language model) are handlers over an
      arbitrary world [W]; every invocation is recorded in a call log.
      The fixed arguments of a request ([userId], the tool menu, [stream])
      are not recorded.
    - Library functions (base64 and UTF-8 decoding, MIME encoding, JSON
      parsing and printing) are parameters of the code that uses them.
    - Console output is not modelled. *)

From Stdlib Require Import ZArith QArith Ascii String List Bool Lia.
From stdpp Require Import base option list gmap strings pretty.

Local Open Scope Z_scope.

(** ** Python strings *)

Module PyStr.

Definition nl : string := String "010"%char EmptyString.
Definition cr : string := String "013"%char EmptyString.

(** [str.isspace] on one character, which is also the class [\s] of [re]
    for text patterns: 9..13, 28..32, 0x85 and 0xA0. *)
Definition is_space (c : ascii) : bool :=
  let n := N_of_ascii c in
  ((9 <=? n) && (n <=? 13) || (28 <=? n) && (n <=? 32)
   || (n =? 133) || (n =? 160))%N.

Definition lower_char (c : ascii) : ascii :=
  let n := N_of_ascii c in
  if ((65 <=? n) && (n <=? 90))%N then ascii_of_N (n + 32) else c.

(** [str.upper] on one character: the letters a..z, and the letters
    224..254 other than the division sign, have their capital 32 places
    lower; the sharp s (223) becomes [SS]; the other characters are their
    own capital, but for the micro sign (181) and the y with diaeresis
    (255), whose capitals are no characters of this file: see
    [upper_known]. *)
Definition upper_char (c : ascii) : string :=
  let n := N_of_ascii c in
  if ((97 <=? n) && (n <=? 122)
      || (224 <=? n) && (n <=? 254) && negb (n =? 247))%N
  then String (ascii_of_N (n - 32)) EmptyString
  else if (n =? 223)%N then "SS"
  else String c EmptyString.

Fixpoint map_chars (f : ascii -> ascii) (s : string) : string :=
  match s with
  | EmptyString => EmptyString
  | String c s' => String (f c) (map_chars f s')
  end.

(** [s.lower()], where the result is compared with text of the first
    128 characters: there the mapping of A..Z alone gives the same
    answer. *)
Definition lower : string -> string := map_chars lower_char.

(** [s.upper()] *)
Fixpoint upper (s : string) : string :=
  match s with
  | EmptyString => EmptyString
  | String c s' => String.append (upper_char c) (upper s')
  end.

(** The capital of every character of [s] is a character of this file:
    [s] holds neither the micro sign nor the y with diaeresis. *)
Fixpoint upper_known (s : string) : bool :=
  match s with
  | EmptyString => true
  | String c s' =>
      negb (N_of_ascii c =? 181)%N && negb (N_of_ascii c =? 255)%N
      && upper_known s'
  end.

(** [s.lstrip()], [s.rstrip()], [s.strip()] with no argument. *)
Fixpoint lstrip (s : string) : string :=
  match s with
  | EmptyString => EmptyString
  | String c s' => if is_space c then lstrip s' else s
  end.

Fixpoint rstrip (s : string) : string :=
  match s with
  | EmptyString => EmptyString
  | String c s' =>
      match rstrip s' with
      | EmptyString => if is_space c then EmptyString else String c EmptyString
      | r => String c r
      end
  end.

Definition strip (s : string) : string := rstrip (lstrip s).

(** [s.rstrip(">")]: trailing occurrences of one given character. *)
Fixpoint rstrip_char (x : ascii) (s : string) : string :=
  match s with
  | EmptyString => EmptyString
  | String c s' =>
      match rstrip_char x s' with
      | EmptyString => if Ascii.eqb c x then EmptyString else String c EmptyString
      | r => String c r
      end
  end.

(** [s[:n]] for [n >= 0]. *)
Fixpoint take (n : nat) (s : string) : string :=
  match n, s with
  | S n', String c s' => String c (take n' s')
  | _, _ => EmptyString
  end.

(** [s.startswith(p)]. *)
Fixpoint startswith (p s : string) : bool :=
  match p, s with
  | EmptyString, _ => true
  | String a p', String b s' => Ascii.eqb a b && startswith p' s'
  | String _ _, EmptyString => false
  end.

(** [c in s] for a one-character [c]. *)
Fixpoint contains_char (x : ascii) (s : string) : bool :=
  match s with
  | EmptyString => false
  | String c s' => Ascii.eqb c x || contains_char x s'
  end.

(** [s.split(x)[-1]]: what follows the last occurrence of [x]. *)
Fixpoint after_last (x : ascii) (s : string) : string :=
  match s with
  | EmptyString => EmptyString
  | String c s' =>
      if contains_char x s' then after_last x s'
      else if Ascii.eqb c x then s' else s
  end.

(** Truth value of a string: [bool(s)]. *)
Definition truthy (s : string) : bool :=
  match s with EmptyString => false | _ => true end.

End PyStr.

(** ** The fragment of [re] used by the draft generator

    Patterns are compiled with [re.IGNORECASE | re.DOTALL]; repetition is
    only ever applied to a character class.  The matcher is the backtracking
    one of [re]: alternatives in order, greedy repetition first; the first
    success wins. *)

Module Regex.
Import PyStr.

Inductive regex : Type :=
| Lit (s : string)               (* literal text, compared ignoring case *)
| Class (p : ascii -> bool)      (* one character of a class *)
| Star (p : ascii -> bool)       (* greedy repetition of a class *)
| Opt (r : regex)                (* greedy optional group *)
| Alt (r1 r2 : regex)            (* ordered choice *)
| Seq (r1 r2 : regex)
| Eos.                           (* dollar, without MULTILINE *)

Definition ci_eqb (a b : ascii) : bool :=
  Ascii.eqb (lower_char a) (lower_char b).

(** Dollar matches at the end, and just before a final line break. *)
Definition at_end (s : string) : bool :=
  match s with
  | EmptyString => true
  | String c EmptyString => Ascii.eqb c "010"%char
  | _ => false
  end.

Definition cont := string -> option string.

Fixpoint lit (l : string) (s : string) (k : cont) : option string :=
  match l with
  | EmptyString => k s
  | String a l' =>
      match s with
      | String c s' => if ci_eqb a c then lit l' s' k else None
      | EmptyString => None
      end
  end.

Fixpoint star (p : ascii -> bool) (s : string) (k : cont) : option string :=
  match s with
  | String c s' =>
      if p c then
        match star p s' k with
        | Some r => Some r
        | None => k s
        end
      else k s
  | EmptyString => k s
  end.

(** [run r s k]: match [r] at the head of [s], then continue with [k] on
    what is left; the result is the text left after the whole match. *)
Fixpoint run (r : regex) (s : string) (k : cont) : option string :=
  match r with
  | Lit l => lit l s k
  | Class p =>
      match s with
      | String c s' => if p c then k s' else None
      | EmptyString => None
      end
  | Star p => star p s k
  | Opt r1 =>
      match run r1 s k with
      | Some x => Some x
      | None => k s
      end
  | Alt r1 r2 =>
      match run r1 s k with
      | Some x => Some x
      | None => run r2 s k
      end
  | Seq r1 r2 => run r1 s (fun s' => run r2 s' k)
  | Eos => if at_end s then k s else None
  end.

(** Length of the match of [r] that starts at the head of [s], if any. *)
Definition match_at (r : regex) (s : string) : option nat :=
  match run r s Some with
  | Some rest => Some (String.length s - String.length rest)%nat
  | None => None
  end.

(** [re.sub(r, '', s)]: scan left to right, drop each match, resume after
    it.  [skip] counts the characters of the current match still to drop. *)
Fixpoint sub_go (r : regex) (skip : nat) (s : string) : string :=
  match s with
  | EmptyString => EmptyString
  | String c s' =>
      match skip with
      | S n => sub_go r n s'
      | O =>
          match match_at r s with
          | Some (S n) => sub_go r n s'
          | _ => String c (sub_go r O s')
          end
      end
  end.

Definition sub (r : regex) (s : string) : string := sub_go r O s.

Definition any_char (c : ascii) : bool := true.
Definition one_of (cs : string) (c : ascii) : bool := contains_char c cs.

Fixpoint alts (ls : list string) : regex :=
  match ls with
  | [] => Class (fun _ => false)
  | [l] => Lit l
  | l :: ls' => Alt (Lit l) (alts ls')
  end.

Fixpoint seq (rs : list regex) : regex :=
  match rs with
  | [] => Lit EmptyString
  | [r] => r
  | r :: rs' => Seq r (seq rs')
  end.

End Regex.

(** ** Tones and the text pipeline of the draft generator
    ([MailboxSession._generate_draft], the pure part) *)

Module Draft.
Import PyStr Regex.

Record ToneConfig := {
  instruction : string;
  signature : string;
  temperature : Q
}.

Definition normal_config : ToneConfig := {|
  instruction :=
    "Write a NORMAL, straightforward email reply. " +:+
    "Use a balanced tone that is neither too formal nor too casual. " +:+
    "Be clear, helpful, and polite. " +:+
    "Keep it simple and to the point.";
  signature := "Regards," +:+ nl +:+ "Ayaan";
  temperature := 7 # 10
|}.

Definition friendly_config : ToneConfig := {|
  instruction :=
    "Write a WARM, FRIENDLY, and CASUAL reply. " +:+
    "Use a conversational, approachable tone like you're writing to a friend. " +:+
    "Feel free to use casual expressions, contractions, and show enthusiasm! " +:+
    "Add warmth with phrases like 'Hey!', 'Thanks so much!', 'That sounds great!'. " +:+
    "Use exclamation points where appropriate to convey energy and positivity. " +:+
    "Be personable, genuine, and make the recipient feel valued.";
  signature := "Regards," +:+ nl +:+ "Ayaan";
  temperature := 9 # 10
|}.

Definition professional_config : ToneConfig := {|
  instruction :=
    "Write a FORMAL and PROFESSIONAL reply suitable for official correspondence. " +:+
    "Use formal language with proper salutations like 'Dear Sir/Madam' or 'Dear Mr./Ms. [Name]'. " +:+
    "Maintain a serious, respectful, and professional tone throughout. " +:+
    "Use formal phrases like 'I am writing to...', 'Thank you for your correspondence...'. " +:+
    "Avoid contractions (use 'I am' not 'I'm', 'do not' not 'don't'). " +:+
    "Be precise, structured, and courteous.";
  signature :=
    "Regards," +:+ nl +:+ "Ayaan Asish" +:+ nl +:+ "Grade 11" +:+ nl +:+
    "West Carleton Secondary School, Ontario";
  temperature := 5 # 10
|}.

Definition tone_configs : gmap string ToneConfig :=
  <["normal" := normal_config]>
    (<["friendly" := friendly_config]>
       (<["professional" := professional_config]> ∅)).

(** [tone_configs.get(tone, tone_configs["normal"])] *)
Definition config_of (tone : string) : ToneConfig :=
  default normal_config (tone_configs !! tone).

Definition closings : list string :=
  [ "Best regards"; "Kind regards"; "Regards"; "Sincerely"; "Thanks";
    "Thank you"; "Cheers"; "Warm regards"; "Best"; "Yours truly";
    "Yours sincerely"; "Warmly"; "Take care"; "With appreciation" ].

Definition closing_patterns : list regex :=
  [ seq [ Lit nl; Star is_space; alts closings; Opt (Class (one_of ",."));
          Star is_space; Opt (Lit nl); Star is_space;
          Opt (Seq (Lit "Ayaan") (Star any_char)); Eos ];
    seq [ Lit nl; Star is_space; alts closings; Opt (Class (one_of ",."));
          Star is_space; Eos ];
    seq [ Lit nl; Star is_space; Opt (Lit "-"); Star is_space;
          Lit "Ayaan"; Star any_char; Eos ] ].

(** The loop [for pattern in closing_patterns: draft = re.sub(...).strip()]. *)
Definition strip_closings (draft : string) : string :=
  fold_left (fun d p => strip (sub p d)) closing_patterns draft.

Definition fallback_sentence (subject : string) : string :=
  "Thank you for your email regarding '" +:+ subject +:+
  "'. I will review and respond shortly.".

(** The text returned by the model, cleaned up: the part of the final
    draft that precedes the signature. *)
Definition clean_draft (subject draft : string) : string :=
  let draft :=
    if negb (truthy draft) || negb (truthy (strip draft))
    then fallback_sentence subject else draft in
  let draft := strip draft in
  strip_closings draft.

(** [final_draft], from the text returned by the model. *)
Definition finish_draft (subject sig draft : string) : string :=
  clean_draft subject draft +:+ nl +:+ nl +:+ sig.

Definition build_prompt (from_addr subject body tone : string) : string :=
  let instruction := instruction (config_of tone) in
  "You are an email assistant writing on behalf of Ayaan. Write a reply in a SPECIFIC tone." +:+ nl +:+ nl +:+
  "=== TONE: " +:+ upper tone +:+ " ===" +:+ nl +:+
  instruction +:+ nl +:+ nl +:+
  "=== ORIGINAL EMAIL ===" +:+ nl +:+
  "From: " +:+ from_addr +:+ nl +:+
  "Subject: " +:+ subject +:+ nl +:+ nl +:+
  body +:+ nl +:+
  "=== END OF EMAIL ===" +:+ nl +:+ nl +:+
  "=== CRITICAL INSTRUCTIONS ===" +:+ nl +:+
  "1. Write ONLY the email body content" +:+ nl +:+
  "2. Do NOT include any Subject line or email headers" +:+ nl +:+
  "3. Do NOT add ANY signature or closing at the end" +:+ nl +:+
  "4. Do NOT write 'Regards', 'Best regards', 'Sincerely', 'Thanks', 'Cheers', or ANY closing phrase" +:+ nl +:+
  "5. Do NOT sign off with any name" +:+ nl +:+
  "6. Just write the main message content and STOP" +:+ nl +:+
  "7. The tone MUST be clearly " +:+ upper tone +:+ nl +:+ nl +:+
  "Write the reply body now (NO signature, NO closing):".

End Draft.

(** ** Untyped values, outcomes and the state-and-exception monad *)

(** A JSON-like Python value; a dictionary keeps its items in insertion
    order. *)
#[warnings="-register-all"]
Inductive PyVal : Type :=
| VNone
| VBool (b : bool)
| VInt (n : Z)
| VStr (s : string)
| VList (l : list PyVal)
| VDict (d : list (string * PyVal)).

(** What a call does: return a value, or raise an exception; the exception
    is represented by its [str(e)]. *)
Inductive Outcome (A : Type) : Type :=
| Return (a : A)
| Raise (e : string).
Arguments Return {A} a.
Arguments Raise {A} e.

Definition is_return {A} (o : Outcome A) : bool :=
  match o with Return _ => true | Raise _ => false end.

(** What [json.loads] makes of a text: a value; [json.JSONDecodeError],
    for a text that is no JSON; or an exception of another class (the
    limit on the digits of an integer, [RecursionError]), represented by
    its [str(e)]. *)
Inductive Loaded : Type :=
| Parsed (v : PyVal)
| JSONDecodeError
| LoadsError (e : string).

Module Monad.

Definition M (St A : Type) : Type := St -> Outcome A * St.

Definition ret {St A} (a : A) : M St A := fun st => (Return a, st).
Definition raise {St A} (e : string) : M St A := fun st => (Raise e, st).

Definition bind {St A B} (m : M St A) (f : A -> M St B) : M St B :=
  fun st =>
    match m st with
    | (Return a, st') => f a st'
    | (Raise e, st') => (Raise e, st')
    end.

(** [try: m  except Exception as e: h e] *)
Definition try_except {St A} (m : M St A) (h : string -> M St A) : M St A :=
  fun st =>
    match m st with
    | (Return a, st') => (Return a, st')
    | (Raise e, st') => h e st'
    end.

Definition get {St} : M St St := fun st => (Return st, st).
Definition modify {St} (f : St -> St) : M St unit := fun st => (Return tt, f st).
Definition lift {St A} (o : Outcome A) : M St A := fun st => (o, st).

(** [for x in xs: body x] *)
Fixpoint for_each {St A} (xs : list A) (body : A -> M St unit) : M St unit :=
  match xs with
  | [] => ret tt
  | x :: xs' => bind (body x) (fun _ => for_each xs' body)
  end.

End Monad.

Declare Scope py_scope.
Delimit Scope py_scope with py.
Notation "x <- m ;; k" := (Monad.bind m (fun x => k))
  (at level 100, m at next level, right associativity) : py_scope.
Notation "m ;;; k" := (Monad.bind m (fun _ => k))
  (at level 100, right associativity) : py_scope.

(** ** Messages of the mail provider and [app/utils/email_utils.py] *)

(** A payload of the provider: [mimeType], [headers], [body.data] and
    [parts]; a missing key is the empty string, [None] or the empty list. *)
#[warnings="-register-all"]
Inductive Payload : Type :=
| MkPayload (mimeType : string) (headers : list (string * string))
            (data : option string) (parts : list Payload).

Definition mimeType (p : Payload) : string :=
  match p with MkPayload m _ _ _ => m end.
Definition headers (p : Payload) : list (string * string) :=
  match p with MkPayload _ h _ _ => h end.
Definition body_data (p : Payload) : option string :=
  match p with MkPayload _ _ d _ => d end.
Definition parts (p : Payload) : list Payload :=
  match p with MkPayload _ _ _ ps => ps end.

(** The message built by [create_reply_message]. *)
Record ReplyMessage := {
  raw : string;
  reply_threadId : option string
}.

Module EmailUtils.
Import PyStr.

(** [s[:n]] for any integer [n]. *)
Definition slice_to (n : Z) (s : string) : string :=
  if 0 <=? n then take (Z.to_nat n) s
  else take (String.length s - Z.to_nat (- n)) s.

(** [x.get("body", {}).get("data")] when it is truthy. *)
Definition inline_data (p : Payload) : option string :=
  match body_data p with
  | Some d => if truthy d then Some d else None
  | None => None
  end.

Section Decoder.
(** [base64.urlsafe_b64decode(d).decode("utf-8", errors="ignore")],
    of the Python library; it raises on malformed input. *)
Variable b64_utf8 : string -> Outcome string.

Definition decode_body (d : string) (max_length : Z) : Outcome string :=
  match b64_utf8 d with
  | Return body => Return (slice_to max_length body)
  | Raise e => Raise e
  end.

Fixpoint extract_email_body (payload : Payload) (max_length : Z)
  : Outcome string :=
  match payload with
  | MkPayload _ _ _ ps =>
      match inline_data payload with
      | Some d => decode_body d max_length
      | None =>
          (fix scan (ps : list Payload) : Outcome string :=
             match ps with
             | [] => Return EmptyString
             | part :: rest =>
                 let mime_type := mimeType part in
                 match (if String.eqb mime_type "text/plain"
                        then inline_data part else None) with
                 | Some d => decode_body d max_length
                 | None =>
                     if startswith "multipart/" mime_type then
                       match extract_email_body part max_length with
                       | Return nested_body =>
                           if truthy nested_body then Return nested_body
                           else scan rest
                       | Raise e => Raise e
                       end
                     else scan rest
                 end
             end) ps
      end
  end.
End Decoder.

Definition parse_email_address (from_header : string) : string :=
  if contains_char "<" from_header && contains_char ">" from_header
  then strip (rstrip_char ">" (after_last "<" from_header))
  else strip from_header.

(** The subject of a reply: [Re: ] is added unless already there. *)
Definition reply_subject (subject : string) : string :=
  if startswith "re:" (lower subject) then subject
  else "Re: " +:+ subject.

Section Mime.
(** The MIME text of a reply, encoded for the provider
    ([MIMEMultipart], [MIMEText], [base64.urlsafe_b64encode]); the body
    is whatever the caller passed, and building may raise. *)
Variable mime_encode : string -> string -> PyVal -> Outcome string.

Definition create_reply_message (to_address subject : string)
    (body : PyVal) (thread_id : option string) : Outcome ReplyMessage :=
  let subject := reply_subject subject in
  match mime_encode to_address subject body with
  | Return raw =>
      Return {| raw := raw;
                reply_threadId :=
                  match thread_id with
                  | Some t => if truthy t then Some t else None
                  | None => None
                  end |}
  | Raise e => Raise e
  end.
End Mime.

End EmailUtils.

(** ** Capabilities, call log and state *)

(** [format=] of [users().messages().get]. *)
Inductive Format : Type :=
| Metadata (metadataHeaders : list string)
| Full.

(** An entry of [results.get("messages", [])]. *)
Record MsgRef := { ref_id : string }.

(** A message returned by [users().messages().get(...).execute()]. *)
Record Message := {
  payload : Payload;
  snippet : string;
  threadId : option string
}.

(** A tool call of a model response: [function.name] (default the empty
    string) and [function.arguments] (default the empty dictionary). *)
Record ToolCall := {
  fn_name : string;
  fn_arguments : PyVal
}.

(** [response.get("message", {})]: [content] (default empty) and
    [tool_calls] (default empty). *)
Record AssistantMessage := {
  content : string;
  tool_calls : list ToolCall
}.

(** An entry of [conversation_history] or of the list sent to the model. *)
Inductive ConvMsg : Type :=
| MsgSystem (text : string)
| MsgUser (text : string)
| MsgAssistant (text : string)
| MsgAssistantRaw (m : AssistantMessage)   (* the model's message, as received *)
| MsgTool (text : string).

(** One entry of the call log: an invocation of a capability, or a call
    made through the agent's dispatch table (recorded when the wrapper is
    entered, its arguments bound). *)
Inductive Call : Type :=
| CallList (q maxResults : PyVal)
| CallGet (id : string) (fmt : Format)
| CallSend (msg : ReplyMessage)
| CallGenerate (prompt model : string) (temp : Q)
| CallChat (model : string) (messages : list ConvMsg)
| CallTool (func_name : string) (func_args : PyVal).

Definition is_llm_call (c : Call) : bool :=
  match c with
  | CallGenerate _ _ _ | CallChat _ _ => true
  | _ => false
  end.

Definition is_chat_call (c : Call) : bool :=
  match c with CallChat _ _ => true | _ => false end.

(** The Mail Capability and the Language-Model Capability over a world
    [W]: each handler answers (or faults) and moves the world on. *)
Record Capabilities (W : Type) := {
  svc_list : PyVal -> PyVal -> W -> Outcome (list MsgRef) * W;
  svc_get : string -> Format -> W -> Outcome Message * W;
  svc_send : ReplyMessage -> W -> Outcome unit * W;
  llm_generate_text : string -> string -> Q -> W -> Outcome string * W;
  llm_chat : string -> list ConvMsg -> W -> Outcome AssistantMessage * W
}.
Arguments svc_list {W}.
Arguments svc_get {W}.
Arguments svc_send {W}.
Arguments llm_generate_text {W}.
Arguments llm_chat {W}.

(** [email_cache] entries. *)
Record CachedEmail := {
  cached_from : string;
  cached_subject : string;
  cached_body : string
}.

(** The fields of a [MailboxSession]. *)
Record MailboxSession := {
  index_map : gmap Z string;
  last_draft : option string;
  last_number : option Z;
  email_cache : gmap Z CachedEmail
}.

(** The session, the agent's history, the world behind the capabilities
    and the log of capability invocations. *)
Record State (W : Type) := {
  mailbox : MailboxSession;
  conversation_history : list ConvMsg;
  world : W;
  calls : list Call
}.
Arguments mailbox {W}.
Arguments conversation_history {W}.
Arguments world {W}.
Arguments calls {W}.

Definition set_mailbox {W} (f : MailboxSession -> MailboxSession)
    (st : State W) : State W :=
  {| mailbox := f (mailbox st);
     conversation_history := conversation_history st;
     world := world st; calls := calls st |}.

Definition push_history {W} (m : ConvMsg) (st : State W) : State W :=
  {| mailbox := mailbox st;
     conversation_history := conversation_history st ++ [m];
     world := world st; calls := calls st |}.

Definition set_index_map (f : gmap Z string -> gmap Z string)
    (m : MailboxSession) : MailboxSession :=
  {| index_map := f (index_map m); last_draft := last_draft m;
     last_number := last_number m; email_cache := email_cache m |}.

Definition set_email_cache (f : gmap Z CachedEmail -> gmap Z CachedEmail)
    (m : MailboxSession) : MailboxSession :=
  {| index_map := index_map m; last_draft := last_draft m;
     last_number := last_number m; email_cache := f (email_cache m) |}.

Definition set_draft (d : option string) (n : option Z)
    (m : MailboxSession) : MailboxSession :=
  {| index_map := index_map m; last_draft := d;
     last_number := n; email_cache := email_cache m |}.

(** [MailboxSession.__init__] *)
Definition new_session : MailboxSession :=
  {| index_map := ∅; last_draft := None; last_number := None;
     email_cache := ∅ |}.

(** [str(v)], as used in f-strings, of a value that can be hashed.
    Lists and dictionaries are never formatted by the code below: looking
    them up raises first. *)
Definition py_str (v : PyVal) : string :=
  match v with
  | VNone => "None"
  | VBool true => "True"
  | VBool false => "False"
  | VInt n => pretty n
  | VStr s => s
  | VList _ | VDict _ => EmptyString
  end.

(** The key under which a value is looked up in a dictionary with integer
    keys: [True == 1] and [False == 0]; strings and [None] are no key of
    such a dictionary; lists and dictionaries cannot be hashed. *)
Definition key_of (v : PyVal) : Outcome (option Z) :=
  match v with
  | VInt n => Return (Some n)
  | VBool b => Return (Some (Z.b2z b))
  | VNone | VStr _ => Return None
  | VList _ => Raise "unhashable type: 'list'"
  | VDict _ => Raise "unhashable type: 'dict'"
  end.

(** [{h["name"]: h["value"] for h in headers}]: a later header of the same
    name replaces an earlier one. *)
Definition headers_dict (hs : list (string * string)) : gmap string string :=
  fold_left (fun m h => <[h.1 := h.2]> m) hs ∅.

Definition error_dict (msg : string) : PyVal := VDict [("error", VStr msg)].

Definition opt_str (o : option string) : PyVal :=
  match o with Some s => VStr s | None => VNone end.

(** ** [MailboxSession] ([app/utils/mailbox_session.py]) *)

Module Mailbox.
Import PyStr Monad EmailUtils Draft.
Local Open Scope py_scope.

Section Methods.
Context {W : Type}.
Variable cap : Capabilities W.
Variable b64_utf8 : string -> Outcome string.
Variable mime_encode : string -> string -> PyVal -> Outcome string.
Variable OLLAMA_MODEL : string.

Local Abbreviation M := (Monad.M (State W)).

(** One invocation of a capability: logged, answered by the handler. *)
Definition invoke {A} (c : Call) (h : W -> Outcome A * W) : M A :=
  fun st =>
    let (r, w') := h (world st) in
    (r, {| mailbox := mailbox st;
           conversation_history := conversation_history st;
           world := w'; calls := calls st ++ [c] |}).

Definition get_session : M MailboxSession :=
  fun st => (Return (mailbox st), st).

Definition update_session (f : MailboxSession -> MailboxSession) : M unit :=
  modify (set_mailbox f).

(** [clear] *)
Definition clear : M unit :=
  update_session (set_index_map (fun _ => ∅)) ;;;
  update_session (set_draft None None) ;;;
  update_session (set_email_cache (fun _ => ∅)).

Definition list_headers : list string := ["From"; "Subject"; "Date"].

Definition summary (i : Z) (msg : MsgRef) (data : Message) : PyVal :=
  let headers := headers_dict (headers (payload data)) in
  VDict [ ("number", VInt i);
          ("id", VStr (ref_id msg));
          ("from", VStr (default "Unknown" (headers !! "From")));
          ("subject", VStr (default "(No Subject)" (headers !! "Subject")));
          ("date", VStr (default EmptyString (headers !! "Date")));
          ("snippet", VStr (slice_to 120 (snippet data))) ].

(** The loop [for i, msg in enumerate(messages, start=1)] of
    [list_emails], from position [i] on. *)
Fixpoint list_loop (i : Z) (messages : list MsgRef) (emails : list PyVal)
  : M (list PyVal) :=
  match messages with
  | [] => ret emails
  | msg :: rest =>
      data <- invoke (CallGet (ref_id msg) (Metadata list_headers))
                     (svc_get cap (ref_id msg) (Metadata list_headers)) ;;
      update_session (set_index_map (insert i (ref_id msg))) ;;;
      list_loop (i + 1) rest (emails ++ [summary i msg data])
  end.

Definition list_emails (max_results query : PyVal) : M PyVal :=
  try_except
    (messages <- invoke (CallList query max_results)
                        (svc_list cap query max_results) ;;
     update_session (set_index_map (fun _ => ∅)) ;;;
     match messages with
     | [] =>
         ret (VDict [ ("emails", VList []);
                      ("message", VStr "No emails found matching the query.") ])
     | _ =>
         emails <- list_loop 1 messages [] ;;
         ret (VDict [ ("emails", VList emails);
                      ("count", VInt (Z.of_nat (length emails))) ])
     end)
    (fun e => ret (error_dict e)).

(** [self.index_map.get(number)] followed by the test [if not email_id]:
    the provider ID when the handle resolves to a non-empty one. *)
Definition resolve (number : PyVal) : M (option (Z * string)) :=
  k <- lift (key_of number) ;;
  m <- get_session ;;
  match k with
  | Some n =>
      match index_map m !! n with
      | Some id => ret (if truthy id then Some (n, id) else None)
      | None => ret None
      end
  | None => ret None
  end.

Definition invalid_number (number : PyVal) : PyVal :=
  error_dict ("Invalid email number " +:+ py_str number +:+
              ". Please list emails first.").

Definition _generate_draft (from_addr subject body tone : string) : M string :=
  let config := config_of tone in
  let signature := signature config in
  let temperature := temperature config in
  try_except
    (let prompt := build_prompt from_addr subject body tone in
     draft <- invoke (CallGenerate prompt OLLAMA_MODEL temperature)
                     (llm_generate_text cap prompt OLLAMA_MODEL temperature) ;;
     ret (finish_draft subject signature draft))
    (fun e => ret (fallback_sentence subject +:+ nl +:+ nl +:+ signature)).

(** The [try] block of [read_email]. *)
Definition fetch_and_draft (number : PyVal) (n : Z) (email_id : string)
    (generate_draft : bool) (tone : string) : M PyVal :=
  try_except
    (msg <- invoke (CallGet email_id Full) (svc_get cap email_id Full) ;;
     let headers := headers_dict (headers (payload msg)) in
     body <- lift (extract_email_body b64_utf8 (payload msg) 3000) ;;
     let result :=
       [ ("number", number);
         ("id", VStr email_id);
         ("from", VStr (default "Unknown" (headers !! "From")));
         ("subject", VStr (default "(No Subject)" (headers !! "Subject")));
         ("date", VStr (default EmptyString (headers !! "Date")));
         ("body", VStr body);
         ("thread_id", opt_str (threadId msg)) ] in
     let from_addr := default EmptyString (headers !! "From") in
     let subject := default EmptyString (headers !! "Subject") in
     update_session (set_email_cache (insert n
       {| cached_from := from_addr; cached_subject := subject;
          cached_body := body |})) ;;;
     if generate_draft then
       draft <- _generate_draft from_addr subject body tone ;;
       update_session (set_draft (Some draft) (Some n)) ;;;
       ret (VDict (result ++ [ ("draft_reply", VStr draft);
                               ("tone", VStr tone) ]))
     else ret (VDict result))
    (fun e => ret (error_dict e)).

Definition read_email (number : PyVal) (generate_draft : bool)
    (tone : string) : M PyVal :=
  r <- resolve number ;;
  match r with
  | None => ret (invalid_number number)
  | Some (n, email_id) =>
      fetch_and_draft number n email_id generate_draft tone
  end.

Definition regenerate_draft (number : PyVal) (tone : string) : M PyVal :=
  k <- lift (key_of number) ;;
  m <- get_session ;;
  match k ≫= (fun n => (fun c => (n, c)) <$> email_cache m !! n) with
  | None =>
      ret (error_dict ("Email " +:+ py_str number +:+
                       " not found in cache. Please read the email first."))
  | Some (n, cached) =>
      try_except
        (draft <- _generate_draft (cached_from cached) (cached_subject cached)
                                  (cached_body cached) tone ;;
         update_session (set_draft (Some draft) (Some n)) ;;;
         ret (VDict [ ("number", number); ("draft_reply", VStr draft);
                      ("tone", VStr tone) ]))
        (fun e => ret (error_dict e))
  end.

Definition no_draft : PyVal :=
  error_dict "No draft available for this email. Please read the email first to generate a draft.".

Definition reply_headers : list string := ["From"; "Subject"].

(** The body to send: the one given, or the pending draft when none is
    given and the draft is for this handle
    ([if self.last_number != number or not self.last_draft]). *)
Definition body_to_send (m : MailboxSession) (n : Z) (reply_body : PyVal)
  : option PyVal :=
  match reply_body with
  | VNone =>
      match last_draft m with
      | Some d =>
          if bool_decide (last_number m ≠ Some n) || negb (truthy d)
          then None else Some (VStr d)
      | None => None
      end
  | _ => Some reply_body
  end.

(** The [try] block of [send_reply]. *)
Definition deliver (n : Z) (email_id : string) (reply_body : PyVal)
  : M PyVal :=
  try_except
    (orig <- invoke (CallGet email_id (Metadata reply_headers))
                    (svc_get cap email_id (Metadata reply_headers)) ;;
     let headers := headers_dict (headers (payload orig)) in
     let to_addr :=
       parse_email_address (default EmptyString (headers !! "From")) in
     let subject := default EmptyString (headers !! "Subject") in
     let thread_id := threadId orig in
     message <- lift (create_reply_message mime_encode to_addr subject
                                           reply_body thread_id) ;;
     invoke (CallSend message) (svc_send cap message) ;;;
     m <- get_session ;;
     (if bool_decide (last_number m = Some n)
      then update_session (set_draft None None) else ret tt) ;;;
     ret (VDict [ ("success", VBool true);
                  ("sent_to", VStr to_addr);
                  ("subject", VStr (reply_subject subject)) ]))
    (fun e => ret (error_dict e)).

Definition send_reply (number reply_body : PyVal) : M PyVal :=
  r <- resolve number ;;
  match r with
  | None => ret (invalid_number number)
  | Some (n, email_id) =>
      m <- get_session ;;
      match body_to_send m n reply_body with
      | None => ret no_draft
      | Some reply_body => deliver n email_id reply_body
      end
  end.

End Methods.
End Mailbox.

(** ** [GmailAgent] ([app/agents/gmail_agent.py]) *)

Module Agent.
Import PyStr Monad Mailbox.
Local Open Scope py_scope.

Definition dq : string := String (ascii_of_nat 34) EmptyString.

Definition SYSTEM_PROMPT : string :=
  "You are a helpful Gmail assistant. You can help users manage their emails." +:+ nl +:+
  nl +:+
  "Available tools:" +:+ nl +:+
  "1. list_emails - List emails from the inbox. Use query parameter for filtering (e.g., " +:+
    dq +:+ "is:unread" +:+ dq +:+ ", " +:+ dq +:+ "from:someone@email.com" +:+ dq +:+ ")" +:+ nl +:+
  "2. read_email - Read the full content of an email by its number. This also generates a draft reply." +:+ nl +:+
  "3. send_email_reply - Send a reply to an email. ONLY use this after the user explicitly approves the draft." +:+ nl +:+
  nl +:+
  "IMPORTANT RULES:" +:+ nl +:+
  "- When user asks to see their emails, use list_emails" +:+ nl +:+
  "- When user wants to read an email, use read_email with the email number" +:+ nl +:+
  "- NEVER send an email without explicit user approval" +:+ nl +:+
  "- Always show the draft to the user and ask for confirmation before sending" +:+ nl +:+
  "- Be helpful and concise in your responses" +:+ nl.

(** The entries of the dispatch table [self.tool_functions]. *)
Inductive Tool : Type := ToolList | ToolRead | ToolSend.

(** [func_name in self.tool_functions] and [self.tool_functions[func_name]] *)
Definition tool_functions (func_name : string) : option Tool :=
  if String.eqb func_name "list_emails" then Some ToolList
  else if String.eqb func_name "read_email" then Some ToolRead
  else if String.eqb func_name "send_email_reply" then Some ToolSend
  else None.

(** The parameters of each wrapper, and its name in error messages. *)
Definition params (t : Tool) : list string :=
  match t with
  | ToolList => ["max_results"; "query"]
  | ToolRead => ["email_number"]
  | ToolSend => ["email_number"; "reply_body"]
  end.

Definition wrapper_name (t : Tool) : string :=
  match t with
  | ToolList => "GmailAgent._tool_list_emails()"
  | ToolRead => "GmailAgent._tool_read_email()"
  | ToolSend => "GmailAgent._tool_send_reply()"
  end.

(** The value of a key of a dictionary built by inserting the items in
    order: the last item of that key. *)
Fixpoint kw_get (k : string) (kw : list (string * PyVal)) : option PyVal :=
  match kw with
  | [] => None
  | (k', v) :: kw' =>
      match kw_get k kw' with
      | Some v' => Some v'
      | None => if String.eqb k' k then Some v else None
      end
  end.

(** The first keyword that is no parameter of the wrapper. *)
Definition unexpected (t : Tool) (kw : list (string * PyVal)) : option string :=
  fst <$> List.find (fun kv => negb (existsb (String.eqb kv.1) (params t))) kw.

Definition type_name (v : PyVal) : string :=
  match v with
  | VNone => "NoneType" | VBool _ => "bool" | VInt _ => "int"
  | VStr _ => "str" | VList _ => "list" | VDict _ => "dict"
  end.

Section Chat.
Context {W : Type}.
Variable cap : Capabilities W.
Variable b64_utf8 : string -> Outcome string.
Variable mime_encode : string -> string -> PyVal -> Outcome string.
Variable OLLAMA_MODEL : string.
(** [json.loads] *)
Variable json_loads : string -> Loaded.
(** [json.dumps(result, default=str)] *)
Variable json_dumps : PyVal -> string.

Local Abbreviation M := (Monad.M (State W)).

Definition _tool_list_emails (max_results query : PyVal) : M PyVal :=
  list_emails cap max_results query.

Definition _tool_read_email (email_number : PyVal) : M PyVal :=
  read_email cap b64_utf8 OLLAMA_MODEL email_number true "normal".

Definition _tool_send_reply (email_number reply_body : PyVal) : M PyVal :=
  send_reply cap mime_encode email_number reply_body.

Definition missing_argument (t : Tool) : string :=
  wrapper_name t +:+ " missing 1 required positional argument: 'email_number'".

(** Binding [func_args], unpacked as keyword arguments, to the
    parameters of a wrapper: the wrapper call ready to run, or the
    [TypeError] of a failed binding.  The first keyword that is no
    parameter decides; the keyword [self] names the receiver, which the
    bound method has filled already. *)
Definition bind_kwargs (t : Tool) (func_args : PyVal) : Outcome (M PyVal) :=
  match func_args with
  | VDict kw =>
      match unexpected t kw with
      | Some k =>
          Raise (if String.eqb k "self"
                 then wrapper_name t
                      +:+ " got multiple values for argument 'self'"
                 else wrapper_name t
                      +:+ " got an unexpected keyword argument '"
                      +:+ k +:+ "'")
      | None =>
          match t with
          | ToolList =>
              Return (_tool_list_emails
                        (default (VInt 10) (kw_get "max_results" kw))
                        (default (VStr "is:unread") (kw_get "query" kw)))
          | ToolRead =>
              match kw_get "email_number" kw with
              | Some n => Return (_tool_read_email n)
              | None => Raise (missing_argument t)
              end
          | ToolSend =>
              match kw_get "email_number" kw with
              | Some n =>
                  Return (_tool_send_reply n
                            (default VNone (kw_get "reply_body" kw)))
              | None => Raise (missing_argument t)
              end
          end
      end
  | v =>
      Raise ("app.agents.gmail_agent." +:+ wrapper_name t
             +:+ " argument after ** must be a mapping, not " +:+ type_name v)
  end.

Definition log_call (c : Call) : M unit :=
  modify (fun st => {| mailbox := mailbox st;
                       conversation_history := conversation_history st;
                       world := world st; calls := calls st ++ [c] |}).

(** The call [self.tool_functions[func_name]] with [func_args] unpacked
    as keyword arguments. *)
Definition call_tool (func_name : string) (t : Tool) (func_args : PyVal)
  : M PyVal :=
  match bind_kwargs t func_args with
  | Return run => log_call (CallTool func_name func_args) ;;; run
  | Raise e => raise e
  end.

(** The arguments of a tool call after the parse attempt: arguments that
    are text are parsed; [json.JSONDecodeError] is caught and leaves the
    empty dictionary; any other exception of the parser is raised. *)
Definition parsed_arguments (tool_call : ToolCall) : Outcome PyVal :=
  match fn_arguments tool_call with
  | VStr s =>
      match json_loads s with
      | Parsed v => Return v
      | JSONDecodeError => Return (VDict [])
      | LoadsError e => Raise e
      end
  | v => Return v
  end.

(** The body of the loop [for tool_call in tool_calls]. *)
Definition dispatch (tool_call : ToolCall) : M unit :=
  let func_name := fn_name tool_call in
  func_args <- lift (parsed_arguments tool_call) ;;
  result <- match tool_functions func_name with
            | Some t => call_tool func_name t func_args
            | None => ret (error_dict ("Unknown function: " +:+ func_name))
            end ;;
  modify (push_history (MsgTool (json_dumps result))).

Definition model_call : M AssistantMessage :=
  st <- get ;;
  let messages := MsgSystem SYSTEM_PROMPT :: conversation_history st in
  invoke (CallChat OLLAMA_MODEL messages) (llm_chat cap OLLAMA_MODEL messages).

Definition chat (user_message : string) : M string :=
  modify (push_history (MsgUser user_message)) ;;;
  assistant_message <- model_call ;;
  match tool_calls assistant_message with
  | _ :: _ =>
      modify (push_history (MsgAssistantRaw assistant_message)) ;;;
      for_each (tool_calls assistant_message) dispatch ;;;
      final_response <- model_call ;;
      let final_content := content final_response in
      modify (push_history (MsgAssistant final_content)) ;;;
      ret final_content
  | [] =>
      let content := content assistant_message in
      modify (push_history (MsgAssistant content)) ;;;
      ret content
  end.

(** [reset] *)
Definition reset : M unit :=
  modify (fun st => {| mailbox := mailbox st; conversation_history := [];
                       world := world st; calls := calls st |}) ;;;
  clear.

End Chat.
End Agent.

(** ** Test doubles

    A provider with a fixed listing and a fixed store of messages, and a
    model that answers from a script; the world counts the chat requests
    answered so far. *)

Module Double.
Import PyStr.

Definition not_found : string := "HttpError 404: Requested entity was not found.".

Definition provider_get (store : list (string * Message)) (id : string)
  : Outcome Message :=
  match List.find (fun e => String.eqb e.1 id) store with
  | Some e => Return e.2
  | None => Raise not_found
  end.

Definition capabilities (listing : Outcome (list MsgRef))
    (store : list (string * Message)) (generated : Outcome string)
    (script : list AssistantMessage) : Capabilities nat :=
  {| svc_list := fun _ _ w => (listing, w);
     svc_get := fun id _ w => (provider_get store id, w);
     svc_send := fun _ w => (Return tt, w);
     llm_generate_text := fun _ _ _ w => (generated, w);
     llm_chat := fun _ _ w =>
       (match nth_error script w with
        | Some m => Return m
        | None => Raise "Ollama request timed out"
        end, S w) |}.

(** A decoder that knows the encodings used in the examples:
    [aGk=] is the text [hi]; [====] carries no byte at all, and decodes
    to the empty text; anything else is reported as malformed. *)
Definition b64_utf8 (d : string) : Outcome string :=
  if String.eqb d "aGk=" then Return "hi"
  else if String.eqb d "====" then Return EmptyString
  else Raise "Incorrect padding".

(** An encoder that keeps the three parts of a reply readable. *)
Definition mime_encode (to_address subject : string) (body : PyVal)
  : Outcome string :=
  match body with
  | VStr b =>
      Return ("To: " +:+ to_address +:+ nl +:+ "Subject: " +:+ subject
              +:+ nl +:+ nl +:+ b)
  | _ => Raise "'int' object has no attribute 'encode'"
  end.

(** A parser that knows the empty object only. *)
Definition json_loads (s : string) : Loaded :=
  if String.eqb s "{}" then Parsed (VDict []) else JSONDecodeError.

(** A serializer that shows whether the payload is an error. *)
Definition json_dumps (v : PyVal) : string :=
  match v with
  | VDict (("error", VStr e) :: _) => "{error: " +:+ e +:+ "}"
  | _ => "{...}"
  end.

Definition OLLAMA_MODEL : string := "llama3.2".

Definition message (from subject data : string) : Message :=
  {| payload := MkPayload "text/plain"
                  [("From", from); ("Subject", subject)] (Some data) [];
     snippet := "hi"; threadId := Some "t1" |}.

Definition store3 : list (string * Message) :=
  [ ("m1", message "Ann <ann@example.com>" "Lunch" "aGk=");
    ("m2", message "Bob <bob@example.com>" "Report" "aGk=");
    ("m3", message "Cy <cy@example.com>" "Re: Plan" "aGk=") ].

Definition listing3 : list MsgRef :=
  [ {| ref_id := "m1" |}; {| ref_id := "m2" |}; {| ref_id := "m3" |} ].

End Double.

(** ** Vocabulary of the properties *)

Module Spec.
Import PyStr Regex Draft EmailUtils Monad Mailbox Agent.

(** *** Step relations of monadic code *)

(** [always R m]: every run of [m] takes a state to an [R]-related one,
    whether it returns or raises. *)
Definition always {St A} (R : relation St) (m : M St A) : Prop :=
  forall st, R st (m st).2.

(** [total m]: [m] never raises. *)
Definition total {St A} (m : M St A) : Prop :=
  forall st, is_return (m st).1 = true.

(** *** Results *)

Definition is_success (r : PyVal) : Prop :=
  exists to_addr subject,
    r = VDict [ ("success", VBool true); ("sent_to", VStr to_addr);
                ("subject", VStr subject) ].

(** A listing of [K] messages: the informational payload when [K] is
    zero, else [K] summaries and their count. *)
Definition listed (r : PyVal) (K : nat) : Prop :=
  (K = O /\
   r = VDict [ ("emails", VList []);
               ("message", VStr "No emails found matching the query.") ])
  \/ (exists emails, length emails = K /\ K <> O /\
        r = VDict [ ("emails", VList emails); ("count", VInt (Z.of_nat K)) ]).

(** *** Handles *)

(** The index map that numbers [refs] from [i] on, on top of [m]. *)
Fixpoint assign (i : Z) (refs : list MsgRef) (m : gmap Z string)
  : gmap Z string :=
  match refs with
  | [] => m
  | r :: rest => assign (i + 1) rest (<[i := ref_id r]> m)
  end.

(** The provider ID at the 1-based position [h] of a listing. *)
Definition handle_lookup (refs : list MsgRef) (h : Z) : option string :=
  if decide (1 <= h) then ref_id <$> refs !! Z.to_nat (h - 1) else None.

(** *** Pending draft *)

(** The session holds a draft [d] for handle [h]. *)
Definition pending_for (m : MailboxSession) (h : Z) (d : string) : Prop :=
  last_draft m = Some d /\ truthy d = true /\ last_number m = Some h.

(** The draft text and its handle are set together. *)
Definition draft_inv (m : MailboxSession) : Prop :=
  last_draft m = None <-> last_number m = None.

Definition keeps_inv {W} (st st' : State W) : Prop :=
  draft_inv (mailbox st) -> draft_inv (mailbox st').

(** *** Call log *)

Definition is_tool_call (c : Call) : bool :=
  match c with CallTool _ _ => true | _ => false end.

(** A capability invocation made on behalf of a tool: no chat request
    and no entry of the dispatch table. *)
Definition quiet (c : Call) : bool :=
  negb (is_chat_call c) && negb (is_tool_call c).

(** The history is untouched and the log grows by quiet entries, at most
    [n] of them invocations of the Language-Model Capability. *)
Definition frame {W} (n : nat) (st st' : State W) : Prop :=
  conversation_history st' = conversation_history st /\
  exists evs, calls st' = calls st ++ evs /\
              Forall (fun c => quiet c = true) evs /\
              (length (filter (fun c => is_llm_call c = true) evs) <= n)%nat.

(** *** Closing phrases in a text *)

Fixpoint split_lines (s : string) : list string :=
  match s with
  | EmptyString => [EmptyString]
  | String c s' =>
      match split_lines s' with
      | l :: ls =>
          if Ascii.eqb c "010" then EmptyString :: l :: ls
          else String c l :: ls
      | [] => [String c EmptyString]
      end
  end.

(** A line that is a closing phrase of the fixed list, with its optional
    comma or full stop, and nothing else. *)
Definition closing_line : regex :=
  seq [ Star is_space; alts closings; Opt (Class (one_of ",."));
        Star is_space; Eos ].

Definition is_closing_line (l : string) : bool :=
  match match_at closing_line l with Some _ => true | None => false end.

Definition has_closing_line (s : string) : bool :=
  existsb is_closing_line (split_lines s).

(** A pattern that can only match at a line break. *)
Definition at_line_break (p : regex) : Prop :=
  forall c s, c <> "010"%char -> match_at p (String c s) = None.

(** The closing lines that the first pattern removes on its own: a line
    break, a phrase of the list, an optional comma or full stop, and an
    optional line with the name. *)
Definition closing_tails : list string :=
  c ← closings; p ← [EmptyString; ","; "."];
  n ← [EmptyString; nl +:+ "Ayaan"]; [nl +:+ c +:+ p +:+ n].

(** The closing lines: a line break, a phrase of the list and its
    optional comma or full stop. *)
Definition closing_lines : list string :=
  c ← closings; p ← [EmptyString; ","; "."]; [nl +:+ c +:+ p].

(** The start of a line with the name, directly or after a dash. *)
Definition dashed_names : list string :=
  [nl +:+ "-Ayaan"; nl +:+ "- Ayaan"].

Definition name_lines : list string := (nl +:+ "Ayaan") :: dashed_names.

(** The text that the clean-up starts from: the answer of the model, or
    the fallback sentence when the answer is blank, stripped. *)
Definition answer_text (subject out : string) : string :=
  strip (if negb (truthy out) || negb (truthy (strip out))
         then fallback_sentence subject else out).

(** The pattern matches somewhere in the text. *)
Definition matches_in (p : regex) (d : string) : Prop :=
  exists u v, d = u +:+ v /\ match_at p v <> None.

(** A pattern whose last element is the end of the text. *)
Fixpoint ends_with_eos (r : regex) : bool :=
  match r with
  | Seq _ r2 => ends_with_eos r2
  | Eos => true
  | _ => false
  end.

(** What the three patterns, each followed by a strip, leave of the
    lines that follow the first one. *)
Definition tail_clean (y : string) : string :=
  fold_left (fun y p => sub_go p O (rstrip y)) closing_patterns y.

(** A pattern that, where it matches, matches up to the end of the
    text, and that does not match a line break alone. *)
Definition cuts_tail (p : regex) : Prop :=
  ends_with_eos p = true /\ match_at p nl = None.

(** *** The provider during a listing *)

Section Provider.
Context {W : Type}.
Variable cap : Capabilities W.

(** The provider's answers to the metadata requests of a listing, in
    order, up to the first fault: the messages fetched, the fault if
    any, and the world afterwards. *)
Fixpoint fetch_all (refs : list MsgRef) (w : W)
  : list Message * option string * W :=
  match refs with
  | [] => ([], None, w)
  | r :: rest =>
      match svc_get cap (ref_id r) (Metadata list_headers) w with
      | (Return d, w') =>
          let '(ds, fault, w'') := fetch_all rest w' in
          (d :: ds, fault, w'')
      | (Raise e, w') => ([], Some e, w')
      end
  end.

(** The Mail Capability faults with [e] during [list_emails]: on the
    listing request itself ([kept = None]), or on a metadata request,
    after the messages [kept] were fetched. *)
Definition provider_faults (st : State W) (max_results query : PyVal)
    (e : string) (kept : option (list MsgRef)) : Prop :=
  match kept with
  | None =>
      exists w1, svc_list cap query max_results (world st) = (Raise e, w1)
  | Some fetched =>
      exists refs w1 ds w2,
        svc_list cap query max_results (world st) = (Return refs, w1) /\
        fetch_all refs w1 = (ds, Some e, w2) /\
        fetched = firstn (length ds) refs
  end.
End Provider.

(** *** Body extraction, as the design document words it *)

Section Walk.
Variable b64_utf8 : string -> Outcome string.

(** The data of a plain-text part. *)
Definition plain_data (part : Payload) : option string :=
  if String.eqb (mimeType part) "text/plain" then inline_data part else None.

Definition is_multipart (part : Payload) : bool :=
  startswith "multipart/" (mimeType part).

(** The first plain-text part found scanning the parts in order, a
    multipart part being searched before its next sibling; [None] when
    no plain-text part exists where the search goes. *)
Fixpoint first_plain (payload : Payload) : option string :=
  match payload with
  | MkPayload _ _ _ ps =>
      (fix scan (ps : list Payload) : option string :=
         match ps with
         | [] => None
         | part :: rest =>
             match plain_data part with
             | Some d => Some d
             | None =>
                 if is_multipart part then
                   match first_plain part with
                   | Some d => Some d
                   | None => scan rest
                   end
                 else scan rest
             end
         end) ps
  end.

(** The payload's own inline body if present; otherwise the body of the
    first plain-text part found; the empty text when there is none. *)
Definition spec_extract (payload : Payload) (max_length : Z)
  : Outcome string :=
  match inline_data payload with
  | Some d => decode_body b64_utf8 d max_length
  | None =>
      match first_plain payload with
      | Some d => decode_body b64_utf8 d max_length
      | None => Return EmptyString
      end
  end.

(** The data [d] does not decode to the empty text. *)
Definition decodes_nonempty (max_length : Z) (d : string) : bool :=
  match decode_body b64_utf8 d max_length with
  | Return b => truthy b
  | Raise _ => true
  end.

(** The search meets nothing but what the wording provides for: no
    multipart part that it enters carries inline data of its own; and
    the plain-text part found, when it lies inside a multipart part
    ([nested]), does not decode to the empty text.  Parts that the
    search does not reach, and parts of other types, are of no
    account. *)
Fixpoint plain_walk (max_length : Z) (nested : bool) (payload : Payload)
  : bool :=
  match payload with
  | MkPayload _ _ _ ps =>
      (fix scan (ps : list Payload) : bool :=
         match ps with
         | [] => true
         | part :: rest =>
             match plain_data part with
             | Some d => negb nested || decodes_nonempty max_length d
             | None =>
                 if is_multipart part then
                   match inline_data part with
                   | Some _ => false
                   | None =>
                       plain_walk max_length true part
                       && match first_plain part with
                          | Some _ => true
                          | None => scan rest
                          end
                   end
                 else scan rest
             end
         end) ps
  end.
End Walk.

(** *** Tool calls *)

Definition hashable (v : PyVal) : bool := is_return (key_of v).

Section ToolCalls.
Variable json_loads : string -> Loaded.

(** The tool call returns to the loop: the parse attempt on its
    arguments does not raise (they are no text, or text that the parser
    reads or rejects as no JSON); and then the name is unknown (inline
    error), or the arguments are a dictionary that binds to the
    parameters of the wrapper, with a handle that can be looked up. *)
Definition dispatchable (tc : ToolCall) : bool :=
  match parsed_arguments json_loads tc with
  | Raise _ => false
  | Return func_args =>
      match tool_functions (fn_name tc) with
      | None => true
      | Some t =>
          match func_args with
          | VDict kw =>
              match unexpected t kw with
              | Some _ => false
              | None =>
                  match t with
                  | ToolList => true
                  | _ => match kw_get "email_number" kw with
                         | Some n => hashable n
                         | None => false
                         end
                  end
              end
          | _ => false
          end
      end
  end.

(** The entries the dispatch table receives for a list of tool
    calls. *)
Definition tool_events (tcs : list ToolCall) : list Call :=
  omap (fun tc =>
          match tool_functions (fn_name tc), parsed_arguments json_loads tc with
          | Some _, Return func_args => Some (CallTool (fn_name tc) func_args)
          | _, _ => None
          end) tcs.

(** The number of invocations of the Language-Model Capability that a tool
    may make: [read_email] drafts a reply, the other tools make none. *)
Definition drafts_of (t : Tool) : nat :=
  match t with ToolRead => 1 | _ => 0 end.

Definition drafts (tcs : list ToolCall) : nat :=
  sum_list_with (fun tc => from_option drafts_of O (tool_functions (fn_name tc)))
                tcs.

End ToolCalls.

End Spec.

(** ** Concrete sessions, providers and models used in the examples *)

Module Example.
Import PyStr Double.

Definition session (index : gmap Z string) (draft : option string)
    (number : option Z) : State nat :=
  {| mailbox := {| index_map := index; last_draft := draft;
                   last_number := number; email_cache := ∅ |};
     conversation_history := []; world := O; calls := [] |}.

Definition listed3 : gmap Z string :=
  <[1 := "m1"]> (<[2 := "m2"]> (<[3 := "m3"]> ∅)).

(** A provider and a model that answer every request. *)
Definition steady : Capabilities nat :=
  capabilities (Return listing3) store3 (Return "Sure, see you then!") [].

(** A provider that lists three messages and has lost the second. *)
Definition lossy : Capabilities nat :=
  capabilities (Return listing3)
    [ ("m1", message "Ann <ann@example.com>" "Lunch" "aGk=");
      ("m3", message "Cy <cy@example.com>" "Re: Plan" "aGk=") ]
    (Return "Sure, see you then!") [].

(** A provider whose listing request faults. *)
Definition offline : Capabilities nat :=
  capabilities (Raise "HttpError 503: Backend Error") store3
    (Return "Sure, see you then!") [].

(** A provider that lists one message, under an empty identifier. *)
Definition nameless : Capabilities nat :=
  capabilities (Return [ {| ref_id := EmptyString |} ])
    [ (EmptyString, message "Ann <ann@example.com>" "Lunch" "aGk=") ]
    (Return "Sure, see you then!") [].

(** A session that still holds the handles of an earlier listing. *)
Definition earlier : State nat :=
  session (<[1 := "old1"]> (<[2 := "old2"]> ∅)) None None.

(** A session after a listing, and the same with a draft for handle 2. *)
Definition after_listing : State nat := session listed3 None None.

Definition drafted : State nat :=
  session listed3
    (Some ("Sure, see you then!" +:+ nl +:+ nl +:+ "Regards," +:+ nl +:+ "Ayaan"))
    (Some 2).

(** A model that signs its answer with a placeholder name. *)
Definition signed_output : string :=
  "Thanks for the update." +:+ nl +:+ nl +:+ "Best regards," +:+ nl +:+
  "[Your Name]".

Definition signing : Capabilities nat :=
  capabilities (Return listing3) store3 (Return signed_output) [].

(** A model that answers with a closing phrase after one line. *)
Definition polite : Capabilities nat :=
  capabilities (Return listing3) store3
    (Return ("  Sounds good, see you at noon. " +:+ nl +:+ "Thank you,"
             +:+ nl +:+ "Ayaan")) [].

(** A model that returns nothing, and a subject on two lines. *)
Definition silent : Capabilities nat :=
  capabilities (Return listing3) store3 (Return EmptyString) [].

Definition folded_subject : string :=
  "Lunch with" +:+ cr +:+ nl +:+ " Ayaan on Friday".

(** A message whose first alternative is a plain-text part without a
    byte of text, followed by a plain-text part that reads [hi]. *)
Definition blank_then_text : Payload :=
  MkPayload "multipart/mixed" [] None
    [ MkPayload "multipart/alternative" [] None
        [ MkPayload "text/plain" [] (Some "====") [] ];
      MkPayload "text/plain" [] (Some "aGk=") [] ].

(** A message whose one part is a multipart part that carries a body
    of its own, readable or malformed; no part is plain text. *)
Definition multipart_with_body (data : string) : Payload :=
  MkPayload "multipart/mixed" [] None
    [ MkPayload "multipart/alternative" [] (Some data) [] ].

Definition html_then_text : Payload :=
  MkPayload "multipart/mixed" [] None
    [ MkPayload "multipart/alternative" [] None
        [ MkPayload "text/html" [] (Some "aGk=") [] ];
      MkPayload "text/plain" [] (Some "aGk=") [] ].

(** A model that asks to read message 1, then answers. *)
Definition asks_to_read : AssistantMessage :=
  {| content := EmptyString;
     tool_calls := [ {| fn_name := "read_email";
                        fn_arguments := VDict [("email_number", VInt 1)] |} ] |}.

Definition answers : AssistantMessage :=
  {| content := "Done"; tool_calls := [] |}.

Definition reader : Capabilities nat :=
  capabilities (Return listing3) store3 (Return "Ok.") [asks_to_read; answers].

(** A model whose tool call carries arguments that are no JSON. *)
Definition garbled : AssistantMessage :=
  {| content := EmptyString;
     tool_calls := [ {| fn_name := "read_email";
                        fn_arguments := VStr "email 1, please" |} ] |}.

Definition garbler : Capabilities nat :=
  capabilities (Return listing3) store3 (Return "Ok.") [garbled; answers].

End Example.

(** ** [OllamaClientWrapper] ([app/clients/ollama_client.py])

    The client is modelled on untyped values: what the endpoint answers
    is any JSON value, and an operation applied to a value that does not
    support it raises.  The text of such an exception depends on the
    interpreter; it is the parameter [py_error].  The request of [httpx]
    is a handler over the world, which answers with a response or with
    one of the exceptions that [chat] tells apart. *)

Module Ollama.
Import PyStr Monad Agent.
Local Open Scope py_scope.

(** [p in s] for two strings. *)
Fixpoint contains (p s : string) : bool :=
  startswith p s
  || match s with
     | EmptyString => false
     | String _ s' => contains p s'
     end.

(** [s.split(sep)] for a one-character separator. *)
Fixpoint split (sep : ascii) (s : string) : list string :=
  match s with
  | EmptyString => [EmptyString]
  | String c s' =>
      match split sep s' with
      | l :: ls =>
          if Ascii.eqb c sep then EmptyString :: l :: ls
          else String c l :: ls
      | [] => [String c EmptyString]
      end
  end.

(** [s[n:]] for [n >= 0]. *)
Fixpoint drop (n : nat) (s : string) : string :=
  match n, s with
  | S n', String _ s' => drop n' s'
  | _, _ => s
  end.

(** The number of characters up to the end of the first occurrence of [p]
    in [s], if there is one. *)
Fixpoint find_end (p s : string) : option nat :=
  if startswith p s then Some (String.length p)
  else match s with
       | EmptyString => None
       | String _ s' => S <$> find_end p s'
       end.

(** The length of a match of the pattern of [generate_text], an opening
    tag, as few characters as possible, a closing tag, at the head of
    [s]; the pattern is compiled with [re.DOTALL]. *)
Definition think_block (s : string) : option nat :=
  if startswith "<think>" s then
    (fun k => (7 + k)%nat) <$> find_end "</think>" (drop 7 s)
  else None.

(** [re.sub(pattern, '', s)]: scan left to right, drop each match, resume
    after it.  [skip] counts the characters of the current match still to
    drop. *)
Fixpoint remove_think (skip : nat) (s : string) : string :=
  match s with
  | EmptyString => EmptyString
  | String c s' =>
      match skip with
      | S n => remove_think n s'
      | O =>
          match think_block s with
          | Some (S n) => remove_think n s'
          | _ => String c (remove_think O s')
          end
      end
  end.

(** An exception of [httpx] raised by a request. *)
Inductive HttpFault : Type :=
| ConnectError (e : string)
| TimeoutException (e : string)
| OtherError (e : string).

(** An [httpx.Response]: [status_code], [text], and what [json()]
    gives. *)
Record Response := {
  status_code : Z;
  text : string;
  json : Outcome PyVal
}.

(** The JSON document posted to the chat endpoint; [tools] and [options]
    are keys only when given. *)
Record ChatPayload := {
  payload_model : string;
  payload_messages : list ConvMsg;
  payload_stream : bool;
  payload_tools : option (list PyVal);
  payload_options : option (list (string * Q))
}.

(** An [httpx.Client], known by its default headers; the timeout is two
    minutes and certificates are not verified. *)
Record HttpClient := { client_headers : list (string * string) }.

Record OllamaClientWrapper := {
  host : string;
  api_key : string;
  _http_client : option HttpClient
}.

(** The object and the network it talks to. *)
Record Client (W : Type) := {
  self : OllamaClientWrapper;
  net : W
}.
Arguments self {W}.
Arguments net {W}.

Definition __init__ (host api_key : string) : OllamaClientWrapper :=
  {| host := rstrip_char "/" host; api_key := api_key; _http_client := None |}.

(** Truth value of a value. *)
Definition py_bool (v : PyVal) : bool :=
  match v with
  | VNone => false
  | VBool b => b
  | VInt n => negb (n =? 0)
  | VStr s => truthy s
  | VList l => match l with [] => false | _ => true end
  | VDict d => match d with [] => false | _ => true end
  end.

Section Client.
Context {W : Type}.
(** [httpx.Client.post(url, json=payload)] *)
Variable post : HttpClient -> string -> ChatPayload -> W
                -> (HttpFault + Response) * W.
(** [json.loads] *)
Variable json_loads : string -> Loaded.
(** The message of the exception that the interpreter raises when the
    operation named is applied to a value that does not support it. *)
Variable py_error : string -> PyVal -> string.
Variable OLLAMA_MODEL : string.
Variable OLLAMA_BASE_URL : string.
Variable OLLAMA_API_KEY : string.

Local Abbreviation M := (Monad.M (Client W)).

(** [k in v] for a string [k]. *)
Definition py_in (k : string) (v : PyVal) : Outcome bool :=
  match v with
  | VDict d => Return (existsb (fun kv => String.eqb kv.1 k) d)
  | VList l =>
      Return (existsb (fun x => match x with
                                | VStr s => String.eqb s k
                                | _ => false
                                end) l)
  | VStr s => Return (contains k s)
  | _ => Raise (py_error "in" v)
  end.

(** [v[k]] for a string [k] known to be in [v]. *)
Definition py_item (v : PyVal) (k : string) : Outcome PyVal :=
  match v with
  | VDict d =>
      match kw_get k d with
      | Some x => Return x
      | None => Raise (py_error "[]" v)
      end
  | _ => Raise (py_error "[]" v)
  end.

(** [v.get(k, default)] *)
Definition py_get (v : PyVal) (k : string) (default : PyVal) : Outcome PyVal :=
  match v with
  | VDict d => Return (from_option (fun x => x) default (kw_get k d))
  | _ => Raise (py_error ".get" v)
  end.

(** The property [http_client]: the client is made on first use. *)
Definition http_client : M HttpClient :=
  fun st =>
    match _http_client (self st) with
    | Some c => (Return c, st)
    | None =>
        let headers :=
          ("Content-Type", "application/json")
          :: (if truthy (api_key (self st))
              then [("Authorization", "Bearer " +:+ api_key (self st))]
              else []) in
        let c := {| client_headers := headers |} in
        (Return c,
         {| self := {| host := host (self st); api_key := api_key (self st);
                       _http_client := Some c |};
            net := net st |})
    end.

(** What a chunk of a streamed answer adds to the content:
    [chunk['message']['content']] when both keys are there. *)
Definition chunk_content (chunk : PyVal) : Outcome (option PyVal) :=
  match py_in "message" chunk with
  | Raise e => Raise e
  | Return false => Return None
  | Return true =>
      match py_item chunk "message" with
      | Raise e => Raise e
      | Return message =>
          match py_in "content" message with
          | Raise e => Raise e
          | Return false => Return None
          | Return true =>
              match py_item message "content" with
              | Raise e => Raise e
              | Return c => Return (Some c)
              end
          end
      end
  end.

(** The loop over the lines of a streamed answer. *)
Fixpoint stream_loop (lines : list string) (full_content : string)
  : Outcome string :=
  match lines with
  | [] => Return full_content
  | line :: rest =>
      if truthy (strip line) then
        match json_loads line with
        | JSONDecodeError => stream_loop rest full_content
        | LoadsError e => Raise e
        | Parsed chunk =>
            match chunk_content chunk with
            | Raise e => Raise e
            | Return None => stream_loop rest full_content
            | Return (Some (VStr s)) => stream_loop rest (full_content +:+ s)
            | Return (Some v) => Raise (py_error "+=" v)
            end
        end
      else stream_loop rest full_content
  end.

Definition streamed (full_content : string) : PyVal :=
  VDict [ ("message", VDict [ ("role", VStr "assistant");
                              ("content", VStr full_content) ]);
          ("done", VBool true) ].

(** What [chat] makes of the response to its request. *)
Definition read_response (response : Response) : Outcome PyVal :=
  if negb (status_code response =? 200) then
    Raise ("Ollama API error " +:+ pretty (status_code response) +:+ ": "
           +:+ take 500 (text response))
  else if contains_char "010" (text response) then
    match stream_loop (split "010" (strip (text response))) EmptyString with
    | Return full_content => Return (streamed full_content)
    | Raise e => Raise e
    end
  else json response.

Definition chat (model : string) (messages : list ConvMsg)
    (tools : option (list PyVal)) (options : option (list (string * Q)))
    (stream : bool) : M PyVal :=
  fun st =>
    let url := host (self st) +:+ "/api/chat" in
    let payload :=
      {| payload_model := model;
         payload_messages := messages;
         payload_stream := stream;
         payload_tools :=
           match tools with
           | Some (t :: ts) => Some (t :: ts)
           | _ => None
           end;
         payload_options :=
           match options with
           | Some (o :: os) => Some (o :: os)
           | _ => None
           end |} in
    (client <- http_client ;;
     fun st1 =>
       match post client url payload (net st1) with
       | (inr response, w') =>
           (read_response response, {| self := self st1; net := w' |})
       | (inl (ConnectError e), w') =>
           (Raise ("Failed to connect to Ollama at " +:+ host (self st1)
                   +:+ ": " +:+ e),
            {| self := self st1; net := w' |})
       | (inl (TimeoutException e), w') =>
           (Raise ("Ollama request timed out: " +:+ e),
            {| self := self st1; net := w' |})
       | (inl (OtherError e), w') =>
           (Raise e, {| self := self st1; net := w' |})
       end) st.

(** The clean-up of [generate_text]: when both tags occur in the content,
    the blocks between them are removed and the rest is stripped. *)
Definition clean_content (content : PyVal) : Outcome PyVal :=
  match py_in "<think>" content with
  | Raise e => Raise e
  | Return false => Return content
  | Return true =>
      match py_in "</think>" content with
      | Raise e => Raise e
      | Return false => Return content
      | Return true =>
          match content with
          | VStr s => Return (VStr (strip (remove_think O s)))
          | v => Raise (py_error "re.sub" v)
          end
      end
  end.

Definition generate_text (prompt : string) (model : option string)
    (temperature : Q) : M PyVal :=
  let model :=
    match model with
    | Some m => if truthy m then m else OLLAMA_MODEL
    | None => OLLAMA_MODEL
    end in
  response <- chat model [MsgUser prompt] None
                   (Some [("temperature", temperature)]) true ;;
  message <- lift (py_get response "message" (VDict [])) ;;
  content <- lift (py_get message "content" (VStr EmptyString)) ;;
  lift (clean_content content).

(** [response[:100]] *)
Definition first_100 (response : PyVal) : Outcome PyVal :=
  match response with
  | VStr s => Return (VStr (take 100 s))
  | VList l => Return (VList (firstn 100 l))
  | v => Raise (py_error "[:]" v)
  end.

Definition test_connection : M (bool * PyVal) :=
  try_except
    (response <- generate_text "Say 'Hello' in one word."
                               (Some OLLAMA_MODEL) (1 # 10) ;;
     message <- lift (if py_bool response then first_100 response
                      else Return (VStr "Connected but empty response")) ;;
     ret (true, message))
    (fun e => ret (false, VStr e)).

(** [get_ollama_client], on the module-level singleton. *)
Definition get_ollama_client (_ollama_client : option OllamaClientWrapper)
  : OllamaClientWrapper * option OllamaClientWrapper :=
  match _ollama_client with
  | Some c => (c, Some c)
  | None =>
      let c := __init__ OLLAMA_BASE_URL OLLAMA_API_KEY in (c, Some c)
  end.

End Client.
End Ollama.

(** ** The application ([app/main.py])

    The attributes of [state], the startup and the endpoints that assign
    to them or call the session or the agent.  Objects that several
    holders refer to (the [MailboxSession] of [state] and of the agent)
    live in a store and are named by their position in it.  The
    functions of [app/clients/gmail_client.py] and the metrics collector
    are used through their interface: the former are handlers over the
    world, the calls to the latter are recorded in order, durations left
    out.  As in the model of the session, a request to the mail provider
    acts on the world, whichever service object carries it.  An endpoint
    answers, raises [HTTPException], or lets another exception through. *)

Module App.
Import PyStr Monad Mailbox Agent.

(** A service object of the mail provider and the client of the model:
    the application tests them for presence and hands them on. *)
Record Resource := { resource_id : nat }.
Inductive OllamaClient : Type := ollama_client_object.

(** A [GmailAgent] object: its service, its session (an object that
    others may hold too) and its history. *)
Record GmailAgent := {
  agent_gmail_service : option Resource;
  agent_mailbox : nat;
  agent_history : list ConvMsg
}.

(** The calls made to the metrics collector; durations are left out. *)
Inductive Metric : Type :=
| record_email_listed (count : nat)
| record_email_read
| record_email_sent
| record_draft_generated
| record_agent_chat (status : string) (conversation_length : nat)
| record_auth_operation (operation status : string)
| set_token_status (is_valid : bool)
| set_ollama_status (is_connected : bool).

(** The attributes of [state], the [MailboxSession] objects made so far,
    the metrics recorded, the world and the log. *)
Record App (W : Type) := {
  gmail_service : option Resource;
  ollama_client : option OllamaClient;
  state_mailbox : option nat;
  agent : option GmailAgent;
  sessions : list MailboxSession;
  metrics : list Metric;
  app_world : W;
  app_calls : list Call
}.
Arguments gmail_service {W}.
Arguments ollama_client {W}.
Arguments state_mailbox {W}.
Arguments agent {W}.
Arguments sessions {W}.
Arguments metrics {W}.
Arguments app_world {W}.
Arguments app_calls {W}.

(** What an endpoint does: it answers, raises [HTTPException], or lets
    another exception through to the framework. *)
Inductive Result (A : Type) : Type :=
| Ok (a : A)
| HTTPException (status_code : Z) (detail : PyVal)
| Error (e : string).
Arguments Ok {A} a.
Arguments HTTPException {A} status_code detail.
Arguments Error {A} e.

Definition Handler (W A : Type) : Type := App W -> Result A * App W.

Definition answer {W A} (a : A) : Handler W A := fun app => (Ok a, app).

Definition http_exception {W A} (status_code : Z) (detail : PyVal)
  : Handler W A :=
  fun app => (HTTPException status_code detail, app).

Definition and_then {W A B} (m : Handler W A) (f : A -> Handler W B)
  : Handler W B :=
  fun app =>
    match m app with
    | (Ok a, app') => f a app'
    | (HTTPException s d, app') => (HTTPException s d, app')
    | (Error e, app') => (Error e, app')
    end.

(** The functions of [app/clients/gmail_client.py] and the start of the
    client of the model, over the world. *)
Record Platform (W : Type) := {
  check_token_status : W -> bool * W;       (* the key [valid] of the answer *)
  get_gmail_service : bool -> W -> Outcome Resource * W;
  create_token_from_code : string -> string -> W
                           -> Outcome (list (string * PyVal)) * W;
  test_gmail_connection : option Resource -> W -> (bool * string) * W;
  refresh_token : W -> list (string * PyVal) * W;
  delete_token : W -> Outcome PyVal * W;
  get_ollama_client : W -> Outcome OllamaClient * W;
  test_connection : OllamaClient -> W -> Outcome (bool * string) * W
}.
Arguments check_token_status {W}.
Arguments get_gmail_service {W}.
Arguments create_token_from_code {W}.
Arguments test_gmail_connection {W}.
Arguments refresh_token {W}.
Arguments delete_token {W}.
Arguments get_ollama_client {W}.
Arguments test_connection {W}.

(** The request and response models; the fields of a request arrive
    validated. *)
Record ListEmailsRequest := { max_results : Z; query : string }.
Record ReadEmailRequest := {
  read_email_number : Z; generate_draft : bool; read_tone : string }.
Record RegenerateDraftRequest := {
  regenerate_email_number : Z; regenerate_tone : string }.
Record SendReplyRequest := {
  reply_email_number : Z; reply_body : option string }.
Record ChatRequest := { message : string }.
Record ChatResponse := { response : string; conversation_length : nat }.
Record AuthCallbackRequest := { code : string; redirect_uri : string }.

Definition valid_tones : list string := ["normal"; "friendly"; "professional"].

(** Assignments to the attributes of [state]. *)
Definition set_gmail_service {W} (g : option Resource) (app : App W) : App W :=
  {| gmail_service := g; ollama_client := ollama_client app;
     state_mailbox := state_mailbox app; agent := agent app;
     sessions := sessions app; metrics := metrics app;
     app_world := app_world app; app_calls := app_calls app |}.

Definition set_ollama_client {W} (o : option OllamaClient) (app : App W)
  : App W :=
  {| gmail_service := gmail_service app; ollama_client := o;
     state_mailbox := state_mailbox app; agent := agent app;
     sessions := sessions app; metrics := metrics app;
     app_world := app_world app; app_calls := app_calls app |}.

Definition set_mailbox_ref {W} (m : option nat) (app : App W) : App W :=
  {| gmail_service := gmail_service app; ollama_client := ollama_client app;
     state_mailbox := m; agent := agent app;
     sessions := sessions app; metrics := metrics app;
     app_world := app_world app; app_calls := app_calls app |}.

Definition set_agent {W} (a : option GmailAgent) (app : App W) : App W :=
  {| gmail_service := gmail_service app; ollama_client := ollama_client app;
     state_mailbox := state_mailbox app; agent := a;
     sessions := sessions app; metrics := metrics app;
     app_world := app_world app; app_calls := app_calls app |}.

Definition set_world {W} (w : W) (app : App W) : App W :=
  {| gmail_service := gmail_service app; ollama_client := ollama_client app;
     state_mailbox := state_mailbox app; agent := agent app;
     sessions := sessions app; metrics := metrics app;
     app_world := w; app_calls := app_calls app |}.

(** One call to the metrics collector. *)
Definition record {W} (m : Metric) (app : App W) : App W :=
  {| gmail_service := gmail_service app; ollama_client := ollama_client app;
     state_mailbox := state_mailbox app; agent := agent app;
     sessions := sessions app; metrics := metrics app ++ [m];
     app_world := app_world app; app_calls := app_calls app |}.

(** [state.mailbox = MailboxSession()]: a new object, to which [state]
    now refers. *)
Definition new_state_mailbox {W} (app : App W) : App W :=
  {| gmail_service := gmail_service app; ollama_client := ollama_client app;
     state_mailbox := Some (length (sessions app)); agent := agent app;
     sessions := sessions app ++ [new_session]; metrics := metrics app;
     app_world := app_world app; app_calls := app_calls app |}.

(** [state.agent = GmailAgent(state.ollama_client, state.gmail_service,
    mailbox=state.mailbox)]: the agent works on the session that [state]
    refers to; when there is none it makes one of its own. *)
Definition new_state_agent {W} (app : App W) : App W :=
  let l := default (length (sessions app)) (state_mailbox app) in
  {| gmail_service := gmail_service app;
     ollama_client := ollama_client app;
     state_mailbox := state_mailbox app;
     agent := Some {| agent_gmail_service := gmail_service app;
                      agent_mailbox := l; agent_history := [] |};
     sessions :=
       match state_mailbox app with
       | Some _ => sessions app
       | None => sessions app ++ [new_session]
       end;
     metrics := metrics app;
     app_world := app_world app; app_calls := app_calls app |}.

(** [state.agent.conversation_history], after a method of the agent
    ran. *)
Definition set_history {W} (h : list ConvMsg) (app : App W) : App W :=
  set_agent
    ((fun a => {| agent_gmail_service := agent_gmail_service a;
                  agent_mailbox := agent_mailbox a;
                  agent_history := h |}) <$> agent app) app.

(** The application before its start. *)
Definition initial {W} (w : W) : App W :=
  {| gmail_service := None; ollama_client := None; state_mailbox := None;
     agent := None; sessions := []; metrics := [];
     app_world := w; app_calls := [] |}.

Definition no_attribute (name : string) : string :=
  "'NoneType' object has no attribute '" +:+ name +:+ "'".

(** [result["error"]] when the key is there. *)
Definition error_of (result : PyVal) : option PyVal :=
  match result with VDict d => kw_get "error" d | _ => None end.

Section Endpoints.
Context {W : Type}.
Variable cap : Capabilities W.
Variable platform : Platform W.
Variable b64_utf8 : string -> Outcome string.
Variable mime_encode : string -> string -> PyVal -> Outcome string.
Variable OLLAMA_MODEL : string.
Variable json_loads : string -> Loaded.
Variable json_dumps : PyVal -> string.

(** A method of the session object [l], or of an agent working on it
    with the history [h], run on the application: the object is read,
    the method runs, the object is written back. *)
Definition on_session {A} (l : nat) (h : list ConvMsg)
    (m : M (State W) A) (app : App W)
  : Outcome A * list ConvMsg * App W :=
  let st := {| mailbox := default new_session (sessions app !! l);
               conversation_history := h;
               world := app_world app; calls := app_calls app |} in
  let (r, st') := m st in
  (r, conversation_history st',
   {| gmail_service := gmail_service app; ollama_client := ollama_client app;
      state_mailbox := state_mailbox app; agent := agent app;
      sessions := <[l := mailbox st']> (sessions app);
      metrics := metrics app;
      app_world := world st'; app_calls := calls st' |}).

(** A function of the platform, run on the application. *)
Definition call {A} (f : W -> A * W) (app : App W) : A * App W :=
  let (r, w) := f (app_world app) in (r, set_world w app).

(** A method called on [state.mailbox]. *)
Definition on_state_mailbox {A} (name : string) (m : M (State W) A)
  : Handler W A :=
  fun app =>
    match state_mailbox app with
    | None => (Error (no_attribute name), app)
    | Some l =>
        match on_session l [] m app with
        | (Return r, _, app') => (Ok r, app')
        | (Raise e, _, app') => (Error e, app')
        end
    end.

(** [ensure_gmail_service] *)
Definition ensure_gmail_service : Handler W unit :=
  fun app =>
    match gmail_service app with
    | Some _ => (Ok tt, app)
    | None =>
        let (valid, app1) := call (check_token_status platform) app in
        if negb valid then
          (HTTPException 401
             (VStr "Gmail not authenticated. Use /auth/url to get authorization URL."),
           app1)
        else
          match call (get_gmail_service platform false) app1 with
          | (Raise e, app2) => (HTTPException 503 (VStr e), app2)
          | (Return service, app2) =>
              let app3 := set_gmail_service (Some service) app2 in
              let app4 := new_state_mailbox app3 in
              match ollama_client app4 with
              | Some _ => (Ok tt, new_state_agent app4)
              | None => (Ok tt, app4)
              end
          end
    end.

(** [POST /emails/list] *)
Definition list_emails (request : ListEmailsRequest) : Handler W PyVal :=
  and_then ensure_gmail_service (fun _ =>
  and_then (on_state_mailbox "list_emails"
              (Mailbox.list_emails cap (VInt (max_results request))
                                   (VStr (query request)))) (fun result =>
  match error_of result with
  | Some e => http_exception 500 e
  | None =>
      fun app =>
        match result with
        | VDict d =>
            match kw_get "emails" d with
            | Some (VList emails) =>
                (Ok result, record (record_email_listed (length emails)) app)
            | Some (VStr s) =>
                (Ok result, record (record_email_listed (String.length s)) app)
            | Some (VDict d') =>
                (Ok result, record (record_email_listed (length d')) app)
            | Some v => (Error ("object of type '" +:+ type_name v
                                +:+ "' has no len()"), app)
            | None => (Ok result, app)
            end
        | _ => (Ok result, app)
        end
  end)).

(** [POST /emails/read] *)
Definition read_email (request : ReadEmailRequest) : Handler W PyVal :=
  and_then ensure_gmail_service (fun _ =>
  let tone :=
    if existsb (String.eqb (read_tone request)) valid_tones
    then read_tone request else "normal" in
  and_then (on_state_mailbox "read_email"
              (Mailbox.read_email cap b64_utf8 OLLAMA_MODEL
                 (VInt (read_email_number request)) (generate_draft request)
                 tone)) (fun result =>
  match error_of result with
  | Some e => http_exception 400 e
  | None =>
      fun app =>
        let app1 := record record_email_read app in
        let drafted :=
          generate_draft request
          && match result with
             | VDict d => bool_decide (is_Some (kw_get "draft_reply" d))
             | _ => false
             end in
        (Ok result,
         if drafted then record record_draft_generated app1 else app1)
  end)).

Definition invalid_tone (tone : string) : PyVal :=
  VStr ("Invalid tone '" +:+ tone +:+
        "'. Valid options: normal, friendly, professional").

(** [POST /emails/regenerate-draft] *)
Definition regenerate_draft (request : RegenerateDraftRequest)
  : Handler W PyVal :=
  and_then ensure_gmail_service (fun _ =>
  if negb (existsb (String.eqb (regenerate_tone request)) valid_tones) then
    http_exception 400 (invalid_tone (regenerate_tone request))
  else
    and_then (on_state_mailbox "regenerate_draft"
                (Mailbox.regenerate_draft cap OLLAMA_MODEL
                   (VInt (regenerate_email_number request))
                   (regenerate_tone request))) (fun result =>
    match error_of result with
    | Some e => http_exception 400 e
    | None => fun app => (Ok result, record record_draft_generated app)
    end)).

(** [POST /emails/reply] *)
Definition send_reply (request : SendReplyRequest) : Handler W PyVal :=
  and_then ensure_gmail_service (fun _ =>
  and_then (on_state_mailbox "send_reply"
              (Mailbox.send_reply cap mime_encode
                 (VInt (reply_email_number request))
                 (opt_str (reply_body request)))) (fun result =>
  match error_of result with
  | Some e => http_exception 400 e
  | None => fun app => (Ok result, record record_email_sent app)
  end)).

(** A method of [state.agent]. *)
Definition on_state_agent {A} (name : string) (m : M (State W) A)
  : Handler W (Outcome A * list ConvMsg) :=
  fun app =>
    match agent app with
    | None => (Error (no_attribute name), app)
    | Some a =>
        match on_session (agent_mailbox a) (agent_history a) m app with
        | (r, h, app') => (Ok (r, h), set_history h app')
        end
    end.

(** [POST /agent/chat] *)
Definition agent_chat (request : ChatRequest) : Handler W ChatResponse :=
  and_then ensure_gmail_service (fun _ =>
  and_then (fun app =>
              match agent app with
              | Some _ => (Ok tt, app)
              | None =>
                  match ollama_client app with
                  | None =>
                      (HTTPException 503
                         (VStr "Ollama client not available. Check Ollama configuration."),
                       app)
                  | Some _ => (Ok tt, new_state_agent app)
                  end
              end) (fun _ =>
  and_then (on_state_agent "chat"
              (Agent.chat cap b64_utf8 mime_encode OLLAMA_MODEL json_loads
                          json_dumps (message request))) (fun r app =>
  match r with
  | (Return text, h) =>
      (Ok {| response := text; conversation_length := length h |},
       record (record_agent_chat "success" (length h)) app)
  | (Raise e, _) =>
      (HTTPException 500 (VStr e), record (record_agent_chat "error" O) app)
  end))).

Definition reset_answer : PyVal :=
  VDict [ ("status", VStr "reset");
          ("message", VStr "Agent and mailbox session cleared") ].

(** [POST /agent/reset] *)
Definition agent_reset : Handler W PyVal :=
  and_then (fun app =>
              match agent app with
              | Some _ =>
                  and_then (on_state_agent "reset" Agent.reset)
                           (fun r => match r.1 with
                                     | Return _ => answer tt
                                     | Raise e => fun app' => (Error e, app')
                                     end) app
              | None => (Ok tt, app)
              end) (fun _ =>
  and_then (fun app =>
              match state_mailbox app with
              | Some _ => on_state_mailbox "clear" Mailbox.clear app
              | None => (Ok tt, app)
              end) (fun _ => answer reset_answer)).

(** [POST /auth/callback] *)
Definition auth_callback (request : AuthCallbackRequest) : Handler W PyVal :=
  fun app =>
    let failed (e : string) (app' : App W) : Result PyVal * App W :=
      (HTTPException 400 (VStr e),
       record (record_auth_operation "callback" "error") app') in
    match call (create_token_from_code platform (code request)
                  (redirect_uri request)) app with
    | (Raise e, app1) => failed e app1
    | (Return token_data, app1) =>
        match call (get_gmail_service platform true) app1 with
        | (Raise e, app2) => failed e app2
        | (Return service, app2) =>
            let app3 := set_gmail_service (Some service) app2 in
            let '((success, message), app4) :=
              call (test_gmail_connection platform (gmail_service app3)) app3 in
            let app5 :=
              match ollama_client app4 with
              | Some _ => new_state_agent (new_state_mailbox app4)
              | None => app4
              end in
            let app6 :=
              record (set_token_status true)
                (record (record_auth_operation "callback" "success") app5) in
            (Ok (VDict [ ("success", VBool true);
                         ("message", VStr "Token created successfully");
                         ("gmail_connected", VBool success);
                         ("gmail_status", VStr message);
                         ("token_expiry",
                          default VNone (kw_get "expiry" token_data)) ]),
             app6)
        end
    end.

(** [POST /auth/refresh] *)
Definition refresh_auth_token : Handler W PyVal :=
  fun app =>
    let (result, app1) := call (refresh_token platform) app in
    let success := from_option Ollama.py_bool false (kw_get "success" result) in
    if success then
      let app2 := record (record_auth_operation "refresh" "success") app1 in
      match call (get_gmail_service platform true) app2 with
      | (Return service, app3) =>
          (Ok (VDict result), set_gmail_service (Some service) app3)
      | (Raise _, app3) => (Ok (VDict result), app3)
      end
    else
      (HTTPException 400 (default VNone (kw_get "error" result)),
       record (record_auth_operation "refresh" "error") app1).

(** [DELETE /auth/token] *)
Definition delete_auth_token : Handler W PyVal :=
  fun app =>
    match call (delete_token platform) app with
    | (Raise e, app1) => (Error e, app1)
    | (Return result, app1) =>
        let app2 := set_agent None (set_gmail_service None app1) in
        (Ok result,
         record (set_token_status false)
           (record (record_auth_operation "delete" "success") app2))
    end.

(** The start of the application: [lifespan], up to [yield]. *)
Definition lifespan (app : App W) : App W :=
  let app1 :=
    match call (get_ollama_client platform) app with
    | (Raise _, app') => record (set_ollama_status false) app'
    | (Return client, app') =>
        let app'' := set_ollama_client (Some client) app' in
        match call (test_connection platform client) app'' with
        | (Return (success, _), a) => record (set_ollama_status success) a
        | (Raise _, a) => record (set_ollama_status false) a
        end
    end in
  let (valid, app2) := call (check_token_status platform) app1 in
  let app3 :=
    if valid then
      let a := record (set_token_status true) app2 in
      match call (get_gmail_service platform false) a with
      | (Return service, a') => set_gmail_service (Some service) a'
      | (Raise _, a') => a'
      end
    else record (set_token_status false) app2 in
  let app4 := new_state_mailbox app3 in
  match gmail_service app4, ollama_client app4 with
  | Some _, Some _ => new_state_agent app4
  | _, _ => app4
  end.

End Endpoints.
End App.

(** ** Vocabulary of the further properties *)

Module Behaviour.
Import PyStr Regex Draft Monad Mailbox Agent Spec.

(** *** Results *)

(** The value of a key of a result dictionary. *)
Definition entry (k : string) (r : PyVal) : option PyVal :=
  match r with VDict d => kw_get k d | _ => None end.

(** An error payload. *)
Definition is_error (r : PyVal) : Prop := exists e, r = error_dict e.

(** The payloads of [regenerate_draft] for a message that was not read,
    and of [send_reply] for a reply that was sent. *)
Definition not_cached (number : PyVal) : PyVal :=
  error_dict ("Email " +:+ py_str number +:+
              " not found in cache. Please read the email first.").

Definition success (to_addr subject : string) : PyVal :=
  VDict [ ("success", VBool true); ("sent_to", VStr to_addr);
          ("subject", VStr subject) ].

(** The summaries of a listing: message [k] of the provider's answer,
    with the metadata fetched for it, under the number [i + k]. *)
Fixpoint summaries (i : Z) (refs : list MsgRef) (ds : list Message)
  : list PyVal :=
  match refs, ds with
  | r :: refs', d :: ds' => summary i r d :: summaries (i + 1) refs' ds'
  | _, _ => []
  end.

(** *** Steps *)

(** The state after invocations logged as [evs] that moved the world to
    [w]. *)
Definition logged {W} (st : State W) (w : W) (evs : list Call) : State W :=
  {| mailbox := mailbox st; conversation_history := conversation_history st;
     world := w; calls := calls st ++ evs |}.

(** A step that may renumber the handles and call the capabilities, and
    leaves the pending draft, the cache and the history alone. *)
Definition keeps_drafts {W} (st st' : State W) : Prop :=
  last_draft (mailbox st') = last_draft (mailbox st) /\
  last_number (mailbox st') = last_number (mailbox st) /\
  email_cache (mailbox st') = email_cache (mailbox st) /\
  conversation_history st' = conversation_history st.

(** The log grows by entries of which at most [n] satisfy [p]. *)
Definition budget {W} (p : Call -> bool) (n : nat) (st st' : State W) : Prop :=
  exists evs, calls st' = calls st ++ evs /\
              (length (filter (fun c => p c = true) evs) <= n)%nat.

(** The history and the log only grow. *)
Definition grows {W} (st st' : State W) : Prop :=
  (exists hs, conversation_history st' = conversation_history st ++ hs) /\
  (exists evs, calls st' = calls st ++ evs).

(** *** Requests to the provider *)

(** The metadata request of a listing, for one message. *)
Definition metadata_request (r : MsgRef) : Call :=
  CallGet (ref_id r) (Metadata list_headers).

(** A message handed to the Mail Capability for sending. *)
Definition is_send_call (c : Call) : bool :=
  match c with CallSend _ => true | _ => false end.

(** A tool call that asks to send a reply. *)
Definition asks_to_send (tc : ToolCall) : bool :=
  String.eqb (fn_name tc) "send_email_reply".

(** The number of messages a tool may send in one call. *)
Definition sends_of (t : Tool) : nat :=
  match t with ToolSend => 1%nat | _ => 0%nat end.

(** *** Texts *)

(** A text that starts with a character that is no blank. *)
Definition starts_with_text (s : string) : Prop :=
  match s with
  | EmptyString => False
  | String c _ => is_space c = false
  end.

(** The texts of a list, one after the other. *)
Definition join (ss : list string) : string :=
  foldr String.app EmptyString ss.

(** *** The client of the model *)

(** What a line of a streamed answer adds to the content, when the line
    is blank, or is no JSON, or is a JSON object whose message, if it has
    one, is a JSON object whose content, if it has one, is text. *)
Definition line_content (json_loads : string -> Loaded)
    (line : string) : option string :=
  if truthy (strip line) then
    match json_loads line with
    | JSONDecodeError => Some EmptyString
    | LoadsError _ => None
    | Parsed (VDict d) =>
        match kw_get "message" d with
        | None => Some EmptyString
        | Some (VDict m) =>
            match kw_get "content" m with
            | None => Some EmptyString
            | Some (VStr s) => Some s
            | Some _ => None
            end
        | Some _ => None
        end
    | Parsed _ => None
    end
  else Some EmptyString.

(** The request that [generate_text] posts: the prompt as the one
    message, of the user; streaming on; the temperature as the one
    option; no tool. *)
Definition generation_payload (model prompt : string) (temperature : Q)
  : Ollama.ChatPayload :=
  {| Ollama.payload_model := model;
     Ollama.payload_messages := [MsgUser prompt];
     Ollama.payload_stream := true;
     Ollama.payload_tools := None;
     Ollama.payload_options := Some [("temperature", temperature)] |}.

(** The exception that [chat] raises for a fault of the request, and for
    an answer with a status other than 200. *)
Definition fault_message (host : string) (f : Ollama.HttpFault) : string :=
  match f with
  | Ollama.ConnectError e =>
      "Failed to connect to Ollama at " +:+ host +:+ ": " +:+ e
  | Ollama.TimeoutException e => "Ollama request timed out: " +:+ e
  | Ollama.OtherError e => e
  end.

Definition status_message (response : Ollama.Response) : string :=
  "Ollama API error " +:+ pretty (Ollama.status_code response) +:+ ": "
  +:+ take 500 (Ollama.text response).

End Behaviour.

(** ** Vocabulary of the properties of the application *)

Module AppSpec.
Import App.

(** [state] refers to a session, a session that exists; and when there
    is an agent, the client of the model is there, and the agent works on
    the session that [state] refers to. *)
Definition shared_session {W} (app : App W) : Prop :=
  (exists l, state_mailbox app = Some l /\ (l < length (sessions app))%nat) /\
  forall a, agent app = Some a ->
    is_Some (ollama_client app) /\ state_mailbox app = Some (agent_mailbox a).

(** A step that leaves the attributes of [state] and the number of
    sessions as they are. *)
Definition same_objects {W} (app app' : App W) : Prop :=
  gmail_service app' = gmail_service app /\
  ollama_client app' = ollama_client app /\
  state_mailbox app' = state_mailbox app /\
  agent_mailbox <$> agent app' = agent_mailbox <$> agent app /\
  length (sessions app') = length (sessions app).

End AppSpec.

(** ** Further sessions, providers and answers used in the examples *)

Module Scenario.
Import PyStr Agent Double Example.

(** A provider that now lists the third message first and the first one
    second. *)
Definition reordered : Capabilities nat :=
  capabilities (Return [ {| ref_id := "m3" |}; {| ref_id := "m1" |} ]) store3
    (Return "Sure, see you then!") [].

(** A chunk of a streamed answer, and the line that carries it. *)
Definition chunk (content : string) : PyVal :=
  VDict [ ("message", VDict [ ("role", VStr "assistant");
                              ("content", VStr content) ]);
          ("done", VBool false) ].

Definition chunk_line (content : string) : string :=
  "{" +:+ dq +:+ "message" +:+ dq +:+ ":{" +:+ dq +:+ "role" +:+ dq +:+ ":"
  +:+ dq +:+ "assistant" +:+ dq +:+ "," +:+ dq +:+ "content" +:+ dq +:+ ":"
  +:+ dq +:+ content +:+ dq +:+ "}," +:+ dq +:+ "done" +:+ dq +:+ ":false}".

(** A parser that knows the chunks used in the examples. *)
Definition spoken : list string :=
  [ "<think>One word."; "</think>"; "Hel"; "lo" ].

Definition json_loads (s : string) : Loaded :=
  match List.find (fun c => String.eqb s (chunk_line c)) spoken with
  | Some c => Parsed (chunk c)
  | None => JSONDecodeError
  end.

Definition py_error (op : string) (v : PyVal) : string :=
  "unsupported operand for " +:+ op +:+ ": " +:+ type_name v.

(** A network that gives every request the same answer, and counts the
    requests. *)
Definition answering (r : Ollama.HttpFault + Ollama.Response)
  : Ollama.HttpClient -> string -> Ollama.ChatPayload -> nat
    -> (Ollama.HttpFault + Ollama.Response) * nat :=
  fun _ _ _ w => (r, S w).

(** A model that thinks aloud and then says hello, streamed in chunks
    with a line in between that is no JSON. *)
Definition hello_stream : Ollama.Response :=
  {| Ollama.status_code := 200;
     Ollama.text :=
       chunk_line "<think>One word." +:+ nl +:+ chunk_line "</think>" +:+ nl
       +:+ chunk_line "Hel" +:+ nl +:+ ": keep-alive" +:+ nl
       +:+ chunk_line "lo" +:+ nl;
     Ollama.json := Raise "Extra data: line 2 column 1" |}.

(** A client made for a host given with a trailing slash, before its
    first request. *)
Definition fresh_client : Ollama.Client nat :=
  {| Ollama.self := Ollama.__init__ "https://api.ollama.com/" "secret";
     Ollama.net := O |}.

Definition first_use : Ollama.HttpClient :=
  {| Ollama.client_headers :=
       [ ("Content-Type", "application/json");
         ("Authorization", "Bearer secret") ] |}.

(** A platform with a valid token, whose services answer. *)
Definition service : App.Resource := {| App.resource_id := 1 |}.

Definition platform : App.Platform nat :=
  {| App.check_token_status := fun w => (true, w);
     App.get_gmail_service := fun _ w => (Return service, w);
     App.create_token_from_code := fun _ _ w =>
       (Return [("expiry", VStr "2026-01-01T00:00:00")], w);
     App.test_gmail_connection := fun _ w =>
       ((true, "Connected as ayaan@example.com"), w);
     App.refresh_token := fun w =>
       ([("success", VBool true);
         ("message", VStr "Token refreshed successfully")], w);
     App.delete_token := fun w =>
       (Return (VDict [("success", VBool true);
                       ("message", VStr "token.json deleted")]), w);
     App.get_ollama_client := fun w => (Return App.ollama_client_object, w);
     App.test_connection := fun _ w => (Return (true, "Hello"), w) |}.

(** The application at work, its one session being [s]. *)
Definition running (s : MailboxSession) : App.App nat :=
  {| App.gmail_service := Some service;
     App.ollama_client := Some App.ollama_client_object;
     App.state_mailbox := Some O;
     App.agent := Some {| App.agent_gmail_service := Some service;
                          App.agent_mailbox := O;
                          App.agent_history := [] |};
     App.sessions := [s]; App.metrics := [];
     App.app_world := O; App.app_calls := [] |}.

End Scenario.

(** * Properties *)

(** ** Running monadic code *)

Section MonadLaws.
Import Monad Spec.
Context {St : Type}.

Lemma bind_return {A B} (m : M St A) (f : A -> M St B) st a st' :
  m st = (Return a, st') -> bind m f st = f a st'.
Proof. intros H. unfold bind. rewrite H. reflexivity. Qed.

Lemma bind_raise {A B} (m : M St A) (f : A -> M St B) st e st' :
  m st = (Raise e, st') -> bind m f st = (Raise e, st').
Proof. intros H. unfold bind. rewrite H. reflexivity. Qed.

Lemma total_ret {A} (a : A) : total (@ret St A a).
Proof. done. Qed.

Lemma total_bind {A B} (m : M St A) (f : A -> M St B) :
  total m -> (forall a, total (f a)) -> total (bind m f).
Proof.
  intros Hm Hf st. unfold bind. specialize (Hm st).
  destruct (m st) as [[a|e] st1]; simpl in *; [apply Hf|done].
Qed.

(** A handler that never raises makes the whole [try] statement total. *)
Lemma total_try {A} (m : M St A) h :
  (forall e, total (h e)) -> total (try_except m h).
Proof.
  intros Hh st. unfold try_except.
  destruct (m st) as [[a|e] st1]; simpl in *; [done|apply Hh].
Qed.

Context (R : relation St) `{!PreOrder R}.

Lemma always_ret {A} (a : A) : always R (ret a).
Proof. intros st. reflexivity. Qed.

Lemma always_raise {A} e : always R (@raise St A e).
Proof. intros st. reflexivity. Qed.

Lemma always_lift {A} (o : Outcome A) : always R (lift o).
Proof. intros st. reflexivity. Qed.

Lemma always_modify f : (forall st, R st (f st)) -> always R (modify f).
Proof. intros H st. apply H. Qed.

Lemma always_bind {A B} (m : M St A) (f : A -> M St B) :
  always R m -> (forall a, always R (f a)) -> always R (bind m f).
Proof.
  intros Hm Hf st. unfold bind. specialize (Hm st).
  destruct (m st) as [[a|e] st1]; simpl in *; [|done].
  etrans; [exact Hm|apply Hf].
Qed.

(** The state reached when the body raises is the one the handler
    starts from. *)
Lemma always_try {A} (m : M St A) h :
  always R m -> (forall e, always R (h e)) -> always R (try_except m h).
Proof.
  intros Hm Hh st. unfold try_except. specialize (Hm st).
  destruct (m st) as [[a|e] st1]; simpl in *; [done|].
  etrans; [exact Hm|apply Hh].
Qed.
End MonadLaws.

(** One step through the syntax of a method. *)
Ltac always_step :=
  lazymatch goal with
  | |- Spec.always _ (Monad.bind _ _) =>
      apply always_bind; [tc_solve|try done|intros ?]
  | |- Spec.always _ (Monad.try_except _ _) =>
      apply always_try; [tc_solve|try done|intros ?]
  | |- Spec.always _ (Monad.ret _) => apply always_ret; tc_solve
  | |- Spec.always _ (Monad.raise _) => apply always_raise; tc_solve
  | |- Spec.always _ (Monad.lift _) => apply always_lift; tc_solve
  | |- Spec.always _ (match ?x with _ => _ end) => destruct x
  end.

(** ** Strings and patterns *)

Section Strings.
Import PyStr.

Lemma app_empty_r (s : string) : s +:+ EmptyString = s.
Proof.
  induction s as [|c s IH]; [done|].
  change (String c (s +:+ EmptyString) = String c s). by f_equal.
Qed.

Lemma app_cons c (s t : string) : String c s +:+ t = String c (s +:+ t).
Proof. done. Qed.

Lemma app_assoc' (a b c : string) : (a +:+ b) +:+ c = a +:+ b +:+ c.
Proof. induction a as [|x a IH]; [done|]. rewrite !app_cons. by rewrite IH. Qed.

Lemma length_app' (a b : string) :
  String.length (a +:+ b) = (String.length a + String.length b)%nat.
Proof. induction a as [|c a IH]; [done|]. rewrite app_cons. simpl. lia. Qed.

Lemma truthy_app_r (s t : string) : truthy t = true -> truthy (s +:+ t) = true.
Proof. destruct s; done. Qed.

Lemma truthy_app_l (s t : string) : truthy s = true -> truthy (s +:+ t) = true.
Proof. destruct s; done. Qed.

Lemma lstrip_app (s t : string) :
  truthy (lstrip s) = true -> lstrip (s +:+ t) = lstrip s +:+ t.
Proof.
  induction s as [|c s IH]; [done|]. rewrite app_cons. simpl.
  destruct (is_space c); [exact IH|done].
Qed.

Lemma rstrip_app (s t : string) :
  truthy (rstrip t) = true -> rstrip (s +:+ t) = s +:+ rstrip t.
Proof.
  intros Ht. induction s as [|c s IH]; [done|].
  rewrite !app_cons. simpl. rewrite IH.
  destruct (s +:+ rstrip t) eqn:E; [|done].
  apply (truthy_app_r s) in Ht. by rewrite E in Ht.
Qed.

(** What [lstrip] leaves starts with a character that is no space. *)
Lemma lstrip_head (s : string) :
  match lstrip s with
  | EmptyString => True
  | String c _ => is_space c = false
  end.
Proof.
  induction s as [|c s IH]; [done|]. simpl.
  destruct (is_space c) eqn:E; [exact IH|done].
Qed.

Lemma lstrip_idem (s : string) : lstrip (lstrip s) = lstrip s.
Proof.
  pose proof (lstrip_head s) as H. destruct (lstrip s) as [|c r]; [done|].
  simpl. by rewrite H.
Qed.

Lemma rstrip_idem (s : string) : rstrip (rstrip s) = rstrip s.
Proof.
  induction s as [|c s IH]; [done|]. simpl.
  destruct (rstrip s) as [|c' r] eqn:E.
  - destruct (is_space c) eqn:Hc; [done|]. simpl. by rewrite Hc.
  - simpl in *. by rewrite IH.
Qed.

Lemma rstrip_head (s : string) c r :
  s = String c r -> is_space c = false ->
  exists r', rstrip s = String c r'.
Proof.
  intros -> Hc. simpl. destruct (rstrip r); rewrite ?Hc; eauto.
Qed.

Lemma strip_idem (s : string) : strip (strip s) = strip s.
Proof.
  unfold strip. pose proof (lstrip_head s) as H.
  destruct (lstrip s) as [|c r] eqn:E; [done|].
  destruct (rstrip_head _ c r eq_refl H) as [r' Hr]. rewrite Hr.
  assert (lstrip (String c r') = String c r') as -> by (simpl; by rewrite H).
  rewrite <- Hr. apply rstrip_idem.
Qed.

Lemma strip_lstrip (s : string) : strip (lstrip s) = strip s.
Proof. unfold strip. by rewrite lstrip_idem. Qed.

Lemma contains_app x (s t : string) :
  contains_char x (s +:+ t) = contains_char x s || contains_char x t.
Proof.
  induction s as [|c s IH]; [done|]. rewrite app_cons. simpl.
  by rewrite IH, orb_assoc.
Qed.

Lemma contains_lstrip x (s : string) :
  contains_char x s = false -> contains_char x (lstrip s) = false.
Proof.
  induction s as [|c s IH]; [done|]. simpl.
  intros H. apply orb_false_iff in H as [H1 H2].
  destruct (is_space c); [by apply IH|]. simpl. by rewrite H1, H2.
Qed.

Lemma contains_rstrip x (s : string) :
  contains_char x s = false -> contains_char x (rstrip s) = false.
Proof.
  induction s as [|c s IH]; [done|]. simpl.
  intros H. apply orb_false_iff in H as [H1 H2]. specialize (IH H2).
  destruct (rstrip s).
  - destruct (is_space c); [done|]. simpl. by rewrite H1.
  - simpl in *. by rewrite H1, IH.
Qed.

Lemma contains_strip x (s : string) :
  contains_char x s = false -> contains_char x (strip s) = false.
Proof. intros H. by apply contains_rstrip, contains_lstrip. Qed.
End Strings.

Section Patterns.
Import PyStr Regex Draft Spec.

Lemma ci_eqb_nl c : c <> "010"%char -> ci_eqb "010" c = false.
Proof.
  intros Hc. unfold ci_eqb. apply Ascii.eqb_neq. intros E. apply Hc.
  revert E. clear Hc.
  destruct c as [[] [] [] [] [] [] [] []]; vm_compute; congruence.
Qed.

Lemma seq_nl_at_line_break r : at_line_break (Seq (Lit nl) r).
Proof. intros c s Hc. unfold match_at. simpl. by rewrite ci_eqb_nl. Qed.

Lemma closing_patterns_at_line_break : Forall at_line_break closing_patterns.
Proof. repeat constructor; apply seq_nl_at_line_break. Qed.

(** The scan copies a prefix without line break. *)
Lemma sub_go_prefix p (s u : string) :
  at_line_break p -> contains_char "010" s = false ->
  sub_go p O (s +:+ u) = s +:+ sub_go p O u.
Proof.
  intros Hp. induction s as [|c s IH]; [done|]. simpl.
  intros H. apply orb_false_iff in H as [Hc Hs].
  apply Ascii.eqb_neq in Hc.
  rewrite !app_cons. simpl. rewrite (Hp c _ Hc).
  by rewrite IH.
Qed.

Lemma sub_single_line p (s : string) :
  at_line_break p -> contains_char "010" s = false -> sub p s = s.
Proof.
  intros Hp Hs. unfold sub. rewrite <- (app_empty_r s) at 1.
  rewrite sub_go_prefix by done. simpl. apply app_empty_r.
Qed.

Lemma fold_single_line ps (s : string) :
  Forall at_line_break ps ->
  contains_char "010" s = false ->
  fold_left (fun d p => strip (sub p d)) ps (strip s) = strip s.
Proof.
  intros Hall Hs. induction Hall as [|p ps Hp _ IH]; [done|]. simpl.
  rewrite sub_single_line by (try done; by apply contains_strip).
  rewrite strip_idem. exact IH.
Qed.

Lemma strip_closings_single_line (s : string) :
  contains_char "010" s = false -> strip_closings (strip s) = strip s.
Proof.
  intros Hs. apply fold_single_line; [|done].
  apply closing_patterns_at_line_break.
Qed.

Lemma strip_fallback subject :
  strip (fallback_sentence subject) = fallback_sentence subject.
Proof.
  unfold fallback_sentence, strip.
  rewrite lstrip_app by done.
  change (lstrip "Thank you for your email regarding '")
    with "Thank you for your email regarding '".
  assert (Hin : rstrip (subject +:+ "'. I will review and respond shortly.")
                = subject +:+ "'. I will review and respond shortly.")
    by (by rewrite rstrip_app).
  rewrite rstrip_app; rewrite Hin; [done|]. by apply truthy_app_r.
Qed.

Lemma fallback_single_line subject :
  contains_char "010" subject = false ->
  contains_char "010" (fallback_sentence subject) = false.
Proof.
  intros H. unfold fallback_sentence. rewrite !contains_app, H. done.
Qed.

(** A blank answer of the model and a subject of one line: the cleaned
    text is the fallback sentence. *)
Lemma clean_draft_blank subject out :
  truthy (strip out) = false ->
  contains_char "010" subject = false ->
  clean_draft subject out = fallback_sentence subject.
Proof.
  intros Hb Hs. unfold clean_draft. rewrite Hb. simpl.
  rewrite orb_true_r.
  rewrite <- (strip_fallback subject) at 1.
  rewrite strip_idem.
  rewrite strip_closings_single_line by by apply fallback_single_line.
  by rewrite strip_fallback.
Qed.

Lemma closing_tail_facts tail :
  tail ∈ closing_tails ->
  rstrip tail = tail /\ truthy tail = true /\
  sub_go (hd Eos closing_patterns) O tail = EmptyString.
Proof.
  intros H. unfold closing_tails in H. vm_compute in H.
  repeat (apply elem_of_cons in H as [->|H]; [by vm_compute|]).
  by apply elem_of_nil in H.
Qed.

(** One line of text followed by a closing of [closing_tails]: the
    closing goes, the line stays. *)
Lemma clean_draft_closing subject text tail :
  contains_char "010" text = false ->
  truthy (strip text) = true ->
  tail ∈ closing_tails ->
  clean_draft subject (text +:+ tail) = strip text.
Proof.
  intros Hline Htext Htail.
  destruct (closing_tail_facts tail Htail) as (Hr & Ht & Hsub).
  assert (Hl : truthy (lstrip text) = true).
  { unfold strip in Htext. by destruct (lstrip text). }
  assert (Hstrip : strip (text +:+ tail) = lstrip text +:+ tail).
  { unfold strip. rewrite lstrip_app by done.
    rewrite rstrip_app by by rewrite Hr. by rewrite Hr. }
  unfold clean_draft.
  rewrite (truthy_app_r text tail Ht), Hstrip, (truthy_app_l _ tail Hl).
  cbv [negb orb].
  assert (Hsc : forall x, strip_closings x =
    fold_left (fun d p => strip (sub p d)) (tl closing_patterns)
              (strip (sub (hd Eos closing_patterns) x))) by reflexivity.
  pose proof closing_patterns_at_line_break as Hall.
  rewrite Hsc, Hstrip. unfold sub at 2.
  rewrite sub_go_prefix; [|by inversion Hall|by apply contains_lstrip].
  rewrite Hsub, app_empty_r, strip_lstrip.
  rewrite fold_single_line; [done| |done]. by inversion Hall.
Qed.

(** *** The matcher consumes a prefix *)

Lemma lit_inv l : forall s (k : cont) x,
  lit l s k = Some x -> exists m s', s = m +:+ s' /\ k s' = Some x.
Proof.
  induction l as [|a l IH]; intros s k x; simpl.
  - intros H. by exists EmptyString, s.
  - destruct s as [|c s]; [done|]. destruct (ci_eqb a c); [|done].
    intros H. destruct (IH _ _ _ H) as (m & s' & -> & Hk).
    by exists (String c m), s'.
Qed.

Lemma star_inv p : forall s (k : cont) x,
  star p s k = Some x -> exists m s', s = m +:+ s' /\ k s' = Some x.
Proof.
  induction s as [|c s IH]; intros k x; simpl.
  - intros H. by exists EmptyString, EmptyString.
  - destruct (p c); [|intros H; by exists EmptyString, (String c s)].
    destruct (star p s k) as [r|] eqn:E.
    + intros [= <-]. destruct (IH _ _ E) as (m & s' & -> & Hk).
      by exists (String c m), s'.
    + intros H. by exists EmptyString, (String c s).
Qed.

Lemma run_inv r : forall s (k : cont) x,
  run r s k = Some x -> exists m s', s = m +:+ s' /\ k s' = Some x.
Proof.
  induction r as [l|p|p|r IH|r1 IH1 r2 IH2|r1 IH1 r2 IH2|]; intros s k x; simpl.
  - apply lit_inv.
  - destruct s as [|c s]; [done|]. destruct (p c); [|done].
    intros H. by exists (String c EmptyString), s.
  - apply star_inv.
  - destruct (run r s k) as [y|] eqn:E.
    + intros [= <-]. by apply IH.
    + intros H. by exists EmptyString, s.
  - destruct (run r1 s k) as [y|] eqn:E.
    + intros [= <-]. by apply IH1.
    + by apply IH2.
  - intros H. destruct (IH1 _ _ _ H) as (m1 & s1 & -> & H1).
    destruct (IH2 _ _ _ H1) as (m2 & s2 & -> & H2).
    exists (m1 +:+ m2), s2. by rewrite app_assoc'.
  - destruct (at_end s); [|done]. intros H. by exists EmptyString, s.
Qed.

Lemma run_eos r : ends_with_eos r = true -> forall s (k : cont) x,
  run r s k = Some x ->
  exists m s', s = m +:+ s' /\ at_end s' = true /\ k s' = Some x.
Proof.
  induction r as [l|p|p|r IH|r1 IH1 r2 IH2|r1 IH1 r2 IH2|]; simpl; try done.
  - intros He s k x H. destruct (run_inv _ _ _ _ H) as (m1 & s1 & -> & H1).
    destruct (IH2 He _ _ _ H1) as (m2 & s2 & -> & Ha & H2).
    exists (m1 +:+ m2), s2. by rewrite app_assoc'.
  - intros _ s k x. destruct (at_end s) eqn:E; [|done].
    intros H. by exists EmptyString, s.
Qed.

Lemma match_at_inv p s n :
  ends_with_eos p = true -> match_at p s = Some n ->
  exists m x, s = m +:+ x /\ at_end x = true /\ n = String.length m.
Proof.
  intros He. unfold match_at. destruct (run p s Some) as [rest|] eqn:E; [|done].
  intros [= <-]. destruct (run_eos p He _ _ _ E) as (m & x & -> & Ha & [= <-]).
  exists m, x. split; [done|]. split; [done|]. rewrite length_app'. lia.
Qed.

Lemma at_end_cases x : at_end x = true -> x = EmptyString \/ x = nl.
Proof.
  destruct x as [|c [|]]; simpl; [by left| |done].
  intros H. apply Ascii.eqb_eq in H as ->. by right.
Qed.

(** *** A substitution cuts a tail *)

Lemma sub_go_skip p m : forall t,
  sub_go p (String.length m) (m +:+ t) = sub_go p O t.
Proof.
  induction m as [|c m IH]; intros t; [done|].
  rewrite app_cons. simpl. apply IH.
Qed.

Lemma sub_cuts p :
  ends_with_eos p = true -> match_at p nl = None ->
  forall d, exists u v,
    d = u +:+ v /\ (sub_go p O d = u \/ sub_go p O d = u +:+ nl).
Proof.
  intros He Hnl. induction d as [|c d IH].
  - exists EmptyString, EmptyString. split; [done|by left].
  - assert (Hcopy : exists u v, String c d = u +:+ v /\
              (String c (sub_go p O d) = u \/
               String c (sub_go p O d) = u +:+ nl)).
    { destruct IH as (u & v & -> & [Hs|Hs]); exists (String c u), v;
        rewrite Hs; (split; [done|]); [by left|by right]. }
    simpl. destruct (match_at p (String c d)) as [[|n]|] eqn:E; try exact Hcopy.
    destruct (match_at_inv _ _ _ He E) as (m & x & Hm & Ha & Hn).
    destruct m as [|c' m]; [done|]. rewrite app_cons in Hm.
    injection Hm as <- ->. injection Hn as ->.
    rewrite sub_go_skip. exists EmptyString, (String c (m +:+ x)).
    split; [done|].
    destruct (at_end_cases x Ha) as [->| ->]; [by left|right].
    change (sub_go p 0 nl)
      with (match match_at p nl with
            | Some (S n) => sub_go p n EmptyString
            | _ => String "010" (sub_go p O EmptyString)
            end).
    by rewrite Hnl.
Qed.

Lemma rstrip_prefix (s : string) : exists w, s = rstrip s +:+ w.
Proof.
  induction s as [|c s [w IH]]; [by exists EmptyString|]. simpl.
  destruct (rstrip s) as [|c' r] eqn:E.
  - destruct (is_space c).
    + by exists (String c s).
    + exists s. done.
  - exists w. rewrite app_cons. by rewrite <- IH.
Qed.

Lemma rstrip_blank_r (s t : string) :
  rstrip t = EmptyString -> rstrip (s +:+ t) = rstrip s.
Proof.
  intros Ht. induction s as [|c s IH]; [done|].
  rewrite app_cons. simpl. by rewrite IH.
Qed.

Lemma strip_head (s : string) :
  strip s = EmptyString \/
  exists c r, strip s = String c r /\ is_space c = false.
Proof.
  unfold strip. pose proof (lstrip_head s) as H.
  destruct (lstrip s) as [|c r]; [by left|]. right.
  destruct (rstrip_head _ c r eq_refl H) as [r' ->]. by exists c, r'.
Qed.

Lemma strip_text c (r : string) :
  is_space c = false -> strip (String c r) = rstrip (String c r).
Proof. intros Hc. unfold strip. simpl lstrip. by rewrite Hc. Qed.

(** After a substitution and a strip, a stripped text is left with one
    of its prefixes. *)
Lemma strip_sub_prefix p (d : string) :
  ends_with_eos p = true -> match_at p nl = None ->
  exists cut, strip d = strip (sub p (strip d)) +:+ cut.
Proof.
  intros He Hnl. destruct (strip_head d) as [->|(c & r & -> & Hc)].
  { by exists EmptyString. }
  unfold sub.
  destruct (sub_cuts p He Hnl (String c r)) as (u & v & Huv & Hs).
  destruct u as [|c' u].
  - exists (String c r). by destruct Hs as [-> | ->].
  - rewrite app_cons in Huv. injection Huv as <- ->.
    destruct (rstrip_prefix (String c u)) as [w Hw].
    exists (w +:+ v).
    assert (Hst : strip (sub_go p 0 (String c (u +:+ v)))
                  = rstrip (String c u)).
    { destruct Hs as [-> | ->].
      - by apply strip_text.
      - rewrite app_cons, strip_text by done. rewrite <- app_cons.
        by apply rstrip_blank_r. }
    rewrite Hst, <- app_assoc', <- Hw. by rewrite app_cons.
Qed.

Lemma fold_prefix ps : Forall cuts_tail ps -> forall d : string,
  exists cut,
    strip d = fold_left (fun d p => strip (sub p d)) ps (strip d) +:+ cut.
Proof.
  induction 1 as [|p ps [He Hnl] _ IH]; intros d.
  - exists EmptyString. simpl. by rewrite app_empty_r.
  - simpl. destruct (strip_sub_prefix p d He Hnl) as [c1 H1].
    destruct (IH (sub p (strip d))) as [c2 H2].
    exists (c2 +:+ c1). rewrite H1 at 1. rewrite H2 at 1.
    by rewrite app_assoc'.
Qed.

Lemma closing_patterns_cut_tail : Forall cuts_tail closing_patterns.
Proof. repeat constructor. Qed.

(** *** The first line stays *)

Lemma strip_after_text f (z : string) :
  lstrip f = f -> rstrip f = f -> truthy f = true ->
  exists z', strip (f +:+ z) = f +:+ z'.
Proof.
  intros Hl Hr Ht. unfold strip.
  rewrite lstrip_app by by rewrite Hl. rewrite Hl.
  destruct (rstrip z) as [|c r] eqn:E.
  - exists EmptyString. rewrite rstrip_blank_r by done.
    by rewrite Hr, app_empty_r.
  - exists (String c r). rewrite <- E. apply rstrip_app. by rewrite E.
Qed.

Lemma fold_first_line ps f : Forall at_line_break ps ->
  contains_char "010" f = false ->
  lstrip f = f -> rstrip f = f -> truthy f = true ->
  forall more, exists more',
    fold_left (fun d p => strip (sub p d)) ps (f +:+ more) = f +:+ more'.
Proof.
  intros Hall Hline Hl Hr Ht.
  induction Hall as [|p ps Hp _ IH]; intros more; [by exists more|].
  simpl. unfold sub. rewrite sub_go_prefix by done.
  destruct (strip_after_text f (sub_go p 0 more) Hl Hr Ht) as [z' ->].
  apply IH.
Qed.

(** *** No match, no cut *)

Lemma sub_no_match p : forall d : string,
  (forall u v, d = u +:+ v -> match_at p v = None) -> sub p d = d.
Proof.
  unfold sub. induction d as [|c d IH]; [done|]. intros H. simpl.
  rewrite (H EmptyString (String c d) eq_refl). f_equal. apply IH.
  intros u v ->. by apply (H (String c u) v).
Qed.

Lemma fold_no_match ps (d : string) :
  Forall (fun p => ~ matches_in p (strip d)) ps ->
  fold_left (fun d p => strip (sub p d)) ps (strip d) = strip d.
Proof.
  induction 1 as [|p ps Hp _ IH]; [done|]. simpl.
  rewrite sub_no_match, strip_idem; [exact IH|].
  intros u v Huv. destruct (match_at p v) eqn:E; [|done].
  exfalso. apply Hp. exists u, v. split; [done|]. by rewrite E.
Qed.

(** *** After one line of text *)

Lemma closing_step p (L y : string) :
  at_line_break p -> contains_char "010" L = false ->
  lstrip L = L -> truthy L = true ->
  strip (sub p (rstrip (L +:+ y)))
  = rstrip (L +:+ sub_go p O (rstrip y)).
Proof.
  intros Hp Hline Hl Ht.
  assert (Hs : forall z, strip (L +:+ z) = rstrip (L +:+ z)).
  { intros z. unfold strip. rewrite lstrip_app by by rewrite Hl.
    by rewrite Hl. }
  destruct (rstrip y) as [|c r] eqn:E.
  - rewrite rstrip_blank_r by done. simpl. rewrite app_empty_r.
    rewrite sub_single_line by (try done; by apply contains_rstrip).
    pose proof (lstrip_head L) as Hc. rewrite Hl in Hc.
    destruct L as [|c r]; [done|].
    destruct (rstrip_head _ c r eq_refl Hc) as [r' Hr']. rewrite Hr'.
    rewrite strip_text by done. rewrite <- Hr'. apply rstrip_idem.
  - rewrite rstrip_app by by rewrite E. rewrite E.
    unfold sub. rewrite sub_go_prefix by done. apply Hs.
Qed.

Lemma fold_tail ps (L : string) : Forall at_line_break ps ->
  contains_char "010" L = false -> lstrip L = L -> truthy L = true ->
  forall y,
    fold_left (fun d p => strip (sub p d)) ps (rstrip (L +:+ y))
    = rstrip (L +:+ fold_left (fun y p => sub_go p O (rstrip y)) ps y).
Proof.
  intros Hall Hline Hl Ht.
  induction Hall as [|p ps Hp _ IH]; intros y; [done|]. simpl.
  rewrite closing_step by done. apply IH.
Qed.

(** The clean-up of one line of text followed by more: the line is of
    no account to the patterns. *)
Lemma clean_tail subject (line y : string) :
  contains_char "010" line = false -> truthy (strip line) = true ->
  clean_draft subject (line +:+ y)
  = rstrip (lstrip line +:+ tail_clean y).
Proof.
  intros Hline Htext.
  assert (Hl : truthy (lstrip line) = true).
  { unfold strip in Htext. by destruct (lstrip line). }
  unfold clean_draft.
  assert (Hout : truthy (line +:+ y) = true).
  { apply truthy_app_l. by destruct line. }
  assert (Hstrip : strip (line +:+ y) = rstrip (lstrip line +:+ y)).
  { unfold strip. by rewrite lstrip_app. }
  assert (Hst : truthy (strip (line +:+ y)) = true).
  { rewrite Hstrip. destruct (lstrip line) as [|c r] eqn:E; [done|].
    pose proof (lstrip_head line) as Hc. rewrite E in Hc.
    rewrite app_cons.
    by destruct (rstrip_head _ c (r +:+ y) eq_refl Hc) as [r' ->]. }
  rewrite Hout, Hst. cbv [negb orb]. rewrite Hstrip.
  unfold strip_closings, tail_clean.
  apply fold_tail; [apply closing_patterns_at_line_break| |apply lstrip_idem|done].
  by apply contains_lstrip.
Qed.

(** *** The closings of the lists *)

Lemma star_any (z : string) (k : cont) :
  k EmptyString = Some EmptyString -> star any_char z k = Some EmptyString.
Proof.
  intros Hk. induction z as [|c z IH]; [done|]. simpl. by rewrite IH.
Qed.

Lemma rstrip_app_text (s t : string) :
  rstrip s = s -> rstrip (s +:+ t) = s +:+ rstrip t.
Proof.
  intros Hs. destruct (rstrip t) as [|c r] eqn:E.
  - rewrite rstrip_blank_r by done. by rewrite Hs, app_empty_r.
  - rewrite <- E. apply rstrip_app. by rewrite E.
Qed.

Ltac spell := unfold nl; cbv [String.append].

(** A line that starts with the name is no closing phrase: the first
    two patterns pass over it. *)
Lemma name_line_passed p n (z : string) :
  p ∈ firstn 2 closing_patterns -> n ∈ name_lines ->
  sub_go p O (rstrip (n +:+ z)) = n +:+ sub_go p O (rstrip z).
Proof.
  intros Hp Hn.
  assert (Hbreak : at_line_break p).
  { simpl in Hp.
    repeat (apply elem_of_cons in Hp as [->|Hp];
            [apply seq_nl_at_line_break|]).
    by apply elem_of_nil in Hp. }
  assert (Hr : rstrip n = n).
  { repeat (apply elem_of_cons in Hn as [->|Hn]; [done|]).
    by apply elem_of_nil in Hn. }
  rewrite (rstrip_app_text _ _ Hr).
  assert (Hm : exists w, n = String "010" w /\ contains_char "010" w = false
                         /\ match_at p (n +:+ rstrip z) = None).
  { simpl in Hp.
    repeat (apply elem_of_cons in Hn as [->|Hn];
            [eexists; split; [reflexivity|]; split; [reflexivity|];
             repeat (apply elem_of_cons in Hp as [->|Hp];
                     [spell; by vm_compute|]);
             by apply elem_of_nil in Hp|]).
    by apply elem_of_nil in Hn. }
  destruct Hm as (w & -> & Hw & Hm). rewrite !app_cons in *.
  simpl. rewrite Hm. by rewrite sub_go_prefix.
Qed.

(** The third pattern cuts it, with all that follows. *)
Lemma name_line_cut n (z : string) :
  n ∈ name_lines -> sub_go (nth 2 closing_patterns Eos) O (n +:+ z) = EmptyString.
Proof.
  intros Hn.
  assert (Hrun : run (nth 2 closing_patterns Eos) (n +:+ z) Some
                 = Some EmptyString).
  { repeat (apply elem_of_cons in Hn as [->|Hn];
            [spell; cbn; rewrite star_any by reflexivity; reflexivity|]).
    by apply elem_of_nil in Hn. }
  assert (Hcons : exists c m, n +:+ z = String c m).
  { repeat (apply elem_of_cons in Hn as [->|Hn]; [by eexists _, _|]).
    by apply elem_of_nil in Hn. }
  destruct Hcons as (c & m & Hcm). rewrite Hcm in *.
  set (p := nth 2 closing_patterns Eos) in *. clearbody p.
  simpl. unfold match_at. rewrite Hrun. simpl. rewrite ?Nat.sub_0_r.
  rewrite <- (app_empty_r m) at 2. apply sub_go_skip.
Qed.

Lemma name_line_cleaned n (rest : string) :
  n ∈ name_lines -> tail_clean (n +:+ rest) = EmptyString.
Proof.
  intros Hn. unfold tail_clean. simpl fold_left.
  rewrite (name_line_passed _ n rest) by (assumption || (by left) || (by right; left)).
  rewrite (name_line_passed _ n _) by (assumption || (by left) || (by right; left)).
  assert (Hr : rstrip n = n).
  { repeat (apply elem_of_cons in Hn as [->|Hn]; [done|]).
    by apply elem_of_nil in Hn. }
  rewrite (rstrip_app_text _ _ Hr).
  by apply name_line_cut.
Qed.

(** The closings of the lists, by computation. *)
Lemma closing_tail_cleaned t :
  t ∈ closing_tails -> tail_clean t = EmptyString.
Proof.
  assert (H : forallb (fun t => String.eqb (tail_clean t) EmptyString)
                      closing_tails = true) by (by vm_compute).
  rewrite forallb_forall in H. intros Ht.
  by apply String.eqb_eq, H, list_elem_of_In.
Qed.

Lemma two_closings_cleaned t1 t2 :
  t1 ∈ closing_lines -> t2 ∈ closing_tails ->
  tail_clean (t1 +:+ t2) = EmptyString.
Proof.
  assert (H : forallb (fun t1 => forallb (fun t2 =>
                String.eqb (tail_clean (t1 +:+ t2)) EmptyString)
                closing_tails) closing_lines = true) by (by vm_compute).
  rewrite forallb_forall in H. intros H1 H2.
  specialize (H t1 (proj1 (list_elem_of_In _ _) H1)).
  rewrite forallb_forall in H.
  by apply String.eqb_eq, H, list_elem_of_In.
Qed.

Lemma closing_line_shape t :
  t ∈ closing_lines ->
  exists w, t = String "010" w /\ contains_char "010" w = false /\
            truthy (rstrip t) = true /\ rstrip t = t.
Proof.
  assert (H : forallb (fun t => match t with
                                | String c w =>
                                    Ascii.eqb c "010"
                                    && negb (contains_char "010" w)
                                    && truthy (rstrip t)
                                    && String.eqb (rstrip t) t
                                | EmptyString => false
                                end) closing_lines = true) by (by vm_compute).
  rewrite forallb_forall in H. intros Ht.
  specialize (H t (proj1 (list_elem_of_In _ _) Ht)).
  destruct t as [|c w]; [done|].
  apply andb_true_iff in H as [H H4]. apply andb_true_iff in H as [H H3].
  apply andb_true_iff in H as [H1 H2].
  apply Ascii.eqb_eq in H1 as ->. apply negb_true_iff in H2.
  apply String.eqb_eq in H4. by exists w.
Qed.

(** A closing line followed by another closing line is no match for the
    first two patterns, whatever follows. *)
Lemma closing_line_passed p t t' (x : string) :
  p ∈ firstn 2 closing_patterns -> t ∈ closing_lines -> t' ∈ closing_lines ->
  sub_go p O (t +:+ t' +:+ x) = t +:+ sub_go p O (t' +:+ x).
Proof.
  assert (H : forallb (fun p => forallb (fun t => forallb (fun t' =>
                match match_at p (t +:+ t' +:+ x) with
                | None => true
                | Some _ => false
                end) closing_lines) closing_lines)
                (firstn 2 closing_patterns) = true) by (by vm_compute).
  rewrite forallb_forall in H. intros Hp Ht Ht'.
  assert (Hbreak : at_line_break p).
  { simpl in Hp.
    repeat (apply elem_of_cons in Hp as [->|Hp];
            [apply seq_nl_at_line_break|]).
    by apply elem_of_nil in Hp. }
  specialize (H p (proj1 (list_elem_of_In _ _) Hp)).
  rewrite forallb_forall in H.
  specialize (H t (proj1 (list_elem_of_In _ _) Ht)).
  rewrite forallb_forall in H.
  specialize (H t' (proj1 (list_elem_of_In _ _) Ht')).
  destruct (match_at p (t +:+ t' +:+ x)) eqn:Hm; [done|].
  destruct (closing_line_shape t Ht) as (w & -> & Hw & _).
  rewrite !app_cons in *. simpl. rewrite Hm. by rewrite sub_go_prefix.
Qed.

(** What each pattern makes of one closing line. *)
Lemma closing_line_alone t :
  t ∈ closing_lines ->
  sub_go (nth 0 closing_patterns Eos) O t = EmptyString /\
  sub_go (nth 1 closing_patterns Eos) O t = EmptyString /\
  sub_go (nth 2 closing_patterns Eos) O t = t.
Proof.
  assert (H : forallb (fun t =>
                String.eqb (sub_go (nth 0 closing_patterns Eos) O t) EmptyString
                && String.eqb (sub_go (nth 1 closing_patterns Eos) O t)
                              EmptyString
                && String.eqb (sub_go (nth 2 closing_patterns Eos) O t) t)
                closing_lines = true) by (by vm_compute).
  rewrite forallb_forall in H. intros Ht.
  specialize (H t (proj1 (list_elem_of_In _ _) Ht)).
  apply andb_true_iff in H as [H H3]. apply andb_true_iff in H as [H1 H2].
  by apply String.eqb_eq in H1, H2, H3.
Qed.

(** Of three closing lines in a row, the first pattern cuts the last,
    the second pattern the one before, and the first one stays. *)
Lemma three_closings_cleaned t1 t2 t3 :
  t1 ∈ closing_lines -> t2 ∈ closing_lines -> t3 ∈ closing_lines ->
  tail_clean (t1 +:+ t2 +:+ t3) = t1.
Proof.
  intros H1 H2 H3.
  destruct (closing_line_shape t1 H1) as (_ & _ & _ & Ht1 & Hr1).
  destruct (closing_line_shape t2 H2) as (_ & _ & _ & Ht2 & Hr2).
  destruct (closing_line_shape t3 H3) as (_ & _ & _ & Ht3 & Hr3).
  destruct (closing_line_alone t1 H1) as (_ & _ & H13).
  destruct (closing_line_alone t2 H2) as (_ & H22 & _).
  destruct (closing_line_alone t3 H3) as (H31 & _ & _).
  assert (Hp1 : nth 0 closing_patterns Eos ∈ firstn 2 closing_patterns)
    by (by left).
  assert (Hp2 : nth 1 closing_patterns Eos ∈ firstn 2 closing_patterns)
    by (by right; left).
  unfold tail_clean.
  change (fold_left (fun y p => sub_go p O (rstrip y)) closing_patterns
            (t1 +:+ t2 +:+ t3))
    with (sub_go (nth 2 closing_patterns Eos) O
            (rstrip (sub_go (nth 1 closing_patterns Eos) O
               (rstrip (sub_go (nth 0 closing_patterns Eos) O
                  (rstrip (t1 +:+ t2 +:+ t3))))))).
  assert (Hr23 : rstrip (t2 +:+ t3) = t2 +:+ t3).
  { rewrite rstrip_app by done. by rewrite Hr3. }
  rewrite Hr3 in Ht3.
  assert (Hr123 : rstrip (t1 +:+ t2 +:+ t3) = t1 +:+ t2 +:+ t3).
  { rewrite rstrip_app; rewrite Hr23; [done|]. by apply truthy_app_r. }
  assert (Hr12 : rstrip (t1 +:+ t2) = t1 +:+ t2).
  { rewrite rstrip_app by done. by rewrite Hr2. }
  rewrite Hr123.
  rewrite (closing_line_passed _ t1 t2 t3 Hp1 H1 H2).
  rewrite <- (app_empty_r t3) at 1.
  rewrite (closing_line_passed _ t2 t3 EmptyString Hp1 H2 H3).
  rewrite app_empty_r, H31, !app_empty_r, Hr12.
  rewrite <- (app_empty_r t2) at 1.
  rewrite (closing_line_passed _ t1 t2 EmptyString Hp2 H1 H2).
  rewrite app_empty_r, H22, app_empty_r, Hr1. exact H13.
Qed.

Lemma closing_before_name_stays t n :
  t ∈ closing_lines -> n ∈ dashed_names -> tail_clean (t +:+ n) = t.
Proof.
  assert (H : forallb (fun t => forallb (fun n =>
                String.eqb (tail_clean (t +:+ n)) t)
                dashed_names) closing_lines = true) by (by vm_compute).
  rewrite forallb_forall in H. intros H1 H2.
  specialize (H t (proj1 (list_elem_of_In _ _) H1)).
  rewrite forallb_forall in H.
  by apply String.eqb_eq, H, list_elem_of_In.
Qed.

Lemma closing_line_stripped t :
  t ∈ closing_lines -> truthy (rstrip t) = true /\ rstrip t = t.
Proof.
  assert (H : forallb (fun t => truthy (rstrip t) && String.eqb (rstrip t) t)
                      closing_lines = true) by (by vm_compute).
  rewrite forallb_forall in H. intros Ht.
  specialize (H t (proj1 (list_elem_of_In _ _) Ht)).
  apply andb_true_iff in H as [H1 H2]. by apply String.eqb_eq in H2.
Qed.

Lemma config_of_unknown tone :
  tone <> "normal" -> tone <> "friendly" -> tone <> "professional" ->
  config_of tone = normal_config.
Proof.
  intros H1 H2 H3. unfold config_of, tone_configs.
  by rewrite !lookup_insert_ne, lookup_empty by done.
Qed.
End Patterns.

(** *** The patterns at work

    Texts as a model may return them, a closing added in spite of the
    instructions, and what the three patterns leave of them. *)

Section PatternChecks.
Import PyStr Draft.

Example closing_with_name :
  strip_closings ("Hello" +:+ nl +:+ "Regards," +:+ nl +:+ "Ayaan") = "Hello".
Proof. reflexivity. Qed.

Example closing_with_signature_block :
  strip_closings ("Hi there" +:+ nl +:+ nl +:+ "Thanks for x." +:+ nl +:+ nl
                  +:+ "Best," +:+ nl +:+ "Ayaan Asish" +:+ nl +:+ "Grade 11")
  = "Hi there" +:+ nl +:+ nl +:+ "Thanks for x.".
Proof. reflexivity. Qed.

(** Two closings in a row go: the first pattern takes the last one, the
    second pattern the one before. *)
Example two_closings :
  strip_closings ("Hi" +:+ nl +:+ "Thanks," +:+ nl +:+ "Best regards," +:+ nl
                  +:+ "Ayaan") = "Hi".
Proof. reflexivity. Qed.

(** Of three closings in a row, one is left. *)
Example three_closings :
  strip_closings ("Hello" +:+ nl +:+ "Regards," +:+ nl +:+ "Regards," +:+ nl
                  +:+ "Regards,") = "Hello" +:+ nl +:+ "Regards,".
Proof. reflexivity. Qed.

(** A text that is nothing but a closing: no pattern matches the closing,
    as none is preceded by a line break; the name goes. *)
Example closing_only :
  strip_closings ("Regards," +:+ nl +:+ "Ayaan") = "Regards,".
Proof. reflexivity. Qed.

(** Upper and lower case are the same to the patterns, and blank lines
    between the closing and the name are allowed. *)
Example closing_any_case :
  strip_closings ("Hi" +:+ nl +:+ "best.  " +:+ nl +:+ " " +:+ nl
                  +:+ " ayaan x" +:+ nl +:+ "y") = "Hi".
Proof. reflexivity. Qed.

(** A sentence that merely starts with a phrase of the list stays. *)
Example no_closing :
  strip_closings ("Hello" +:+ nl +:+ nl +:+ "Thank you" +:+ nl
                  +:+ "for everything")
  = "Hello" +:+ nl +:+ nl +:+ "Thank you" +:+ nl +:+ "for everything".
Proof. reflexivity. Qed.
End PatternChecks.

(** ** The draft generator *)

Section DraftGenerator.
Import PyStr Regex Draft Monad Mailbox Spec.
Context {W : Type}.
Variable cap : Capabilities W.
Variable OLLAMA_MODEL : string.

(** The draft generator makes one request and always returns. *)
Lemma generate_draft_run (st : State W) from_addr subject body tone :
  let prompt := build_prompt from_addr subject body tone in
  let config := config_of tone in
  _generate_draft cap OLLAMA_MODEL from_addr subject body tone st =
  match llm_generate_text cap prompt OLLAMA_MODEL (temperature config)
                          (world st) with
  | (r, w') =>
      (Return match r with
              | Return out => finish_draft subject (signature config) out
              | Raise _ =>
                  fallback_sentence subject +:+ nl +:+ nl +:+ signature config
              end,
       {| mailbox := mailbox st;
          conversation_history := conversation_history st;
          world := w';
          calls := calls st ++
                   [CallGenerate prompt OLLAMA_MODEL (temperature config)] |})
  end.
Proof.
  intros prompt config.
  unfold _generate_draft, try_except, bind, invoke, ret.
  fold prompt config.
  by destruct (llm_generate_text cap prompt OLLAMA_MODEL _ (world st))
    as [[out|e] w'].
Qed.

(** The fallback of the draft generator, where it is exact: the model
    faults, or it answers nothing and the subject is one line. *)
Lemma generate_draft_fallback (st : State W) from_addr subject body tone :
  let prompt := build_prompt from_addr subject body tone in
  let config := config_of tone in
  match (llm_generate_text cap prompt OLLAMA_MODEL (temperature config)
                           (world st)).1 with
  | Raise _ => True
  | Return out =>
      truthy (strip out) = false /\ contains_char "010" subject = false
  end ->
  (_generate_draft cap OLLAMA_MODEL from_addr subject body tone st).1
  = Return (fallback_sentence subject +:+ nl +:+ nl +:+ signature config).
Proof.
  intros prompt config. rewrite generate_draft_run. fold prompt config.
  destruct (llm_generate_text cap prompt OLLAMA_MODEL _ (world st))
    as [[out|e] w']; simpl; [|done].
  intros [Hb Hs]. unfold finish_draft. by rewrite clean_draft_blank.
Qed.

Lemma clean_draft_answer subject out :
  clean_draft subject out = strip_closings (answer_text subject out).
Proof. reflexivity. Qed.

(** At most a tail of the answer is cut, and never from its first
    line. *)
Lemma clean_draft_cuts_tail subject out :
  let answer := answer_text subject out in
  let text := clean_draft subject out in
  (exists cut, answer = text +:+ cut) /\
  (forall first rest,
     answer = first +:+ nl +:+ rest -> contains_char "010" first = false ->
     exists more, text = rstrip first +:+ more) /\
  (contains_char "010" answer = false -> text = answer) /\
  ((forall p, p ∈ closing_patterns -> ~ matches_in p answer) ->
   text = answer).
Proof.
  cbv zeta. rewrite clean_draft_answer. unfold answer_text, strip_closings.
  set (d := if negb (truthy out) || negb (truthy (strip out))
            then fallback_sentence subject else out).
  split; [|split; [|split]].
  - apply fold_prefix, closing_patterns_cut_tail.
  - intros first rest Ha Hline.
    destruct (strip_head d) as [E|(c & r & E & Hc)]; rewrite E in *.
    { by destruct first. }
    destruct first as [|c' first].
    { injection Ha as -> _. by vm_compute in Hc. }
    rewrite app_cons in Ha. injection Ha as <- ->.
    destruct (rstrip_head _ c first eq_refl Hc) as [r' Hr'].
    destruct (rstrip_prefix (String c first)) as [w Hw].
    assert (Hf : contains_char "010" (rstrip (String c first)) = false)
      by by apply contains_rstrip.
    assert (Hrr : rstrip (rstrip (String c first)) = rstrip (String c first))
      by apply rstrip_idem.
    change (String c (first +:+ nl +:+ rest))
      with (String c first +:+ nl +:+ rest).
    set (f := rstrip (String c first)) in *.
    rewrite Hw, app_assoc'.
    apply fold_first_line; try done.
    + apply closing_patterns_at_line_break.
    + rewrite Hr'. simpl. by rewrite Hc.
    + by rewrite Hr'.
  - intros Hline. rewrite <- (strip_idem d) at 1.
    rewrite fold_single_line; [apply strip_idem| |done].
    apply closing_patterns_at_line_break.
  - intros Hno. apply fold_no_match. by apply Forall_forall.
Qed.

(** What the patterns cut after one line of text. *)
Lemma clean_draft_after_line subject (line tail : string) :
  contains_char "010" line = false -> truthy (strip line) = true ->
  let text := clean_draft subject (line +:+ tail) in
  (tail ∈ closing_tails -> text = strip line) /\
  (forall t1 t2, t1 ∈ closing_lines -> t2 ∈ closing_tails ->
     tail = t1 +:+ t2 -> text = strip line) /\
  (forall n rest, n ∈ name_lines -> tail = n +:+ rest -> text = strip line) /\
  (forall t1 t2 t3, t1 ∈ closing_lines -> t2 ∈ closing_lines ->
     t3 ∈ closing_lines -> tail = t1 +:+ t2 +:+ t3 ->
     text = lstrip line +:+ t1) /\
  (forall t n, t ∈ closing_lines -> n ∈ dashed_names -> tail = t +:+ n ->
     text = lstrip line +:+ t).
Proof.
  intros Hline Htext. cbv zeta. rewrite clean_tail by done.
  assert (Hcut : tail_clean tail = EmptyString ->
                 rstrip (lstrip line +:+ tail_clean tail) = strip line).
  { intros ->. by rewrite app_empty_r. }
  assert (Hstay : forall t, t ∈ closing_lines -> tail_clean tail = t ->
                  rstrip (lstrip line +:+ tail_clean tail) = lstrip line +:+ t).
  { intros t Ht ->. destruct (closing_line_stripped t Ht) as [H1 H2].
    rewrite rstrip_app by done. by rewrite H2. }
  split; [|split; [|split; [|split]]].
  - intros Ht. by apply Hcut, closing_tail_cleaned.
  - intros t1 t2 H1 H2 ->. by apply Hcut, two_closings_cleaned.
  - intros n rest Hn ->. by apply Hcut, name_line_cleaned.
  - intros t1 t2 t3 H1 H2 H3 ->. by apply Hstay, three_closings_cleaned.
  - intros t n Ht Hn ->. by apply Hstay, closing_before_name_stays.
Qed.

(** C5, as amended.  For every tone and every answer or fault of the
    model, the draft generator returns a text that ends with a blank
    line followed by the signature block of the tone; a tone other than
    the three known ones uses the configuration of [normal].  What
    precedes the blank line is the fallback sentence when the model
    faults.  Otherwise it is the answer of the model, stripped (the
    fallback sentence when the answer is blank), of which at most a tail
    has been cut: its first line is kept, up to trailing blanks; an
    answer of one line is kept whole; and nothing is cut where none of
    the three patterns matches.  The patterns are applied once each, in
    order.  After one line of text: a closing of the fixed list (with
    its optional comma or full stop and an optional line with the name)
    is cut; so are two closings in a row; so is a line that starts with
    the name, directly or after a dash, with all that follows.  Of three
    closing lines in a row the first one stays, and so does a closing
    line followed by a line with a dash and the name. *)
Theorem draft_ends_with_signature (st : State W) from_addr subject body tone :
  exists text st',
    _generate_draft cap OLLAMA_MODEL from_addr subject body tone st
    = (Return (text +:+ nl +:+ nl +:+ signature (config_of tone)), st') /\
    (tone <> "normal" -> tone <> "friendly" -> tone <> "professional" ->
     config_of tone = normal_config) /\
    match (llm_generate_text cap (build_prompt from_addr subject body tone)
             OLLAMA_MODEL (temperature (config_of tone)) (world st)).1 with
    | Raise _ => text = fallback_sentence subject
    | Return out =>
        let answer := answer_text subject out in
        text = fold_left (fun d p => strip (sub p d)) closing_patterns answer /\
        (exists cut, answer = text +:+ cut) /\
        (forall first rest,
           answer = first +:+ nl +:+ rest ->
           contains_char "010" first = false ->
           exists more, text = rstrip first +:+ more) /\
        (contains_char "010" answer = false -> text = answer) /\
        ((forall p, p ∈ closing_patterns -> ~ matches_in p answer) ->
         text = answer) /\
        (forall line tail,
           out = line +:+ tail ->
           contains_char "010" line = false -> truthy (strip line) = true ->
           (tail ∈ closing_tails -> text = strip line) /\
           (forall t1 t2, t1 ∈ closing_lines -> t2 ∈ closing_tails ->
              tail = t1 +:+ t2 -> text = strip line) /\
           (forall n rest, n ∈ name_lines -> tail = n +:+ rest ->
              text = strip line) /\
           (forall t1 t2 t3, t1 ∈ closing_lines -> t2 ∈ closing_lines ->
              t3 ∈ closing_lines -> tail = t1 +:+ t2 +:+ t3 ->
              text = lstrip line +:+ t1) /\
           (forall t n, t ∈ closing_lines -> n ∈ dashed_names ->
              tail = t +:+ n -> text = lstrip line +:+ t))
    end.
Proof.
  rewrite generate_draft_run.
  destruct (llm_generate_text cap _ OLLAMA_MODEL _ (world st))
    as [[out|e] w'] eqn:Hllm.
  - exists (clean_draft subject out). eexists. split; [reflexivity|].
    split; [apply config_of_unknown|]. simpl.
    split; [apply clean_draft_answer|].
    destruct (clean_draft_cuts_tail subject out) as (H1 & H2 & H3 & H4).
    do 4 (split; [assumption|]).
    intros line tail -> Hline Htext.
    by apply clean_draft_after_line.
  - eexists _, _. split; [reflexivity|].
    split; [apply config_of_unknown|]. done.
Qed.
End DraftGenerator.

Section DraftExamples.
Import PyStr Draft Monad Mailbox Spec Example.

Lemma draft_ends_with_signature_witness :
  exists text,
    (_generate_draft polite Double.OLLAMA_MODEL "Bob <bob@example.com>"
       "Lunch" "hi" "professional" after_listing).1
    = Return (text +:+ nl +:+ nl +:+ signature professional_config) /\
    text = "Sounds good, see you at noon.".
Proof.
  destruct (draft_ends_with_signature polite Double.OLLAMA_MODEL after_listing
              "Bob <bob@example.com>" "Lunch" "hi" "professional")
    as (text & st' & Hrun & _ & _ & _ & _ & _ & _ & Hclosing).
  exists text. split; [by rewrite Hrun|].
  apply (Hclosing "  Sounds good, see you at noon. "
                  (nl +:+ "Thank you," +:+ nl +:+ "Ayaan"));
    [reflexivity|reflexivity|reflexivity|].
  apply list_elem_of_In. vm_compute.
  repeat first [left; reflexivity | right].
Defined.

(** C5, as stated.  The model signs its answer with a closing phrase of
    the list and a placeholder name; none of the three patterns
    matches, and the closing phrase still stands on a line of its own
    before the signature. *)
Lemma draft_keeps_closing_phrase :
  (_generate_draft signing Double.OLLAMA_MODEL "Bob <bob@example.com>"
     "Status" "hi" "normal" after_listing).1
  = Return ("Thanks for the update." +:+ nl +:+ nl +:+ "Best regards," +:+ nl
            +:+ "[Your Name]" +:+ nl +:+ nl +:+ "Regards," +:+ nl +:+ "Ayaan")
  /\ has_closing_line ("Thanks for the update." +:+ nl +:+ nl
                       +:+ "Best regards," +:+ nl +:+ "[Your Name]") = true.
Proof. split; reflexivity. Qed.

(** C6.  The model returns nothing for a message whose subject is
    folded onto a second line that starts with the name: the fallback
    sentence goes through the closing patterns and is cut at the line
    break, so the draft is not the fallback sentence followed by the
    signature. *)
Theorem blank_answer_cuts_fallback :
  let draft :=
    (_generate_draft silent Double.OLLAMA_MODEL "Ann <ann@example.com>"
       folded_subject "hi" "normal" after_listing).1 in
  draft = Return ("Thank you for your email regarding 'Lunch with"
                  +:+ nl +:+ nl +:+ "Regards," +:+ nl +:+ "Ayaan")
  /\ draft <> Return (fallback_sentence folded_subject +:+ nl +:+ nl
                      +:+ signature (config_of "normal")).
Proof.
  split; [reflexivity|]. vm_compute. discriminate.
Qed.
End DraftExamples.

(** ** The mailbox session *)

Section Session.
Import PyStr Draft EmailUtils Monad Mailbox Spec.
Context {W : Type}.
Variable cap : Capabilities W.
Variable b64_utf8 : string -> Outcome string.
Variable mime_encode : string -> string -> PyVal -> Outcome string.
Variable OLLAMA_MODEL : string.

(** *** Handles *)

Lemma assign_lookup refs : forall i m h,
  assign i refs m !! h =
  if decide (i <= h < i + Z.of_nat (length refs))
  then ref_id <$> refs !! Z.to_nat (h - i) else m !! h.
Proof.
  induction refs as [|r refs IH]; intros i m h; simpl.
  - case_decide; [lia|done].
  - rewrite IH. repeat case_decide; try lia.
    + replace (Z.to_nat (h - i)) with (S (Z.to_nat (h - (i + 1)))) by lia.
      done.
    + assert (h = i) as -> by lia. rewrite Z.sub_diag. simpl.
      by rewrite lookup_insert_eq.
    + rewrite lookup_insert_ne by lia. done.
Qed.

Lemma assign_handles refs h : assign 1 refs ∅ !! h = handle_lookup refs h.
Proof.
  rewrite assign_lookup. unfold handle_lookup.
  repeat case_decide; try lia; try done.
  rewrite lookup_empty. symmetry.
  destruct (refs !! Z.to_nat (h - 1)) eqn:E; [|done].
  apply lookup_lt_Some in E. lia.
Qed.

Lemma handle_lookup_outside refs h :
  ~ (1 <= h <= Z.of_nat (length refs)) -> handle_lookup refs h = None.
Proof.
  intros Hh. unfold handle_lookup. case_decide; [|done].
  rewrite lookup_ge_None_2; [done|lia].
Qed.

Lemma resolve_present (st : State W) h id :
  index_map (mailbox st) !! h = Some id -> truthy id = true ->
  resolve (VInt h) st = (Return (Some (h, id)), st).
Proof.
  intros Hm Ht. unfold resolve, bind, lift, get_session, ret. simpl.
  rewrite Hm, Ht. reflexivity.
Qed.

Lemma resolve_absent (st : State W) h :
  index_map (mailbox st) !! h = None ->
  resolve (VInt h) st = (Return None, st).
Proof.
  intros Hm. unfold resolve, bind, lift, get_session, ret. simpl.
  rewrite Hm. reflexivity.
Qed.

Lemma resolve_state (st : State W) number r st' :
  resolve number st = (r, st') -> st' = st.
Proof.
  unfold resolve, bind, lift, get_session, ret.
  destruct (key_of number) as [[n|]|e]; simpl;
    repeat case_match; congruence.
Qed.

Lemma resolve_some (st : State W) number n id st' :
  resolve number st = (Return (Some (n, id)), st') ->
  key_of number = Return (Some n) /\
  index_map (mailbox st) !! n = Some id /\ truthy id = true.
Proof.
  unfold resolve, bind, lift, get_session, ret.
  destruct (key_of number) as [[k|]|e]; simpl; try congruence.
  destruct (index_map (mailbox st) !! k) as [i|] eqn:Hk; try congruence.
  destruct (truthy i) eqn:Ht; try congruence.
  intros [= -> -> _]. done.
Qed.

(** *** Listing *)

(** The loop of [list_emails] against the answers of the provider: the
    handles assigned are those of the messages fetched, and the loop
    raises exactly when a request faults. *)
Lemma list_loop_run refs : forall i emails (st : State W),
  match fetch_all cap refs (world st), list_loop cap i refs emails st with
  | (ds, fault, w'), (r, st') =>
      mailbox st' =
        set_index_map (assign i (firstn (length ds) refs)) (mailbox st)
      /\ world st' = w'
      /\ match fault with
         | None => length ds = length refs /\
                   exists out, r = Return (emails ++ out) /\
                               length out = length refs
         | Some e => r = Raise e /\ (length ds < length refs)%nat
         end
  end.
Proof.
  induction refs as [|ref refs IH]; intros i emails st; simpl.
  - destruct (mailbox st); split; [done|]. split; [done|]. split; [done|].
    exists []. by rewrite app_nil_r.
  - unfold bind at 1. unfold invoke at 1.
    destruct (svc_get cap (ref_id ref) (Metadata list_headers) (world st))
      as [[d|e] w1] eqn:Hget.
    + unfold bind, update_session, modify. simpl.
      match goal with |- context [list_loop cap ?i' refs ?em ?s] =>
        specialize (IH i' em s) end.
      simpl in IH.
      destruct (fetch_all cap refs w1) as [[ds fault] w2].
      destruct (list_loop _ _ _ _ _) as [r st'].
      destruct IH as (Hm & Hw & Hr). simpl.
      split; [rewrite Hm; by destruct (mailbox st)|]. split; [done|].
      destruct fault as [e|].
      * destruct Hr as [-> Hlt]. split; [done|lia].
      * destruct Hr as (Hlen & out & -> & Hout). split; [lia|].
        exists (summary i ref d :: out). rewrite <- app_assoc. simpl.
        split; [done|lia].
    + simpl. split; [by destruct (mailbox st)|]. split; [done|].
      split; [done|lia].
Qed.

(** C1, as amended.  For every call to [list_emails] in which the Mail
    Capability faults, the call returns the error payload with the
    message of the fault.  When the listing request itself faults, the
    session, and with it the index map, is what it was before the call.
    When a metadata request faults, the listing has already replaced the
    index map: it holds the handles of the messages fetched before the
    fault, numbered from 1 in the order of the provider, and nothing
    else. *)
Theorem list_emails_fault_index_map (st : State W) mr q e kept :
  provider_faults cap st mr q e kept ->
  exists st',
    list_emails cap mr q st = (Return (error_dict e), st') /\
    match kept with
    | None => mailbox st' = mailbox st
    | Some fetched =>
        forall h, index_map (mailbox st') !! h = handle_lookup fetched h
    end.
Proof.
  destruct kept as [fetched|]; simpl.
  - intros (refs & w1 & ds & w2 & Hl & Hf & ->).
    unfold list_emails, try_except, bind at 1, invoke at 1. rewrite Hl.
    unfold bind at 1. unfold update_session, modify at 1.
    destruct refs as [|ref refs]; [simpl in Hf; congruence|].
    set (st1 := set_mailbox _ _).
    unfold bind.
    pose proof (list_loop_run (ref :: refs) 1 [] st1) as Hrun.
    replace (world st1) with w1 in Hrun by reflexivity.
    rewrite Hf in Hrun.
    destruct (list_loop cap 1 (ref :: refs) [] st1) as [r st'].
    destruct Hrun as (Hm & _ & -> & Hlt). simpl.
    eexists. split; [reflexivity|].
    intros h. rewrite Hm. simpl. apply assign_handles.
  - intros (w1 & Hl).
    unfold list_emails, try_except, bind, invoke. rewrite Hl.
    simpl. eexists. split; [reflexivity|]. done.
Qed.

(** C2.  For every successful [list_emails] call returning K messages
    (the listing request and the K metadata requests are answered), the
    index map afterwards maps exactly the handles 1..K, in the order of
    the provider; and in every later state with that index map,
    [read_email] and [send_reply] with a handle outside 1..K return the
    lookup error and leave the state, hence the world and the call log,
    as they are: the Mail Capability is not called. *)
Theorem list_emails_numbers_handles (st : State W) mr q refs w1 ds w2 :
  svc_list cap q mr (world st) = (Return refs, w1) ->
  fetch_all cap refs w1 = (ds, None, w2) ->
  exists (r : PyVal) (st1 : State W),
    list_emails cap mr q st = (Return r, st1) /\
    listed r (length refs) /\
    (forall h, index_map (mailbox st1) !! h = handle_lookup refs h) /\
    forall st2 : State W,
      index_map (mailbox st2) = index_map (mailbox st1) ->
      forall h, ~ (1 <= h <= Z.of_nat (length refs)) ->
        (forall g t, read_email cap b64_utf8 OLLAMA_MODEL (VInt h) g t st2
                     = (Return (invalid_number (VInt h)), st2)) /\
        (forall b, send_reply cap mime_encode (VInt h) b st2
                   = (Return (invalid_number (VInt h)), st2)).
Proof.
  intros Hl Hf.
  assert (Hout : forall (st1 st2 : State W),
    (forall h, index_map (mailbox st1) !! h = handle_lookup refs h) ->
    index_map (mailbox st2) = index_map (mailbox st1) ->
    forall h, ~ (1 <= h <= Z.of_nat (length refs)) ->
      (forall g t, read_email cap b64_utf8 OLLAMA_MODEL (VInt h) g t st2
                   = (Return (invalid_number (VInt h)), st2)) /\
      (forall b, send_reply cap mime_encode (VInt h) b st2
                 = (Return (invalid_number (VInt h)), st2))).
  { intros st1 st2 Hmap Heq h Hh.
    assert (Hr : resolve (VInt h) st2 = (Return None, st2)).
    { apply resolve_absent. rewrite Heq, Hmap.
      by apply handle_lookup_outside. }
    split; intros; [unfold read_email|unfold send_reply];
      by rewrite (bind_return _ _ _ _ _ Hr). }
  unfold list_emails, try_except, bind at 1, invoke at 1. rewrite Hl.
  unfold bind at 1. unfold update_session, modify at 1.
  set (st1 := set_mailbox _ _).
  destruct refs as [|ref refs].
  - simpl. eexists _, _. split; [reflexivity|]. split; [left; done|].
    assert (Hm : forall h, index_map (mailbox st1) !! h = handle_lookup [] h).
    { intros h. simpl. rewrite lookup_empty. unfold handle_lookup.
      by case_decide. }
    split; [done|]. intros st2. by apply Hout.
  - unfold bind.
    pose proof (list_loop_run (ref :: refs) 1 [] st1) as Hrun.
    replace (world st1) with w1 in Hrun by reflexivity.
    rewrite Hf in Hrun.
    destruct (list_loop cap 1 (ref :: refs) [] st1) as [r st'].
    destruct Hrun as (Hm & _ & Hlen & out & -> & Hout'). simpl.
    assert (Hmap : forall h,
      index_map (mailbox st') !! h = handle_lookup (ref :: refs) h).
    { intros h. rewrite Hm. simpl. rewrite Hlen.
      rewrite <- (assign_handles (ref :: refs) h). simpl.
      by rewrite firstn_all. }
    eexists _, _. split; [reflexivity|]. split.
    { right. exists out. simpl in *. split; [done|]. split; [lia|].
      by rewrite Hout'. }
    split; [done|]. intros st2. by apply Hout.
Qed.

(** *** Sending *)

Lemma send_reply_run (st : State W) number n id body :
  resolve number st = (Return (Some (n, id)), st) ->
  send_reply cap mime_encode number body st =
  match body_to_send (mailbox st) n body with
  | None => (Return no_draft, st)
  | Some b => deliver cap mime_encode n id b st
  end.
Proof.
  intros Hr. unfold send_reply. rewrite (bind_return _ _ _ _ _ Hr).
  rewrite (bind_return get_session _ st (mailbox st) st eq_refl).
  destruct (body_to_send _ _ _); reflexivity.
Qed.

(** C3, as amended.  For every [send_reply] call with the reply body
    omitted and a handle present in the index map.  When the provider ID
    that the map gives the handle is not empty: either a pending draft
    for this very handle exists, and the call is the delivery of that
    draft; or there is none, and the call returns the error that no
    draft is available and leaves the state, hence the call log, as it
    is: nothing is sent.  When the provider ID is empty, the call
    returns the error of an invalid email number, whether a draft is
    pending or not, and leaves the state as it is. *)
Theorem send_reply_needs_pending_draft (st : State W) (h : Z) (id : string) :
  index_map (mailbox st) !! h = Some id ->
  if truthy id then
    (exists d, pending_for (mailbox st) h d /\
               send_reply cap mime_encode (VInt h) VNone st
               = deliver cap mime_encode h id (VStr d) st)
    \/ ((forall d, ~ pending_for (mailbox st) h d) /\
        send_reply cap mime_encode (VInt h) VNone st = (Return no_draft, st))
  else
    send_reply cap mime_encode (VInt h) VNone st
    = (Return (invalid_number (VInt h)), st).
Proof.
  intros Hm. destruct (truthy id) eqn:Ht.
  2: { unfold send_reply, resolve, bind, lift, get_session, ret. simpl.
       by rewrite Hm, Ht. }
  rewrite (send_reply_run st (VInt h) h id VNone
             (resolve_present st h id Hm Ht)).
  unfold body_to_send, pending_for.
  destruct (last_draft (mailbox st)) as [d|] eqn:Hd.
  - destruct (bool_decide (last_number (mailbox st) ≠ Some h)) eqn:Hn; simpl.
    + right. split; [|reflexivity].
      intros d' (_ & _ & Hl). apply bool_decide_eq_true in Hn. contradiction.
    + apply bool_decide_eq_false in Hn. apply dec_stable in Hn.
      destruct (truthy d) eqn:Htd; simpl.
      * left. exists d. done.
      * right. split; [|reflexivity].
        intros d' (Hl & Ht' & _). congruence.
  - right. split; [|reflexivity]. intros d' (Hl & _). congruence.
Qed.

(** What a successful delivery leaves behind. *)
Lemma deliver_success (st : State W) n id body r st' :
  deliver cap mime_encode n id body st = (Return r, st') ->
  is_success r ->
  index_map (mailbox st') = index_map (mailbox st) /\
  (last_number (mailbox st) = Some n ->
     last_draft (mailbox st') = None /\ last_number (mailbox st') = None) /\
  (last_number (mailbox st) <> Some n ->
     last_draft (mailbox st') = last_draft (mailbox st) /\
     last_number (mailbox st') = last_number (mailbox st)).
Proof.
  unfold deliver, try_except, bind, invoke, lift, get_session, update_session,
    modify, ret.
  destruct (svc_get cap id _ (world st)) as [[orig|e] w1]; simpl.
  2: { intros [= <- <-] (? & ? & [=]). }
  destruct (EmailUtils.create_reply_message _ _ _ _ _) as [msg|e]; simpl.
  2: { intros [= <- <-] (? & ? & [=]). }
  destruct (svc_send cap msg w1) as [[[]|e] w2]; simpl.
  2: { intros [= <- <-] (? & ? & [=]). }
  destruct (bool_decide (last_number (mailbox st) = Some n)) eqn:Hn; simpl;
    intros [= <- <-] _; simpl.
  - apply bool_decide_eq_true in Hn. split; [done|]. split; [done|].
    intros; contradiction.
  - apply bool_decide_eq_false in Hn. split; [done|].
    split; [intros; contradiction|done].
Qed.

(** C4.  For every [send_reply] call that succeeds, on the handle [n]:
    if the pending draft belonged to this handle, the draft and its
    handle are cleared, and a subsequent [send_reply] for the same handle
    with no body returns the error that no draft is available; if the
    pending draft belonged to a different handle, both fields are left
    as they were. *)
Theorem send_reply_clears_own_draft (st : State W) number body r st' :
  send_reply cap mime_encode number body st = (Return r, st') ->
  is_success r ->
  exists n, key_of number = Return (Some n) /\
    (last_number (mailbox st) = Some n ->
       last_draft (mailbox st') = None /\ last_number (mailbox st') = None /\
       send_reply cap mime_encode number VNone st' = (Return no_draft, st')) /\
    (last_number (mailbox st) <> Some n ->
       last_draft (mailbox st') = last_draft (mailbox st) /\
       last_number (mailbox st') = last_number (mailbox st)).
Proof.
  intros Hrun Hok.
  destruct (resolve number st) as [[[[n id]|]|e] st1] eqn:Hr.
  - assert (st1 = st) as -> by eauto using resolve_state.
    rewrite (send_reply_run st number n id body Hr) in Hrun.
    destruct (resolve_some _ _ _ _ _ Hr) as (Hk & Hm & Ht).
    destruct (body_to_send (mailbox st) n body) as [b|] eqn:Hb.
    2: { injection Hrun as <- <-. destruct Hok as (? & ? & [=]). }
    destruct (deliver_success _ _ _ _ _ _ Hrun Hok) as (Hi & Hown & Hother).
    exists n. split; [done|]. split; [|done].
    intros Hl. destruct (Hown Hl) as [Hd Hn]. split; [done|]. split; [done|].
    assert (Hr' : resolve number st' = (Return (Some (n, id)), st')).
    { unfold resolve, bind, lift, get_session, ret. rewrite Hk. simpl.
      rewrite Hi, Hm, Ht. reflexivity. }
    rewrite (send_reply_run st' number n id VNone Hr').
    unfold body_to_send. rewrite Hd. reflexivity.
  - unfold send_reply in Hrun. rewrite (bind_return _ _ _ _ _ Hr) in Hrun.
    injection Hrun as <- <-. destruct Hok as (? & ? & [=]).
  - unfold send_reply in Hrun. rewrite (bind_raise _ _ _ _ _ Hr) in Hrun.
    done.
Qed.

(** *** The pending draft and its handle *)

Global Instance keeps_inv_preorder : PreOrder (@keeps_inv W).
Proof.
  split; [intros st; unfold keeps_inv; tauto|].
  intros a b c; unfold keeps_inv; tauto.
Qed.

Lemma keeps_invoke {A} c (h : W -> Outcome A * W) :
  always keeps_inv (invoke c h).
Proof.
  intros st. unfold invoke. destruct (h (world st)). simpl.
  unfold keeps_inv. tauto.
Qed.

Lemma keeps_get_session : always (@keeps_inv W) get_session.
Proof. intros st. reflexivity. Qed.

Lemma keeps_update f :
  (forall m, draft_inv m -> draft_inv (f m)) ->
  always (@keeps_inv W) (update_session f).
Proof. intros H st Hi. apply (H _ Hi). Qed.

Hint Resolve keeps_get_session keeps_invoke : core.

Ltac keeps_draft_fields :=
  try (apply keeps_update; intros m Hm; unfold draft_inv in *; simpl;
       try tauto; split; discriminate).

Lemma keeps_generate f s b t :
  always keeps_inv (_generate_draft cap OLLAMA_MODEL f s b t).
Proof. unfold _generate_draft. repeat always_step; eauto. Qed.

Lemma keeps_list_loop refs : forall i emails,
  always keeps_inv (list_loop cap i refs emails).
Proof.
  induction refs as [|r refs IH]; intros i emails; simpl.
  - apply always_ret; apply _.
  - repeat always_step; eauto.
Qed.

Lemma keeps_list mr q : always keeps_inv (list_emails cap mr q).
Proof.
  unfold list_emails. repeat always_step; eauto using keeps_list_loop.
Qed.

Lemma keeps_resolve n : always (@keeps_inv W) (resolve n).
Proof. unfold resolve. repeat always_step; eauto. Qed.

Lemma keeps_read n g t :
  always keeps_inv (read_email cap b64_utf8 OLLAMA_MODEL n g t).
Proof.
  unfold read_email, fetch_and_draft.
  repeat always_step; eauto using keeps_resolve, keeps_generate.
  all: keeps_draft_fields.
Qed.

Lemma keeps_regenerate n t :
  always keeps_inv (regenerate_draft cap OLLAMA_MODEL n t).
Proof.
  unfold regenerate_draft.
  repeat always_step; eauto using keeps_generate.
  all: keeps_draft_fields.
Qed.

Lemma keeps_send n b : always keeps_inv (send_reply cap mime_encode n b).
Proof.
  unfold send_reply, deliver.
  repeat always_step; eauto using keeps_resolve.
  all: keeps_draft_fields.
Qed.

Lemma keeps_clear : always (@keeps_inv W) clear.
Proof. unfold clear. repeat always_step; eauto. all: keeps_draft_fields. Qed.

(** C10.  [last_draft] is [None] if and only if [last_number] is [None]:
    this holds of a new session and is preserved by [clear],
    [list_emails], [read_email], [regenerate_draft] and [send_reply], for
    all arguments and whatever the capabilities answer, whether the
    method returns or raises. *)
Theorem draft_fields_set_together :
  draft_inv new_session /\
  forall st : State W, draft_inv (mailbox st) ->
    draft_inv (mailbox (clear st).2) /\
    (forall mr q, draft_inv (mailbox (list_emails cap mr q st).2)) /\
    (forall n g t,
       draft_inv (mailbox (read_email cap b64_utf8 OLLAMA_MODEL n g t st).2)) /\
    (forall n t,
       draft_inv (mailbox (regenerate_draft cap OLLAMA_MODEL n t st).2)) /\
    (forall n b, draft_inv (mailbox (send_reply cap mime_encode n b st).2)).
Proof.
  split; [done|]. intros st Hst.
  split; [by apply keeps_clear|].
  split; [intros; by apply keeps_list|].
  split; [intros; by apply keeps_read|].
  split; [intros; by apply keeps_regenerate|].
  intros; by apply keeps_send.
Qed.
End Session.

Section SessionExamples.
Import PyStr Draft Monad Mailbox Spec Example.

(** C1, as stated.  Two handles are known from an earlier listing.  The
    provider lists three messages and faults on the metadata of the
    second: the call returns the error payload, handle 1 now names the
    first message of the new listing and handle 2 is gone. *)
Lemma list_emails_fault_rebuilds_index_map :
  let run := list_emails lossy (VInt 5) (VStr "is:unread") earlier in
  run.1 = Return (error_dict Double.not_found) /\
  index_map (mailbox earlier) !! 1 = Some "old1" /\
  index_map (mailbox earlier) !! 2 = Some "old2" /\
  index_map (mailbox run.2) !! 1 = Some "m1" /\
  index_map (mailbox run.2) !! 2 = None.
Proof. repeat split; reflexivity. Qed.

Lemma list_emails_fault_index_map_witness :
  (exists st',
     list_emails lossy (VInt 5) (VStr "is:unread") earlier
     = (Return (error_dict Double.not_found), st') /\
     forall h, index_map (mailbox st') !! h
               = handle_lookup [ {| ref_id := "m1" |} ] h)
  /\ (exists st',
        list_emails offline (VInt 5) (VStr "is:unread") earlier
        = (Return (error_dict "HttpError 503: Backend Error"), st') /\
        mailbox st' = mailbox earlier).
Proof.
  split.
  - apply (list_emails_fault_index_map lossy earlier (VInt 5)
             (VStr "is:unread") Double.not_found
             (Some [ {| ref_id := "m1" |} ])).
    exists Double.listing3, O,
      [Double.message "Ann <ann@example.com>" "Lunch" "aGk="], O.
    repeat split; reflexivity.
  - apply (list_emails_fault_index_map offline earlier (VInt 5)
             (VStr "is:unread") "HttpError 503: Backend Error" None).
    exists O. reflexivity.
Defined.

Lemma list_emails_numbers_handles_witness :
  exists (r : PyVal) (st1 : State nat),
    list_emails steady (VInt 5) (VStr "is:unread") earlier = (Return r, st1) /\
    listed r 3 /\
    (forall h, index_map (mailbox st1) !! h
               = handle_lookup Double.listing3 h) /\
    forall st2 : State nat,
      index_map (mailbox st2) = index_map (mailbox st1) ->
      forall h, ~ (1 <= h <= 3) ->
        (forall g t,
           read_email steady Double.b64_utf8 Double.OLLAMA_MODEL (VInt h) g t st2
           = (Return (invalid_number (VInt h)), st2)) /\
        (forall b, send_reply steady Double.mime_encode (VInt h) b st2
                   = (Return (invalid_number (VInt h)), st2)).
Proof.
  apply (list_emails_numbers_handles steady Double.b64_utf8
           Double.mime_encode Double.OLLAMA_MODEL earlier (VInt 5)
           (VStr "is:unread") Double.listing3 O
           (map snd Double.store3) O); reflexivity.
Defined.

Lemma send_reply_needs_pending_draft_witness :
  (exists d, pending_for (mailbox drafted) 2 d /\
             send_reply steady Double.mime_encode (VInt 2) VNone drafted
             = deliver steady Double.mime_encode 2 "m2" (VStr d) drafted)
  \/ ((forall d, ~ pending_for (mailbox drafted) 2 d) /\
      send_reply steady Double.mime_encode (VInt 2) VNone drafted
      = (Return no_draft, drafted)).
Proof.
  exact (send_reply_needs_pending_draft steady Double.mime_encode drafted
           2 "m2" eq_refl).
Defined.

(** C3, as stated.  The provider lists a message under an empty
    identifier; the listing stores it, so that handle 1 is present in the
    index map.  No draft is pending, yet [send_reply] for handle 1 with
    the body omitted does not answer that no draft is available: it
    answers that the number is invalid. *)
Lemma send_reply_empty_id_invalid_number :
  let st := (list_emails nameless (VInt 5) (VStr "is:unread") earlier).2 in
  index_map (mailbox st) !! 1 = Some EmptyString /\
  last_draft (mailbox st) = None /\
  send_reply nameless Double.mime_encode (VInt 1) VNone st
  = (Return (invalid_number (VInt 1)), st) /\
  invalid_number (VInt 1) <> no_draft.
Proof. repeat split; try reflexivity. discriminate. Qed.

Lemma send_reply_clears_own_draft_witness :
  let run := send_reply steady Double.mime_encode (VInt 2) VNone drafted in
  exists n, key_of (VInt 2) = Return (Some n) /\
    (last_number (mailbox drafted) = Some n ->
       last_draft (mailbox run.2) = None /\
       last_number (mailbox run.2) = None /\
       send_reply steady Double.mime_encode (VInt 2) VNone run.2
       = (Return no_draft, run.2)) /\
    (last_number (mailbox drafted) <> Some n ->
       last_draft (mailbox run.2) = last_draft (mailbox drafted) /\
       last_number (mailbox run.2) = last_number (mailbox drafted)).
Proof.
  apply (send_reply_clears_own_draft steady Double.mime_encode drafted
           (VInt 2) VNone
           (VDict [ ("success", VBool true);
                    ("sent_to", VStr "bob@example.com");
                    ("subject", VStr "Re: Report") ])).
  - reflexivity.
  - eexists _, _. reflexivity.
Defined.

Lemma draft_fields_set_together_witness :
  draft_inv (mailbox drafted) /\
  draft_inv (mailbox (send_reply steady Double.mime_encode (VInt 2) VNone
                        drafted).2) /\
  draft_inv (mailbox (read_email steady Double.b64_utf8 Double.OLLAMA_MODEL
                        (VInt 1) true "friendly" drafted).2).
Proof.
  assert (H : draft_inv (mailbox drafted)) by (split; discriminate).
  split; [exact H|].
  destruct (proj2 (draft_fields_set_together steady Double.b64_utf8
                     Double.mime_encode Double.OLLAMA_MODEL) drafted H)
    as (_ & _ & Hread & _ & Hsend).
  split; [apply Hsend|apply Hread].
Defined.
End SessionExamples.

(** ** Body extraction *)

Section BodyExtraction.
Import PyStr EmailUtils Spec.
Variable b64_utf8 : string -> Outcome string.

Local Opaque startswith String.eqb inline_data decode_body truthy.

(** The walk of the code and the search of the design document, side by
    side, on a payload without inline body: the code returns the body of
    the part that the search finds, or raises the fault of its decoding;
    it returns the empty text when the search finds nothing. *)
Lemma walk_agrees max_length : forall p nested,
  inline_data p = None ->
  plain_walk b64_utf8 max_length nested p = true ->
  match first_plain p with
  | Some d =>
      extract_email_body b64_utf8 p max_length
      = decode_body b64_utf8 d max_length /\
      (nested = true -> decodes_nonempty b64_utf8 max_length d = true)
  | None => extract_email_body b64_utf8 p max_length = Return EmptyString
  end.
Proof.
  fix IH 1. intros [m hs d ps] nested Hin.
  simpl. rewrite Hin. clear Hin.
  induction ps as [|part rest IHps]; [done|].
  unfold plain_data, is_multipart in *.
  destruct (if String.eqb (mimeType part) "text/plain"
            then inline_data part else None) as [dd|] eqn:Hplain.
  - intros Hw. split; [done|]. intros ->. exact Hw.
  - destruct (startswith "multipart/" (mimeType part)); [|exact IHps].
    destruct (inline_data part) as [?|] eqn:Hpart; [done|].
    intros Hw. apply andb_true_iff in Hw as [Hnested Hrest].
    pose proof (IH part true Hpart Hnested) as Hp.
    destruct (first_plain part) as [dd|].
    + destruct Hp as [-> Hne]. specialize (Hne eq_refl).
      split; [|by intros _].
      unfold decodes_nonempty in Hne.
      destruct (decode_body b64_utf8 dd max_length) as [b|e]; [|done].
      by rewrite Hne.
    + rewrite Hp.
      change (truthy EmptyString) with false. cbv iota. exact (IHps Hrest).
Qed.

Local Transparent startswith String.eqb inline_data decode_body truthy.

End BodyExtraction.

Section BodyExamples.
Import PyStr EmailUtils Spec Example.



(** C7, as stated, once more.  No part of the tree is plain text, and
    the claim gives the empty text, never an error; but the one part is
    a multipart part with a body of its own, and the walk, entering it,
    returns that body, or raises when it cannot be decoded. *)
Lemma extract_email_body_returns_multipart_body :
  first_plain (multipart_with_body "aGk=") = None /\
  spec_extract Double.b64_utf8 (multipart_with_body "aGk=") 3000
  = Return EmptyString /\
  extract_email_body Double.b64_utf8 (multipart_with_body "aGk=") 3000
  = Return "hi" /\
  first_plain (multipart_with_body "aGk") = None /\
  extract_email_body Double.b64_utf8 (multipart_with_body "aGk") 3000
  = Raise "Incorrect padding".
Proof. repeat split; reflexivity. Qed.
End BodyExamples.

(** ** The tool-dispatch loop *)


Section Dispatch.
Import PyStr Monad Mailbox Agent Spec.
Context {W : Type}.
Variable cap : Capabilities W.
Variable b64_utf8 : string -> Outcome string.
Variable mime_encode : string -> string -> PyVal -> Outcome string.
Variable OLLAMA_MODEL : string.
Variable json_loads : string -> Loaded.
Variable json_dumps : PyVal -> string.

(** *** What the tools do to the history and to the log *)

Lemma frame_refl n (st : State W) : frame n st st.
Proof.
  split; [done|]. exists []. rewrite app_nil_r. repeat split; [done|simpl; lia].
Qed.

(** Steps compose; their budgets add up. *)
Lemma frame_trans a b (st1 st2 st3 : State W) :
  frame a st1 st2 -> frame b st2 st3 -> frame (a + b) st1 st3.
Proof.
  intros [Hh1 (e1 & Hc1 & Hq1 & Hn1)] [Hh2 (e2 & Hc2 & Hq2 & Hn2)].
  split; [congruence|]. exists (e1 ++ e2).
  rewrite Hc2, Hc1, app_assoc. split; [done|].
  split; [by apply Forall_app|].
  rewrite filter_app, length_app. lia.
Qed.

Global Instance frame_preorder : PreOrder (@frame W 0).
Proof.
  split; [intros st; apply frame_refl|].
  intros a b c Hab Hbc. apply (frame_trans 0 0 a b c Hab Hbc).
Qed.

Lemma frame_bind a b {A B} (m : M (State W) A) (f : A -> M (State W) B) :
  always (frame a) m -> (forall x, always (frame b) (f x)) ->
  always (frame (a + b)) (bind m f).
Proof.
  intros Hm Hf st. unfold bind. specialize (Hm st).
  destruct (m st) as [[x|e] st1]; simpl in *.
  - eapply frame_trans; [exact Hm|apply Hf].
  - rewrite <- (Nat.add_0_r a) in Hm.
    replace (a + b)%nat with (a + 0 + b)%nat by lia.
    eapply frame_trans; [exact Hm|apply frame_refl].
Qed.

Lemma frame_try a b {A} (m : M (State W) A) h :
  always (frame a) m -> (forall e, always (frame b) (h e)) ->
  always (frame (a + b)) (try_except m h).
Proof.
  intros Hm Hh st. unfold try_except. specialize (Hm st).
  destruct (m st) as [[x|e] st1]; simpl in *.
  - rewrite <- (Nat.add_0_r a) in Hm.
    replace (a + b)%nat with (a + 0 + b)%nat by lia.
    eapply frame_trans; [exact Hm|apply frame_refl].
  - eapply frame_trans; [exact Hm|apply Hh].
Qed.

Lemma frame_invoke {A} c (h : W -> Outcome A * W) :
  quiet c = true -> is_llm_call c = false -> always (frame 0) (invoke c h).
Proof.
  intros Hq Hl st. unfold invoke. destruct (h (world st)). simpl.
  split; [done|]. exists [c]. split; [done|]. split; [by constructor|].
  rewrite filter_cons_False by by rewrite Hl. done.
Qed.

Lemma frame_get_session : always (@frame W 0) get_session.
Proof. intros st. reflexivity. Qed.

Lemma frame_update f : always (@frame W 0) (update_session f).
Proof. intros st. apply (frame_refl 0 st). Qed.

Hint Resolve frame_get_session frame_update : core.

(** The draft generator: one invocation of the Language-Model
    Capability. *)
Lemma frame_generate f s b t :
  always (frame 1) (_generate_draft cap OLLAMA_MODEL f s b t).
Proof.
  intros st. rewrite generate_draft_run.
  destruct (llm_generate_text cap _ _ _ (world st)) as [r w']. simpl.
  split; [done|]. eexists [_]. split; [done|]. split; [by constructor|done].
Qed.

Lemma frame_list_loop refs : forall i emails,
  always (frame 0) (list_loop cap i refs emails).
Proof.
  induction refs as [|r refs IH]; intros i emails; simpl.
  - apply always_ret; apply _.
  - repeat always_step; eauto. by apply frame_invoke.
Qed.

Lemma frame_list mr q : always (frame 0) (list_emails cap mr q).
Proof.
  unfold list_emails. repeat always_step; eauto using frame_list_loop.
  by apply frame_invoke.
Qed.

Lemma frame_resolve n : always (@frame W 0) (resolve n).
Proof. unfold resolve. repeat always_step; eauto. Qed.

Lemma frame_read n g t :
  always (frame 1) (read_email cap b64_utf8 OLLAMA_MODEL n g t).
Proof.
  unfold read_email, fetch_and_draft.
  apply (frame_bind 0 1); [apply frame_resolve|].
  intros [[k id]|]; [|intros st; apply frame_refl].
  apply (frame_try 1 0); [|intros e st; apply frame_refl].
  apply (frame_bind 0 1); [by apply frame_invoke|]. intros msg.
  apply (frame_bind 0 1); [intros st; apply frame_refl|]. intros body.
  apply (frame_bind 0 1); [apply frame_update|]. intros _.
  destruct g; [|intros st; apply frame_refl].
  apply (frame_bind 1 0); [apply frame_generate|]. intros draft.
  apply (frame_bind 0 0); [apply frame_update|]. intros _ st. apply frame_refl.
Qed.

Lemma frame_send n b : always (frame 0) (send_reply cap mime_encode n b).
Proof.
  unfold send_reply, deliver.
  repeat always_step; eauto using frame_resolve.
  all: by apply frame_invoke.
Qed.

(** *** The tools return to the loop *)

Lemma total_resolve n : hashable n = true -> total (@resolve W n).
Proof.
  intros Hk st. unfold hashable, resolve, bind, lift, get_session, ret in *.
  destruct (key_of n) as [[k|]|e]; simpl in *; try done.
  repeat case_match; done.
Qed.

Lemma total_list mr q : total (list_emails cap mr q).
Proof. unfold list_emails. apply total_try. intros e. apply total_ret. Qed.

Lemma total_read n g t :
  hashable n = true -> total (read_email cap b64_utf8 OLLAMA_MODEL n g t).
Proof.
  intros Hk. unfold read_email. apply total_bind; [by apply total_resolve|].
  intros [[k id]|]; [|apply total_ret].
  apply total_try. intros e. apply total_ret.
Qed.

Lemma total_send n b :
  hashable n = true -> total (send_reply cap mime_encode n b).
Proof.
  intros Hk. unfold send_reply. apply total_bind; [by apply total_resolve|].
  intros [[k id]|]; [|apply total_ret].
  apply total_bind; [done|]. intros m.
  destruct (body_to_send m k b); [|apply total_ret].
  apply total_try. intros e. apply total_ret.
Qed.

Local Abbreviation dispatch' :=
  (dispatch cap b64_utf8 mime_encode OLLAMA_MODEL json_loads json_dumps).
Local Abbreviation chat' :=
  (chat cap b64_utf8 mime_encode OLLAMA_MODEL json_loads json_dumps).
Local Abbreviation dispatchable' := (dispatchable json_loads).
Local Abbreviation tool_events' := (tool_events json_loads).

Lemma dispatchable_parsed tc :
  dispatchable' tc = true ->
  exists func_args, parsed_arguments json_loads tc = Return func_args.
Proof.
  unfold dispatchable.
  destruct (parsed_arguments json_loads tc) as [func_args|e]; [|done].
  by exists func_args.
Qed.

(** An exception of the parser other than [json.JSONDecodeError] ends
    the loop body before the name of the tool is looked at. *)
Lemma dispatch_parse_error tc e (st : State W) :
  parsed_arguments json_loads tc = Raise e ->
  dispatch' tc st = (Raise e, st).
Proof. intros H. unfold dispatch. by rewrite H. Qed.

Lemma bind_kwargs_ok tc t func_args :
  tool_functions (fn_name tc) = Some t ->
  parsed_arguments json_loads tc = Return func_args ->
  dispatchable' tc = true ->
  exists run,
    bind_kwargs cap b64_utf8 mime_encode OLLAMA_MODEL t func_args = Return run
    /\ total run /\ always (frame (drafts_of t)) run.
Proof.
  unfold dispatchable. intros -> ->.
  destruct func_args as [| | | |?|kw]; try done.
  unfold bind_kwargs.
  destruct (unexpected t kw); [done|].
  destruct t.
  - intros _. eexists. split; [reflexivity|].
    split; [apply total_list|apply frame_list].
  - destruct (kw_get "email_number" kw) as [n|]; [|done]. intros Hn.
    eexists. split; [reflexivity|].
    split; [by apply total_read|apply frame_read].
  - destruct (kw_get "email_number" kw) as [n|]; [|done]. intros Hn.
    eexists. split; [reflexivity|].
    split; [by apply total_send|apply frame_send].
Qed.

Lemma quiet_no_tool evs :
  Forall (fun c => quiet c = true) evs ->
  filter (fun c => is_tool_call c = true) evs = [].
Proof.
  induction 1 as [|c evs Hc _ IH]; [done|].
  rewrite filter_cons. destruct (decide _) as [Ht|]; [|done].
  unfold quiet in Hc. rewrite Ht in Hc. by rewrite andb_false_r in Hc.
Qed.

Lemma quiet_no_chat evs :
  Forall (fun c => quiet c = true) evs ->
  Forall (fun c => is_chat_call c = false) evs.
Proof.
  intros H. eapply Forall_impl; [exact H|]. intros c Hc. unfold quiet in Hc.
  by destruct (is_chat_call c).
Qed.

(** One turn of the loop body: one tool message, one entry of the
    dispatch table when the name is known, no chat request, and a draft
    only for [read_email]. *)
Lemma dispatch_one tc (st : State W) :
  dispatchable' tc = true ->
  exists out evs st',
    dispatch' tc st = (Return tt, st') /\
    conversation_history st' = conversation_history st ++ [MsgTool out] /\
    calls st' = calls st ++ evs /\
    filter (fun c => is_tool_call c = true) evs = tool_events' [tc] /\
    Forall (fun c => is_chat_call c = false) evs /\
    (length (filter (fun c => is_llm_call c = true) evs) <= drafts [tc])%nat.
Proof.
  intros Hd. destruct (dispatchable_parsed tc Hd) as [func_args Hp].
  unfold dispatch, tool_events, drafts. simpl. rewrite Hp.
  rewrite (bind_return (lift (Return func_args)) _ st func_args st eq_refl).
  destruct (tool_functions (fn_name tc)) as [t|] eqn:Ht.
  - destruct (bind_kwargs_ok tc t func_args Ht Hp Hd)
      as (run & Hb & Htot & Hf).
    unfold call_tool. rewrite Hb.
    unfold bind at 1. unfold bind at 1. unfold log_call, modify at 1.
    match goal with |- context [run ?s] => set (st1 := s) end.
    specialize (Htot st1). specialize (Hf st1).
    destruct (run st1) as [[r|e] st2]; [|done]. simpl in *.
    destruct Hf as [Hh (evs & Hc & Hq & Hn)].
    eexists _, (CallTool _ _ :: evs), _. split; [reflexivity|]. simpl.
    split; [by rewrite Hh|].
    split; [rewrite Hc; subst st1; simpl; by rewrite <- app_assoc|].
    split; [|split].
    + rewrite filter_cons_True by done. by rewrite quiet_no_tool.
    + constructor; [done|by apply quiet_no_chat].
    + rewrite filter_cons_False by done. lia.
  - eexists _, [], _. unfold bind, ret, modify. split; [reflexivity|]. simpl.
    split; [done|]. rewrite app_nil_r. repeat split; try done.
Qed.

(** The loop over the tool calls, by induction on their list. *)
Lemma dispatch_all tcs : forall st : State W,
  Forall (fun tc => dispatchable' tc = true) tcs ->
  exists outs evs st',
    for_each tcs dispatch' st = (Return tt, st') /\
    length outs = length tcs /\
    conversation_history st' = conversation_history st ++ map MsgTool outs /\
    calls st' = calls st ++ evs /\
    filter (fun c => is_tool_call c = true) evs = tool_events' tcs /\
    Forall (fun c => is_chat_call c = false) evs /\
    (length (filter (fun c => is_llm_call c = true) evs) <= drafts tcs)%nat.
Proof.
  induction tcs as [|tc tcs IH]; intros st Hall.
  - exists [], [], st. simpl. rewrite !app_nil_r. repeat split; try done.
  - apply Forall_cons in Hall as [Htc Hall].
    destruct (dispatch_one tc st Htc)
      as (out & e1 & st1 & Hrun & Hh & Hc & Hf & Hq & Hn).
    destruct (IH st1 Hall)
      as (outs & e2 & st2 & Hrun2 & Hlen & Hh2 & Hc2 & Hf2 & Hq2 & Hn2).
    exists (out :: outs), (e1 ++ e2), st2. simpl.
    rewrite (bind_return _ _ _ _ _ Hrun). split; [done|].
    split; [by rewrite Hlen|].
    split; [by rewrite Hh2, Hh, <- app_assoc|].
    split; [by rewrite Hc2, Hc, <- app_assoc|].
    split; [|split; [by apply Forall_app|]].
    + rewrite filter_app, Hf, Hf2. unfold tool_events. simpl.
      by destruct (tool_functions (fn_name tc)),
                  (parsed_arguments json_loads tc).
    + rewrite filter_app, length_app. unfold drafts in *. simpl in *. lia.
Qed.

End Dispatch.

Section DispatchExamples.
Import PyStr Monad Mailbox Agent Spec Example.

Local Abbreviation run_chat cap :=
  (chat cap Double.b64_utf8 Double.mime_encode Double.OLLAMA_MODEL
        Double.json_loads Double.json_dumps).



(** C9.  The first response carries a [read_email] tool call whose
    arguments are text that is no JSON.  The arguments do degrade to the
    empty dictionary, but the wrapper is then called without its
    required argument: the call raises, no tool message is appended, no
    follow-up request is made, and the turn ends with the exception
    instead of text. *)
Theorem chat_aborts_on_unparsable_arguments :
  let run := run_chat garbler "read the first one" after_listing in
  map (parsed_arguments Double.json_loads) (tool_calls garbled)
  = [Return (VDict [])] /\
  run.1 = Raise "GmailAgent._tool_read_email() missing 1 required positional argument: 'email_number'" /\
  conversation_history run.2
  = [MsgUser "read the first one"; MsgAssistantRaw garbled] /\
  length (calls run.2) = 1%nat.
Proof. repeat split; reflexivity. Qed.
End DispatchExamples.

(** * Further properties

    What the rest of the code shows of itself: the helpers of
    [email_utils.py], the other methods of the session, the turn of the
    agent as a whole, the client of the model, and the endpoints of the
    application. *)

(** ** Addresses, subjects and bodies *)

Section Addresses.
Import PyStr EmailUtils.

Lemma after_last_app x (s t : string) :
  contains_char x t = false ->
  after_last x (s +:+ String x t) = t.
Proof.
  intros Ht. induction s as [|c s IH].
  - change (EmptyString +:+ String x t) with (String x t). simpl.
    by rewrite Ht, Ascii.eqb_refl.
  - rewrite app_cons. simpl. rewrite contains_app. simpl.
    rewrite Ascii.eqb_refl, orb_true_r. simpl. exact IH.
Qed.

Lemma rstrip_char_absent x (s : string) :
  contains_char x s = false -> rstrip_char x s = s.
Proof.
  induction s as [|c s IH]; [done|]. simpl. intros H.
  apply orb_false_iff in H as [Hc Hs]. rewrite (IH Hs).
  destruct s; [by rewrite Hc|done].
Qed.

Lemma rstrip_char_app x (s : string) :
  contains_char x s = false ->
  rstrip_char x (s +:+ String x EmptyString) = s.
Proof.
  induction s as [|c s IH].
  - intros _. change (EmptyString +:+ String x EmptyString)
      with (String x EmptyString). simpl. by rewrite Ascii.eqb_refl.
  - intros H. simpl in H. apply orb_false_iff in H as [Hc Hs].
    rewrite app_cons. simpl. rewrite (IH Hs).
    destruct s; [by rewrite Hc|done].
Qed.

(** The address of a sender written [Name <address>] is the text between
    the last opening bracket and the closing one, stripped; whatever
    precedes the last opening bracket plays no role. *)
Theorem parse_email_address_bracketed (name addr : string) :
  contains_char "<" addr = false -> contains_char ">" addr = false ->
  parse_email_address (name +:+ "<" +:+ addr +:+ ">") = strip addr.
Proof.
  intros Hlt Hgt. unfold parse_email_address.
  rewrite !contains_app. simpl. rewrite !orb_true_r. simpl.
  change ("<" +:+ addr +:+ ">") with (String "<" (addr +:+ ">")).
  rewrite after_last_app by (by rewrite contains_app, Hlt).
  by rewrite rstrip_char_app.
Qed.

End Addresses.

Section Replies.
Import PyStr EmailUtils.
Variable mime_encode : string -> string -> PyVal -> Outcome string.

Lemma reply_subject_prefixed (subject : string) :
  startswith "re:" (lower (reply_subject subject)) = true.
Proof.
  unfold reply_subject.
  destruct (startswith "re:" (lower subject)) eqn:E; [exact E|].
  reflexivity.
Qed.

End Replies.

Section Bodies.
Import PyStr EmailUtils.
Variable b64_utf8 : string -> Outcome string.

Lemma take_length n (s : string) : (String.length (take n s) <= n)%nat.
Proof.
  revert s. induction n as [|n IH]; intros [|c s]; simpl; try lia.
  specialize (IH s). lia.
Qed.

Lemma decode_body_bounded d n :
  0 <= n ->
  match decode_body b64_utf8 d n with
  | Return b => (String.length b <= Z.to_nat n)%nat
  | Raise e => exists d', b64_utf8 d' = Raise e
  end.
Proof.
  intros Hn. unfold decode_body.
  destruct (b64_utf8 d) as [body|e] eqn:E; [|by exists d].
  unfold slice_to. rewrite (proj2 (Z.leb_le 0 n) Hn). apply take_length.
Qed.

Local Opaque startswith String.eqb inline_data decode_body truthy.

(** The body returned is never longer than the limit, wherever in the
    tree it was found; and the only way for the extraction to raise is a
    body that the decoder rejects. *)
Theorem extract_email_body_bounded (max_length : Z) : forall p : Payload,
  0 <= max_length ->
  match extract_email_body b64_utf8 p max_length with
  | Return b => (String.length b <= Z.to_nat max_length)%nat
  | Raise e => exists d, b64_utf8 d = Raise e
  end.
Proof.
  intros p Hn. revert p. fix IH 1. intros [m hs d ps]. simpl.
  destruct (inline_data (MkPayload m hs d ps)) as [dd|];
    [by apply decode_body_bounded|].
  induction ps as [|part rest IHps]; [simpl; lia|].
  destruct (if String.eqb (mimeType part) "text/plain"
            then inline_data part else None) as [dd|];
    [by apply decode_body_bounded|].
  destruct (startswith "multipart/" (mimeType part)); [|exact IHps].
  pose proof (IH part) as Hp.
  destruct (extract_email_body b64_utf8 part max_length) as [b|e]; [|exact Hp].
  destruct (truthy b); [exact Hp|exact IHps].
Qed.

Local Transparent startswith String.eqb inline_data decode_body truthy.
End Bodies.

(** ** The text of a draft *)

Section DraftText.
Import PyStr Regex Draft Monad Mailbox Spec Behaviour.

Lemma strip_starts (s : string) :
  truthy (strip s) = true -> starts_with_text (strip s).
Proof.
  unfold strip. pose proof (lstrip_head s) as H.
  destruct (lstrip s) as [|c r] eqn:E; [done|].
  destruct (rstrip_head _ c r eq_refl H) as [r' ->]. done.
Qed.

Lemma strip_keeps_start (s : string) :
  starts_with_text s -> starts_with_text (strip s).
Proof.
  destruct s as [|c r]; [done|]. intros Hc. unfold strip.
  assert (lstrip (String c r) = String c r) as -> by (simpl; by rewrite Hc).
  destruct (rstrip_head _ c r eq_refl Hc) as [r' ->]. done.
Qed.

Lemma sub_keeps_start p (s : string) :
  at_line_break p -> starts_with_text s -> starts_with_text (sub p s).
Proof.
  intros Hp. destruct s as [|c r]; [done|]. intros Hc.
  unfold sub. simpl. rewrite (Hp c r); [done|].
  intros ->. by vm_compute in Hc.
Qed.

Lemma strip_closings_keeps_start (s : string) :
  starts_with_text s -> starts_with_text (strip_closings s).
Proof.
  unfold strip_closings.
  pose proof closing_patterns_at_line_break as Hall. revert s.
  induction Hall as [|p ps Hp _ IH]; intros s Hs; [done|]. simpl.
  apply IH. by apply strip_keeps_start, sub_keeps_start.
Qed.

Lemma fold_strip_stripped ps (s : string) :
  strip s = s ->
  strip (fold_left (fun d p => strip (sub p d)) ps s)
  = fold_left (fun d p => strip (sub p d)) ps s.
Proof.
  revert s. induction ps as [|p ps IH]; intros s Hs; [done|]. simpl.
  apply IH. apply strip_idem.
Qed.

Lemma clean_draft_text subject out :
  starts_with_text (clean_draft subject out) /\
  strip (clean_draft subject out) = clean_draft subject out.
Proof.
  unfold clean_draft.
  set (draft := if negb (truthy out) || negb (truthy (strip out))
                then fallback_sentence subject else out).
  assert (Ht : truthy (strip draft) = true).
  { subst draft. destruct (truthy out) eqn:E1; simpl.
    - destruct (truthy (strip out)) eqn:E2; simpl; [done|].
      by rewrite strip_fallback.
    - by rewrite strip_fallback. }
  split.
  - by apply strip_closings_keeps_start, strip_starts.
  - apply fold_strip_stripped, strip_idem.
Qed.

Lemma starts_truthy s : starts_with_text s -> truthy s = true.
Proof. by destruct s. Qed.

Context {W : Type}.
Variable cap : Capabilities W.
Variable OLLAMA_MODEL : string.

(** A draft is never the signature alone.  Whatever the model answers,
    or if it faults, the text that precedes the signature is not empty,
    and has no blank space at its start or at its end. *)
Theorem draft_text_never_blank (st : State W) from_addr subject body tone :
  exists text,
    (_generate_draft cap OLLAMA_MODEL from_addr subject body tone st).1
    = Return (text +:+ nl +:+ nl +:+ signature (config_of tone)) /\
    truthy text = true /\ strip text = text.
Proof.
  rewrite generate_draft_run.
  destruct (llm_generate_text cap _ _ _ (world st)) as [[out|e] w']; simpl.
  - exists (clean_draft subject out). split; [done|].
    destruct (clean_draft_text subject out) as [Hs Hst].
    split; [by apply starts_truthy|done].
  - exists (fallback_sentence subject). split; [done|].
    split; [done|apply strip_fallback].
Qed.
End DraftText.

(** ** The session, method by method *)

Section SessionSteps.
Import PyStr Draft EmailUtils Monad Mailbox Spec Behaviour.
Context {W : Type}.
Variable cap : Capabilities W.
Variable b64_utf8 : string -> Outcome string.
Variable mime_encode : string -> string -> PyVal -> Outcome string.
Variable OLLAMA_MODEL : string.

Global Instance keeps_drafts_preorder : PreOrder (@keeps_drafts W).
Proof.
  split.
  - intros st. by repeat split.
  - intros a b c (?&?&?&?) (?&?&?&?). repeat split; congruence.
Qed.

Lemma drafts_invoke {A} c (h : W -> Outcome A * W) :
  always keeps_drafts (invoke c h).
Proof. intros st. unfold invoke. destruct (h (world st)). by repeat split. Qed.

Lemma drafts_index f :
  always (@keeps_drafts W) (update_session (set_index_map f)).
Proof. intros st. by repeat split. Qed.

Lemma drafts_list_loop refs : forall i emails,
  always keeps_drafts (list_loop cap i refs emails).
Proof.
  induction refs as [|r refs IH]; intros i emails; simpl.
  - apply always_ret; apply _.
  - repeat always_step; eauto using drafts_invoke, drafts_index.
Qed.

Lemma drafts_list mr q : always keeps_drafts (list_emails cap mr q).
Proof.
  unfold list_emails.
  repeat always_step; eauto using drafts_invoke, drafts_index, drafts_list_loop.
Qed.

(** A listing never touches the pending draft.  [list_emails] always
    returns, a listing or an error payload, and whatever the provider
    answers, the pending draft, its number, the cache of the messages
    read and the history are as before: only the handles are renumbered. *)
Theorem list_emails_keeps_pending_draft (st : State W) (mr q : PyVal) :
  let run := list_emails cap mr q st in
  is_return run.1 = true /\
  last_draft (mailbox run.2) = last_draft (mailbox st) /\
  last_number (mailbox run.2) = last_number (mailbox st) /\
  email_cache (mailbox run.2) = email_cache (mailbox st) /\
  conversation_history run.2 = conversation_history st.
Proof.
  split; [apply total_list|]. apply (drafts_list mr q st).
Qed.


(** *** Reading *)

(** The [try] block of [read_email], against the answers of the
    capabilities. *)
Lemma fetch_and_draft_run (st : State W) number n id g tone :
  fetch_and_draft cap b64_utf8 OLLAMA_MODEL number n id g tone st =
  match svc_get cap id Full (world st) with
  | (Raise e, w1) => (Return (error_dict e), logged st w1 [CallGet id Full])
  | (Return msg, w1) =>
      match extract_email_body b64_utf8 (payload msg) 3000 with
      | Raise e => (Return (error_dict e), logged st w1 [CallGet id Full])
      | Return body =>
          let hs := headers_dict (headers (payload msg)) in
          let from_addr := default EmptyString (hs !! "From") in
          let subject := default EmptyString (hs !! "Subject") in
          let result :=
            [ ("number", number); ("id", VStr id);
              ("from", VStr (default "Unknown" (hs !! "From")));
              ("subject", VStr (default "(No Subject)" (hs !! "Subject")));
              ("date", VStr (default EmptyString (hs !! "Date")));
              ("body", VStr body);
              ("thread_id", opt_str (threadId msg)) ] in
          let st1 :=
            set_mailbox (set_email_cache (insert n
              {| cached_from := from_addr; cached_subject := subject;
                 cached_body := body |})) (logged st w1 [CallGet id Full]) in
          if g then
            match _generate_draft cap OLLAMA_MODEL from_addr subject body tone
                    st1 with
            | (Return draft, st2) =>
                (Return (VDict (result ++ [ ("draft_reply", VStr draft);
                                            ("tone", VStr tone) ])),
                 set_mailbox (set_draft (Some draft) (Some n)) st2)
            | (Raise e, st2) => (Return (error_dict e), st2)
            end
          else (Return (VDict result), st1)
      end
  end.
Proof.
  unfold fetch_and_draft, try_except, bind at 1, invoke at 1.
  destruct (svc_get cap id Full (world st)) as [[msg|e] w1]; [|done].
  unfold bind at 1, lift at 1.
  destruct (extract_email_body b64_utf8 (payload msg) 3000) as [body|e];
    [|done].
  unfold bind at 1, update_session, modify at 1. cbv zeta.
  destruct g; [|done].
  unfold bind at 1.
  destruct (_generate_draft _ _ _ _ _ _ _) as [[draft|e] st2]; done.
Qed.

(** The draft generator leaves the session and the history alone. *)
Lemma generate_draft_state (st : State W) f s b t :
  exists text w',
    _generate_draft cap OLLAMA_MODEL f s b t st =
    (Return (text +:+ nl +:+ nl +:+ signature (config_of t)),
     logged st w' [CallGenerate (build_prompt f s b t) OLLAMA_MODEL
                                (temperature (config_of t))]).
Proof.
  rewrite generate_draft_run.
  destruct (llm_generate_text cap _ _ _ (world st)) as [[out|e] w'];
    eexists _, w'; reflexivity.
Qed.

Lemma draft_truthy text sig : truthy (text +:+ nl +:+ nl +:+ sig) = true.
Proof. apply truthy_app_r. done. Qed.


Lemma resolve_int (st : State W) h :
  resolve (VInt h) st =
  (Return match index_map (mailbox st) !! h with
          | Some id => if truthy id then Some (h, id) else None
          | None => None
          end, st).
Proof.
  unfold resolve, bind, lift, get_session, ret. simpl.
  by destruct (index_map (mailbox st) !! h).
Qed.

(** When [read_email] does not return the message (it returns an error
    payload, or raises on a handle that cannot be looked up), the session
    and the history are as before: the cache and the pending draft are
    written only after the message was fetched and its body decoded. *)
Theorem read_email_failure_keeps_session (st : State W) number g tone o st' :
  read_email cap b64_utf8 OLLAMA_MODEL number g tone st = (o, st') ->
  match o with Return r => is_error r | Raise _ => True end ->
  mailbox st' = mailbox st /\
  conversation_history st' = conversation_history st.
Proof.
  unfold read_email.
  destruct (resolve number st) as [[[[n id]|]|e] st1] eqn:Hr;
    pose proof (resolve_state _ _ _ _ Hr) as ->.
  - rewrite (bind_return _ _ _ _ _ Hr), fetch_and_draft_run.
    destruct (svc_get cap id Full (world st)) as [[msg|e] w1];
      [|by intros [= <- <-]].
    destruct (extract_email_body _ _ _) as [body|e]; [|by intros [= <- <-]].
    cbv zeta. destruct g.
    + match goal with |- context [_generate_draft _ _ ?f ?s ?b ?t ?s1] =>
        destruct (generate_draft_state s1 f s b t) as (text & w' & ->) end.
      intros [= <- <-] (e & [=]).
    + intros [= <- <-] (e & [=]).
  - rewrite (bind_return _ _ _ _ _ Hr). by intros [= <- <-].
  - rewrite (bind_raise _ _ _ _ _ Hr). by intros [= <- <-].
Qed.

(** A message read with a draft can be answered at once: the draft
    returned ends with the signature of the tone, it is the pending draft
    of the handle, and [send_reply] with no body is the delivery of that
    very text to the message read. *)
Theorem read_email_draft_can_be_sent (st : State W) h id tone r st' :
  index_map (mailbox st) !! h = Some id -> truthy id = true ->
  read_email cap b64_utf8 OLLAMA_MODEL (VInt h) true tone st = (Return r, st') ->
  ~ is_error r ->
  exists text,
    let d := text +:+ nl +:+ nl +:+ signature (config_of tone) in
    entry "draft_reply" r = Some (VStr d) /\
    pending_for (mailbox st') h d /\
    send_reply cap mime_encode (VInt h) VNone st'
    = deliver cap mime_encode h id (VStr d) st'.
Proof.
  intros Hm Ht. unfold read_email.
  rewrite (bind_return _ _ _ _ _ (resolve_present st h id Hm Ht)).
  rewrite fetch_and_draft_run.
  destruct (svc_get cap id Full (world st)) as [[msg|e] w1].
  2: { intros [= <- <-] []. by eexists. }
  destruct (extract_email_body _ _ _) as [body|e].
  2: { intros [= <- <-] []. by eexists. }
  cbv zeta.
  match goal with |- context [_generate_draft _ _ ?f ?s ?b ?t ?s1] =>
    destruct (generate_draft_state s1 f s b t) as (text & w' & ->) end.
  intros [= <- <-] _. exists text. cbv zeta.
  split; [reflexivity|].
  split; [split; [done|]; split; [apply draft_truthy|done]|].
  rewrite (send_reply_run _ _ _ (VInt h) h id VNone).
  - unfold body_to_send. simpl. rewrite draft_truthy.
    rewrite bool_decide_eq_false_2 by (by intros []). done.
  - apply resolve_present; [exact Hm|exact Ht].
Qed.

(** Reading without a draft never invokes the Language-Model Capability
    and leaves the handles and the pending draft as they are: the log
    grows by the one request for the message, or by nothing. *)
Theorem read_email_without_draft (st : State W) number tone :
  let run := read_email cap b64_utf8 OLLAMA_MODEL number false tone st in
  index_map (mailbox run.2) = index_map (mailbox st) /\
  last_draft (mailbox run.2) = last_draft (mailbox st) /\
  last_number (mailbox run.2) = last_number (mailbox st) /\
  conversation_history run.2 = conversation_history st /\
  (calls run.2 = calls st \/
   exists n id, key_of number = Return (Some n) /\
                index_map (mailbox st) !! n = Some id /\
                calls run.2 = calls st ++ [CallGet id Full]).
Proof.
  cbv zeta. unfold read_email.
  destruct (resolve number st) as [[[[n id]|]|e] st1] eqn:Hr;
    pose proof (resolve_state _ _ _ _ Hr) as ->.
  - rewrite (bind_return _ _ _ _ _ Hr), fetch_and_draft_run.
    destruct (resolve_some _ _ _ _ _ Hr) as (Hk & Hm & _).
    destruct (svc_get cap id Full (world st)) as [[msg|e] w1].
    + destruct (extract_email_body _ _ _) as [body|e]; simpl;
        repeat split; try done; right; by exists n, id.
    + simpl. repeat split; try done. right. by exists n, id.
  - rewrite (bind_return _ _ _ _ _ Hr). simpl. repeat split; try done. by left.
  - rewrite (bind_raise _ _ _ _ _ Hr). simpl. repeat split; try done. by left.
Qed.


(** *** Regenerating *)

Lemma regenerate_draft_run (st : State W) number tone :
  regenerate_draft cap OLLAMA_MODEL number tone st =
  match key_of number with
  | Raise e => (Raise e, st)
  | Return k =>
      match k ≫= (fun n => (fun c => (n, c)) <$> email_cache (mailbox st) !! n) with
      | None => (Return (not_cached number), st)
      | Some (n, c) =>
          match _generate_draft cap OLLAMA_MODEL (cached_from c)
                  (cached_subject c) (cached_body c) tone st with
          | (Return d, st1) =>
              (Return (VDict [ ("number", number); ("draft_reply", VStr d);
                               ("tone", VStr tone) ]),
               set_mailbox (set_draft (Some d) (Some n)) st1)
          | (Raise e, st1) => (Return (error_dict e), st1)
          end
      end
  end.
Proof.
  unfold regenerate_draft, bind at 1, lift at 1.
  destruct (key_of number) as [k|e]; [|done].
  unfold bind at 1, get_session at 1.
  destruct (k ≫= _) as [[n c]|]; [|done].
  unfold try_except, bind at 1.
  by destruct (_generate_draft _ _ _ _ _ _ _) as [[d|e] st1].
Qed.

(** [regenerate_draft] works from the cache alone.  For a handle that was
    never read it returns its error and does nothing.  For a cached
    handle it always returns a draft: it makes one request to the
    Language-Model Capability, with the temperature of the tone, and
    none to the Mail Capability; the draft ends with the signature of
    the tone and becomes the pending draft of the handle; the handles and
    the cache stay as they are.  The prompt of the request is built from
    the cached sender, subject and body and the tone in capitals; this is
    stated for a tone whose capitals are characters of this file. *)
Theorem regenerate_draft_from_cache (st : State W) (h : Z) (tone : string) :
  match email_cache (mailbox st) !! h with
  | None =>
      regenerate_draft cap OLLAMA_MODEL (VInt h) tone st
      = (Return (not_cached (VInt h)), st)
  | Some c =>
      exists text prompt st',
        let d := text +:+ nl +:+ nl +:+ signature (config_of tone) in
        regenerate_draft cap OLLAMA_MODEL (VInt h) tone st
        = (Return (VDict [ ("number", VInt h); ("draft_reply", VStr d);
                           ("tone", VStr tone) ]), st') /\
        pending_for (mailbox st') h d /\
        index_map (mailbox st') = index_map (mailbox st) /\
        email_cache (mailbox st') = email_cache (mailbox st) /\
        conversation_history st' = conversation_history st /\
        calls st' = calls st ++
          [CallGenerate prompt OLLAMA_MODEL (temperature (config_of tone))] /\
        (upper_known tone = true ->
         prompt = build_prompt (cached_from c) (cached_subject c)
                               (cached_body c) tone)
  end.
Proof.
  rewrite regenerate_draft_run. simpl.
  destruct (email_cache (mailbox st) !! h) as [c|]; [|done]. simpl.
  destruct (generate_draft_state st (cached_from c) (cached_subject c)
              (cached_body c) tone) as (text & w' & ->).
  exists text. eexists _, _. cbv zeta. split; [reflexivity|]. simpl.
  split; [split; [done|]; split; [apply draft_truthy|done]|]. done.
Qed.

(** What [read_email] caches is what [regenerate_draft] works from: once
    a message was read, with or without a draft, a draft can be
    regenerated for its handle in any tone, with one request to the
    Language-Model Capability; for a tone whose capitals are characters
    of this file, the prompt of that request is the one built from the
    cached message, whose body is the body that was returned. *)
Theorem read_email_then_regenerate (st : State W) number g tone r st' :
  read_email cap b64_utf8 OLLAMA_MODEL number g tone st = (Return r, st') ->
  ~ is_error r ->
  exists n c,
    key_of number = Return (Some n) /\
    email_cache (mailbox st') !! n = Some c /\
    entry "body" r = Some (VStr (cached_body c)) /\
    forall tone', exists text prompt st'',
      let d := text +:+ nl +:+ nl +:+ signature (config_of tone') in
      regenerate_draft cap OLLAMA_MODEL number tone' st'
      = (Return (VDict [ ("number", number); ("draft_reply", VStr d);
                         ("tone", VStr tone') ]), st'') /\
      pending_for (mailbox st'') n d /\
      calls st'' = calls st' ++
        [CallGenerate prompt OLLAMA_MODEL (temperature (config_of tone'))] /\
      (upper_known tone' = true ->
       prompt = build_prompt (cached_from c) (cached_subject c)
                             (cached_body c) tone').
Proof.
  unfold read_email.
  destruct (resolve number st) as [[[[n id]|]|e] st1] eqn:Hr;
    pose proof (resolve_state _ _ _ _ Hr) as ->.
  2: { rewrite (bind_return _ _ _ _ _ Hr). intros [= <- <-] []. by eexists. }
  2: { rewrite (bind_raise _ _ _ _ _ Hr). done. }
  destruct (resolve_some _ _ _ _ _ Hr) as (Hk & _ & _).
  rewrite (bind_return _ _ _ _ _ Hr), fetch_and_draft_run.
  destruct (svc_get cap id Full (world st)) as [[msg|e] w1].
  2: { intros [= <- <-] []. by eexists. }
  destruct (extract_email_body _ _ _) as [body|e].
  2: { intros [= <- <-] []. by eexists. }
  cbv zeta.
  assert (Hregen : forall (s : State W) c,
    email_cache (mailbox s) !! n = Some c ->
    forall tone', exists text prompt st'',
      let d := text +:+ nl +:+ nl +:+ signature (config_of tone') in
      regenerate_draft cap OLLAMA_MODEL number tone' s
      = (Return (VDict [ ("number", number); ("draft_reply", VStr d);
                         ("tone", VStr tone') ]), st'') /\
      pending_for (mailbox st'') n d /\
      calls st'' = calls s ++
        [CallGenerate prompt OLLAMA_MODEL (temperature (config_of tone'))] /\
      (upper_known tone' = true ->
       prompt = build_prompt (cached_from c) (cached_subject c)
                             (cached_body c) tone')).
  { intros s c Hc tone'. rewrite regenerate_draft_run, Hk. simpl.
    rewrite Hc. simpl.
    destruct (generate_draft_state s (cached_from c) (cached_subject c)
                (cached_body c) tone') as (text & w' & ->).
    eexists _, _, _. cbv zeta. split; [reflexivity|]. simpl.
    split; [split; [done|]; split; [apply draft_truthy|done]|]. done. }
  destruct g.
  - match goal with |- context [_generate_draft _ _ ?f ?s ?b ?t ?s1] =>
      destruct (generate_draft_state s1 f s b t) as (text & w' & ->) end.
    intros [= <- <-] _. eexists n, _. split; [done|].
    split; [simpl; apply lookup_insert_eq|].
    split; [reflexivity|]. eapply Hregen. simpl. apply lookup_insert_eq.
  - intros [= <- <-] _. eexists n, _. split; [done|].
    split; [simpl; apply lookup_insert_eq|].
    split; [reflexivity|]. eapply Hregen. simpl. apply lookup_insert_eq.
Qed.


(** *** Sending *)

(** The [try] block of [send_reply], against the answers of the
    provider. *)
Lemma deliver_run (st : State W) n id body :
  let get := CallGet id (Metadata reply_headers) in
  deliver cap mime_encode n id body st =
  match svc_get cap id (Metadata reply_headers) (world st) with
  | (Raise e, w1) => (Return (error_dict e), logged st w1 [get])
  | (Return orig, w1) =>
      let hs := headers_dict (headers (payload orig)) in
      let to_addr := parse_email_address (default EmptyString (hs !! "From")) in
      let subject := default EmptyString (hs !! "Subject") in
      match create_reply_message mime_encode to_addr subject body
              (threadId orig) with
      | Raise e => (Return (error_dict e), logged st w1 [get])
      | Return msg =>
          match svc_send cap msg w1 with
          | (Raise e, w2) =>
              (Return (error_dict e), logged st w2 [get; CallSend msg])
          | (Return _, w2) =>
              (Return (success to_addr (reply_subject subject)),
               set_mailbox
                 (if bool_decide (last_number (mailbox st) = Some n)
                  then set_draft None None else (fun m => m))
                 (logged st w2 [get; CallSend msg]))
          end
      end
  end.
Proof.
  cbv zeta. unfold deliver, try_except, bind at 1, invoke at 1.
  destruct (svc_get cap id _ (world st)) as [[orig|e] w1]; [|done].
  unfold bind at 1, lift at 1.
  destruct (create_reply_message _ _ _ _ _) as [msg|e]; [|done].
  unfold bind at 1, invoke at 1. simpl.
  destruct (svc_send cap msg w1) as [[[]|e] w2]; simpl.
  - unfold bind at 1, get_session at 1. simpl.
    destruct (bool_decide (last_number (mailbox st) = Some n)).
    + unfold bind, update_session, modify, ret, logged. simpl.
      by rewrite <- app_assoc.
    + unfold bind, ret, logged, set_mailbox. simpl.
      rewrite <- app_assoc. by destruct (mailbox st).
  - unfold logged. simpl. by rewrite <- app_assoc.
Qed.

(** Unless [send_reply] reports success, the session is as before: a
    reply that could not be delivered leaves its draft pending, to be
    sent again.  When it reports success, the log shows the request for
    the headers of the original followed by the one message sent; the
    message is encoded for the address parsed from the sender of the
    original, with its subject, prefixed if need be, and is put in the
    thread of the original; and the recipient and subject reported are
    those of the message. *)
Theorem send_reply_reports_what_it_sent (st : State W) number body :
  match send_reply cap mime_encode number body st with
  | (Return r, st') =>
      (~ is_success r /\ mailbox st' = mailbox st)
      \/ (exists n id orig w1 msg b,
            key_of number = Return (Some n) /\
            index_map (mailbox st) !! n = Some id /\
            body_to_send (mailbox st) n body = Some b /\
            svc_get cap id (Metadata reply_headers) (world st)
            = (Return orig, w1) /\
            let hs := headers_dict (headers (payload orig)) in
            let to_addr :=
              parse_email_address (default EmptyString (hs !! "From")) in
            let subject :=
              reply_subject (default EmptyString (hs !! "Subject")) in
            r = success to_addr subject /\
            mime_encode to_addr subject b = Return (raw msg) /\
            reply_threadId msg
            = (t ← threadId orig; if truthy t then Some t else None) /\
            calls st' = calls st ++ [CallGet id (Metadata reply_headers);
                                     CallSend msg])
  | (Raise _, st') => st' = st
  end.
Proof.
  unfold send_reply.
  destruct (resolve number st) as [[[[n id]|]|e] st1] eqn:Hr;
    pose proof (resolve_state _ _ _ _ Hr) as ->.
  2: { rewrite (bind_return _ _ _ _ _ Hr). left.
       split; [by intros (? & ? & [=])|done]. }
  2: { by rewrite (bind_raise _ _ _ _ _ Hr). }
  destruct (resolve_some _ _ _ _ _ Hr) as (Hk & Hm & _).
  rewrite (bind_return _ _ _ _ _ Hr).
  rewrite (bind_return get_session _ st (mailbox st) st eq_refl).
  destruct (body_to_send (mailbox st) n body) as [b|] eqn:Hb.
  2: { left. split; [by intros (? & ? & [=])|done]. }
  rewrite deliver_run. cbv zeta.
  destruct (svc_get cap id _ (world st)) as [[orig|e] w1] eqn:Hget.
  2: { left. split; [by intros (? & ? & [=])|done]. }
  unfold create_reply_message.
  destruct (mime_encode _ _ b) as [rw|e] eqn:Henc.
  2: { left. split; [by intros (? & ? & [=])|done]. }
  destruct (svc_send cap _ w1) as [[[]|e] w2].
  2: { left. split; [by intros (? & ? & [=])|done]. }
  right.
  exists n, id, orig, w1,
    {| raw := rw;
       reply_threadId :=
         match threadId orig with
         | Some t => if truthy t then Some t else None
         | None => None
         end |}, b.
  split; [done|]. split; [done|]. split; [done|]. split; [done|].
  cbv zeta. split; [done|]. split; [exact Henc|].
  split; [by destruct (threadId orig)|done].
Qed.

(** *** Listing again *)


(** A listing that is answered in full numbers the messages listed. *)
Lemma list_emails_answered (st : State W) mr q refs w1 ds w2 :
  svc_list cap q mr (world st) = (Return refs, w1) ->
  fetch_all cap refs w1 = (ds, None, w2) ->
  exists r st1,
    list_emails cap mr q st = (Return r, st1) /\
    forall h, index_map (mailbox st1) !! h = handle_lookup refs h.
Proof.
  intros Hl Hf.
  unfold list_emails, try_except, bind at 1, invoke at 1. rewrite Hl.
  unfold bind at 1. unfold update_session, modify at 1.
  set (st1 := set_mailbox _ _).
  destruct refs as [|ref refs].
  - simpl. eexists _, _. split; [reflexivity|].
    intros h. simpl. rewrite lookup_empty. unfold handle_lookup.
    by case_decide.
  - unfold bind.
    pose proof (list_loop_run cap (ref :: refs) 1 [] st1) as Hrun.
    replace (world st1) with w1 in Hrun by reflexivity.
    rewrite Hf in Hrun.
    destruct (list_loop cap 1 (ref :: refs) [] st1) as [r st'].
    destruct Hrun as (Hm & _ & Hlen & out & -> & Hout'). simpl.
    eexists _, _. split; [reflexivity|].
    intros h. rewrite Hm. simpl. rewrite Hlen.
    rewrite <- (assign_handles (ref :: refs) h). simpl.
    by rewrite firstn_all.
Qed.

(** The pending draft outlives a new listing, and goes with its number:
    a draft written for handle [h] is still pending for [h] after the
    messages were listed again, and [send_reply] with no body then
    delivers it to the message that the new listing numbers [h]; when
    the provider listed that message under an empty identifier, the
    call answers that the number is invalid, and sends nothing. *)
Theorem pending_draft_follows_the_number (st : State W) mr q refs w1 ds w2
    h d id :
  pending_for (mailbox st) h d ->
  svc_list cap q mr (world st) = (Return refs, w1) ->
  fetch_all cap refs w1 = (ds, None, w2) ->
  handle_lookup refs h = Some id ->
  exists r st1,
    list_emails cap mr q st = (Return r, st1) /\
    pending_for (mailbox st1) h d /\
    send_reply cap mime_encode (VInt h) VNone st1
    = if truthy id then deliver cap mime_encode h id (VStr d) st1
      else (Return (invalid_number (VInt h)), st1).
Proof.
  intros (Hd & Ht & Hn) Hl Hf Hh.
  destruct (list_emails_answered st mr q refs w1 ds w2 Hl Hf)
    as (r & st1 & Hrun & Hmap).
  pose proof (drafts_list mr q st) as (Hd1 & Hn1 & _). rewrite Hrun in *.
  simpl in *. exists r, st1. split; [done|].
  assert (Hp : pending_for (mailbox st1) h d).
  { split; [congruence|]. split; [done|congruence]. }
  split; [done|].
  destruct (truthy id) eqn:Hid.
  2: { unfold send_reply. rewrite (bind_return _ _ _ _ _ (resolve_int st1 h)).
       by rewrite Hmap, Hh, Hid. }
  rewrite (send_reply_run _ _ _ (VInt h) h id VNone).
  - destruct Hp as (Hd2 & _ & Hn2). unfold body_to_send.
    rewrite Hd2, Hn2, Ht.
    rewrite bool_decide_eq_false_2 by (by intros []). done.
  - apply resolve_present; [by rewrite Hmap|done].
Qed.

End SessionSteps.

(** ** What a listing shows and costs *)

Section Listing.
Import PyStr Draft EmailUtils Monad Mailbox Spec Behaviour.
Context {W : Type}.
Variable cap : Capabilities W.

Lemma list_loop_summaries refs : forall i emails (st : State W) ds w',
  fetch_all cap refs (world st) = (ds, None, w') ->
  (list_loop cap i refs emails st).1 = Return (emails ++ summaries i refs ds).
Proof.
  induction refs as [|ref refs IH]; intros i emails st ds w'; simpl.
  - intros [= <- _]. by rewrite app_nil_r.
  - unfold bind at 1. unfold invoke at 1.
    destruct (svc_get cap (ref_id ref) (Metadata list_headers) (world st))
      as [[d|e] w1] eqn:Hget; [|done].
    destruct (fetch_all cap refs w1) as [[ds' fault] w2] eqn:Hf.
    intros [= <- -> <-].
    unfold bind, update_session, modify. simpl.
    erewrite IH by exact Hf. simpl. by rewrite <- app_assoc.
Qed.

Lemma summaries_lookup refs : forall i ds k e,
  summaries i refs ds !! k = Some e ->
  exists r d, refs !! k = Some r /\ ds !! k = Some d /\
              e = summary (i + Z.of_nat k) r d.
Proof.
  induction refs as [|r refs IH]; intros i [|d ds] k e; simpl; try done.
  destruct k as [|k]; simpl.
  - intros [= <-]. exists r, d. by rewrite Z.add_0_r.
  - intros H. destruct (IH _ _ _ _ H) as (r' & d' & Hr & Hd & ->).
    exists r', d'. repeat split; try done. f_equal. lia.
Qed.

Lemma summaries_length refs : forall i ds,
  length ds = length refs -> length (summaries i refs ds) = length refs.
Proof.
  induction refs as [|r refs IH]; intros i [|d ds]; simpl; try done.
  intros [= H]. by rewrite IH.
Qed.

(** What a listing shows is what the session knows.  When the listing and
    every metadata request are answered, the payload holds one summary
    per message, in the order of the provider; the summary at position
    [k] carries the number [k + 1], and the identifier it shows is the
    one that the index map gives for that number; its snippet has at most
    120 characters. *)
Theorem list_emails_shows_the_handles (st : State W) mr q refs w1 ds w2 :
  svc_list cap q mr (world st) = (Return refs, w1) ->
  fetch_all cap refs w1 = (ds, None, w2) ->
  refs <> [] ->
  exists emails st1,
    list_emails cap mr q st
    = (Return (VDict [ ("emails", VList emails);
                       ("count", VInt (Z.of_nat (length refs))) ]), st1) /\
    length emails = length refs /\
    forall (k : nat) e, emails !! k = Some e ->
      entry "number" e = Some (VInt (Z.of_nat k + 1)) /\
      entry "id" e = VStr <$> index_map (mailbox st1) !! (Z.of_nat k + 1) /\
      exists s, entry "snippet" e = Some (VStr s) /\
                (String.length s <= 120)%nat.
Proof.
  intros Hl Hf Hne.
  destruct (list_emails_answered cap st mr q refs w1 ds w2 Hl Hf)
    as (r & st1 & Hrun & Hmap).
  assert (Hr : r = VDict [ ("emails", VList (summaries 1 refs ds));
                           ("count", VInt (Z.of_nat (length refs))) ]
               /\ length ds = length refs).
  { revert Hrun. unfold list_emails, try_except, bind at 1, invoke at 1.
    rewrite Hl. unfold bind at 1. unfold update_session, modify at 1.
    set (st0 := set_mailbox _ _).
    destruct refs as [|ref refs]; [done|]. unfold bind.
    pose proof (list_loop_summaries (ref :: refs) 1 [] st0 ds w2 Hf) as Hout.
    pose proof (list_loop_run cap (ref :: refs) 1 [] st0) as Hlen.
    replace (world st0) with w1 in Hlen by reflexivity. rewrite Hf in Hlen.
    destruct (list_loop cap 1 (ref :: refs) [] st0) as [o st'].
    destruct Hlen as (_ & _ & Hlen & _).
    simpl in Hout. rewrite Hout. intros [= <- <-].
    split; [|done].
    by rewrite <- (summaries_length (ref :: refs) 1 ds) by done. }
  destruct Hr as [-> Hlen].
  exists (summaries 1 refs ds), st1. split; [done|].
  split; [by apply summaries_length|].
  intros k e He.
  destruct (summaries_lookup _ _ _ _ _ He) as (ref & d & Href & Hd & ->).
  split; [simpl; do 2 f_equal; lia|].
  split.
  - rewrite Hmap. unfold handle_lookup.
    rewrite decide_True by lia.
    replace (Z.to_nat (Z.of_nat k + 1 - 1)) with k by lia.
    rewrite Href. done.
  - eexists. split; [reflexivity|]. apply take_length.
Qed.
Lemma list_loop_calls refs : forall i emails (st : State W),
  match fetch_all cap refs (world st) with
  | (ds, fault, _) =>
      calls (list_loop cap i refs emails st).2
      = calls st ++
        map metadata_request
            (firstn (length ds + match fault with Some _ => 1 | None => 0 end) refs)
  end.
Proof.
  induction refs as [|ref refs IH]; intros i emails st; simpl.
  - by rewrite app_nil_r.
  - unfold bind at 1. unfold invoke at 1.
    destruct (svc_get cap (ref_id ref) (Metadata list_headers) (world st))
      as [[d|e] w1] eqn:Hget; simpl; [|done].
    unfold bind, update_session, modify. simpl.
    match goal with |- context [list_loop cap ?i' refs ?em ?s] =>
      specialize (IH i' em s) end.
    simpl in IH. destruct (fetch_all cap refs w1) as [[ds fault] w2].
    simpl. rewrite IH. simpl. by rewrite <- app_assoc.
Qed.

(** A listing costs one request for the list and one metadata request
    for each message, made in the order of the list, up to and including
    the first one that faults; when the request for the list faults, it
    is the only one. *)
Theorem list_emails_requests (st : State W) mr q :
  let sent :=
    match svc_list cap q mr (world st) with
    | (Return refs, w1) =>
        match fetch_all cap refs w1 with
        | (ds, fault, _) =>
            map metadata_request
                (firstn (length ds + match fault with Some _ => 1 | None => 0 end) refs)
        end
    | (Raise _, _) => []
    end in
  calls (list_emails cap mr q st).2 = calls st ++ CallList q mr :: sent.
Proof.
  cbv zeta. unfold list_emails, try_except, bind at 1, invoke at 1.
  destruct (svc_list cap q mr (world st)) as [[refs|e] w1]; [|done].
  unfold bind at 1. unfold update_session, modify at 1.
  set (st1 := set_mailbox _ _).
  destruct refs as [|ref refs].
  { simpl. done. }
  unfold bind.
  pose proof (list_loop_calls (ref :: refs) 1 [] st1) as Hc.
  replace (world st1) with w1 in Hc by reflexivity.
  destruct (fetch_all cap (ref :: refs) w1) as [[ds fault] w2].
  destruct (list_loop cap 1 (ref :: refs) [] st1) as [[r|e] st']; simpl in *;
    rewrite Hc; subst st1; simpl; by rewrite <- app_assoc.
Qed.
End Listing.

(** ** The turn of the agent *)

Section Budget.
Import PyStr Monad Mailbox Agent Spec Behaviour.
Context {W : Type}.
Variable p : Call -> bool.

Lemma budget_refl n (st : State W) : budget p n st st.
Proof. exists []. rewrite app_nil_r. split; [done|simpl; lia]. Qed.

Lemma budget_trans a b (st1 st2 st3 : State W) :
  budget p a st1 st2 -> budget p b st2 st3 -> budget p (a + b) st1 st3.
Proof.
  intros (e1 & Hc1 & Hn1) (e2 & Hc2 & Hn2). exists (e1 ++ e2).
  rewrite Hc2, Hc1, app_assoc. split; [done|].
  rewrite filter_app, length_app. lia.
Qed.

Lemma budget_weaken a b (st st' : State W) :
  (a <= b)%nat -> budget p a st st' -> budget p b st st'.
Proof. intros Hab (evs & Hc & Hn). exists evs. split; [done|lia]. Qed.

Global Instance budget_preorder : PreOrder (@budget W p 0).
Proof.
  split; [intros st; apply budget_refl|].
  intros a b c Hab Hbc. apply (budget_trans 0 0 a b c Hab Hbc).
Qed.

Lemma budget_bind a b {A B} (m : M (State W) A) (f : A -> M (State W) B) :
  always (budget p a) m -> (forall x, always (budget p b) (f x)) ->
  always (budget p (a + b)) (bind m f).
Proof.
  intros Hm Hf st. unfold bind. specialize (Hm st).
  destruct (m st) as [[x|e] st1]; simpl in *.
  - eapply budget_trans; [exact Hm|apply Hf].
  - eapply budget_weaken; [|exact Hm]. lia.
Qed.

Lemma budget_try a b {A} (m : M (State W) A) h :
  always (budget p a) m -> (forall e, always (budget p b) (h e)) ->
  always (budget p (a + b)) (try_except m h).
Proof.
  intros Hm Hh st. unfold try_except. specialize (Hm st).
  destruct (m st) as [[x|e] st1]; simpl in *.
  - eapply budget_weaken; [|exact Hm]. lia.
  - eapply budget_trans; [exact Hm|apply Hh].
Qed.

Lemma budget_invoke {A} c (h : W -> Outcome A * W) :
  always (budget p (if p c then 1 else 0)) (invoke c h).
Proof.
  intros st. unfold invoke. destruct (h (world st)). simpl.
  exists [c]. split; [done|].
  destruct (p c) eqn:E.
  - rewrite filter_cons_True by done. done.
  - rewrite filter_cons_False by (by rewrite E). done.
Qed.

Lemma budget_get_session : always (@budget W p 0) get_session.
Proof. intros st. apply budget_refl. Qed.

Lemma budget_update f : always (@budget W p 0) (update_session f).
Proof. intros st. apply (budget_refl 0 st). Qed.

End Budget.

Section AgentSteps.
Import PyStr Monad Mailbox Agent Spec Behaviour.
Context {W : Type}.
Variable cap : Capabilities W.
Variable b64_utf8 : string -> Outcome string.
Variable mime_encode : string -> string -> PyVal -> Outcome string.
Variable OLLAMA_MODEL : string.
Variable json_loads : string -> Loaded.
Variable json_dumps : PyVal -> string.

Local Abbreviation sends := (budget is_send_call).
Local Abbreviation dispatch' :=
  (dispatch cap b64_utf8 mime_encode OLLAMA_MODEL json_loads json_dumps).
Local Abbreviation chat' :=
  (chat cap b64_utf8 mime_encode OLLAMA_MODEL json_loads json_dumps).

(** *** Messages sent *)

Lemma sends_list_loop refs : forall i emails,
  always (sends 0) (list_loop cap i refs emails).
Proof.
  induction refs as [|r refs IH]; intros i emails; simpl.
  - apply always_ret; apply _.
  - repeat always_step; eauto using budget_update.
    apply (budget_invoke is_send_call (CallGet _ _)).
Qed.

Lemma sends_list mr q : always (sends 0) (list_emails cap mr q).
Proof.
  unfold list_emails.
  repeat always_step; eauto using budget_update, sends_list_loop.
  apply (budget_invoke is_send_call (CallList _ _)).
Qed.

Lemma sends_resolve n : always (@budget W is_send_call 0) (resolve n).
Proof.
  unfold resolve. repeat always_step; eauto using budget_get_session.
Qed.

Lemma sends_read n g t :
  always (sends 0) (read_email cap b64_utf8 OLLAMA_MODEL n g t).
Proof.
  unfold read_email, fetch_and_draft, _generate_draft.
  repeat always_step; eauto using budget_update, sends_resolve.
  - apply (budget_invoke is_send_call (CallGet _ _)).
  - apply (budget_invoke is_send_call (CallGenerate _ _ _)).
Qed.

Lemma sends_send n b : always (sends 1) (send_reply cap mime_encode n b).
Proof.
  intros st. unfold send_reply.
  destruct (resolve n st) as [[[[k id]|]|e] st1] eqn:Hr;
    pose proof (resolve_state _ _ _ _ Hr) as ->.
  2: { rewrite (bind_return _ _ _ _ _ Hr). apply budget_refl. }
  2: { rewrite (bind_raise _ _ _ _ _ Hr). apply budget_refl. }
  rewrite (bind_return _ _ _ _ _ Hr).
  rewrite (bind_return get_session _ st (mailbox st) st eq_refl).
  destruct (body_to_send (mailbox st) k b) as [body|]; [|apply budget_refl].
  rewrite deliver_run. cbv zeta.
  destruct (svc_get cap id _ (world st)) as [[orig|e] w1];
    [|eexists; split; [reflexivity|simpl; lia]].
  destruct (EmailUtils.create_reply_message _ _ _ _ _) as [msg|e];
    [|eexists; split; [reflexivity|simpl; lia]].
  destruct (svc_send cap msg w1) as [[[]|e] w2];
    (eexists; split; [reflexivity|simpl; lia]).
Qed.

Lemma sends_push m : always (@budget W is_send_call 0) (modify (push_history m)).
Proof. intros st. apply (budget_refl is_send_call 0 st). Qed.

Lemma bind_kwargs_sends t func_args run :
  bind_kwargs cap b64_utf8 mime_encode OLLAMA_MODEL t func_args = Return run ->
  always (sends (sends_of t)) run.
Proof.
  unfold bind_kwargs. destruct func_args as [| | | | |kw]; try done.
  destruct (unexpected t kw); [done|]. destruct t.
  - intros [= <-]. apply sends_list.
  - destruct (kw_get "email_number" kw); [|done]. intros [= <-].
    apply sends_read.
  - destruct (kw_get "email_number" kw); [|done]. intros [= <-].
    apply sends_send.
Qed.

Lemma asks_to_send_tool tc t :
  tool_functions (fn_name tc) = Some t ->
  sends_of t = if asks_to_send tc then 1%nat else 0%nat.
Proof.
  unfold tool_functions, asks_to_send.
  destruct (String.eqb (fn_name tc) "list_emails") eqn:E1.
  { apply String.eqb_eq in E1 as ->. by intros [= <-]. }
  destruct (String.eqb (fn_name tc) "read_email") eqn:E2.
  { apply String.eqb_eq in E2 as ->. by intros [= <-]. }
  destruct (String.eqb (fn_name tc) "send_email_reply"); [|done].
  by intros [= <-].
Qed.

Lemma sends_dispatch tc :
  always (sends (if asks_to_send tc then 1 else 0)) (dispatch' tc).
Proof.
  unfold dispatch.
  apply (budget_bind is_send_call 0 (if asks_to_send tc then 1 else 0));
    [intros st; apply budget_refl|]. intros func_args.
  replace (if asks_to_send tc then 1 else 0)%nat
    with ((if asks_to_send tc then 1 else 0) + 0)%nat by lia.
  apply budget_bind; [|intros r; apply sends_push].
  destruct (tool_functions (fn_name tc)) as [t|] eqn:Ht.
  - rewrite <- (asks_to_send_tool tc t Ht). unfold call_tool.
    destruct (bind_kwargs _ _ _ _ _ _) as [run|e] eqn:Hb;
      [|intros st; apply budget_refl].
    apply (budget_bind is_send_call 0 (sends_of t));
      [|intros _; by eapply bind_kwargs_sends].
    intros st. by eexists [_].
  - intros st. apply budget_refl.
Qed.

Lemma sends_for_each tcs :
  always (sends (length (filter (fun tc => asks_to_send tc = true) tcs)))
         (for_each tcs dispatch').
Proof.
  induction tcs as [|tc tcs IH]; simpl.
  - intros st. apply budget_refl.
  - pose proof (sends_dispatch tc) as Htc.
    destruct (asks_to_send tc) eqn:E.
    + rewrite filter_cons_True by done.
      apply (budget_bind is_send_call 1); [exact Htc|intros _; exact IH].
    + rewrite filter_cons_False by (by rewrite E).
      apply (budget_bind is_send_call 0); [exact Htc|intros _; exact IH].
Qed.

Lemma sends_model_call : always (sends 0) (model_call cap OLLAMA_MODEL).
Proof.
  unfold model_call. intros st. unfold bind, Monad.get. simpl.
  apply (budget_invoke is_send_call (CallChat _ _)).
Qed.

(** A turn, up to the answer to its first request. *)
Lemma chat_run (st : State W) (user_message : string) :
  let first := MsgSystem SYSTEM_PROMPT
                 :: conversation_history st ++ [MsgUser user_message] in
  let st0 := push_history (MsgUser user_message) st in
  chat' user_message st =
  match llm_chat cap OLLAMA_MODEL first (world st) with
  | (Raise e, w1) => (Raise e, logged st0 w1 [CallChat OLLAMA_MODEL first])
  | (Return assistant_message, w1) =>
      match tool_calls assistant_message with
      | _ :: _ =>
          (modify (push_history (MsgAssistantRaw assistant_message)) ;;;
           for_each (tool_calls assistant_message) dispatch' ;;;
           final_response <- model_call cap OLLAMA_MODEL ;;
           modify (push_history (MsgAssistant (content final_response))) ;;;
           ret (content final_response))%py
      | [] =>
          (modify (push_history (MsgAssistant (content assistant_message))) ;;;
           ret (content assistant_message))%py
      end (logged st0 w1 [CallChat OLLAMA_MODEL first])
  end.
Proof.
  cbv zeta. unfold chat.
  rewrite (bind_return (modify (push_history (MsgUser user_message))) _
             st tt (push_history (MsgUser user_message) st) eq_refl).
  unfold bind at 1. unfold model_call at 1, bind at 1, Monad.get at 1.
  unfold invoke at 1. simpl.
  by destruct (llm_chat cap OLLAMA_MODEL _ (world st)) as [[am|e] w1].
Qed.

(** The agent sends mail only on request: in every turn, however it
    ends, the number of messages handed to the Mail Capability is at
    most the number of [send_email_reply] tool calls in the first
    response of the model; it is zero when that response carries none,
    or does not arrive. *)
Theorem chat_sends_only_on_request (st : State W) (user_message : string) :
  let first := MsgSystem SYSTEM_PROMPT
                 :: conversation_history st ++ [MsgUser user_message] in
  let requested :=
    match (llm_chat cap OLLAMA_MODEL first (world st)).1 with
    | Return am =>
        length (filter (fun tc => asks_to_send tc = true) (tool_calls am))
    | Raise _ => O
    end in
  exists evs,
    calls (chat' user_message st).2 = calls st ++ evs /\
    (length (filter (fun c => is_send_call c = true) evs) <= requested)%nat.
Proof.
  cbv zeta. rewrite chat_run. cbv zeta.
  destruct (llm_chat cap OLLAMA_MODEL _ (world st)) as [[am|e] w1]; simpl.
  2: { eexists [_]. split; [reflexivity|simpl; lia]. }
  match goal with |- context [calls (_ ?s).2] => set (st1 := s) end.
  assert (Hk : forall (k : M (State W) string) n,
    always (sends n) k ->
    exists evs, calls (k st1).2 = calls st ++ evs /\
      (length (filter (fun c => is_send_call c = true) evs) <= n)%nat).
  { intros k n Hn. destruct (Hn st1) as (evs & Hc & Hle).
    eexists (_ :: evs). rewrite Hc. subst st1. simpl.
    rewrite <- app_assoc. split; [done|].
    rewrite filter_cons_False by done. exact Hle. }
  destruct (tool_calls am) as [|tc tcs] eqn:Htcs.
  - apply (Hk _ O). apply (always_bind (budget is_send_call 0));
      [apply sends_push|]. intros _ s. apply budget_refl.
  - rewrite <- Htcs. apply Hk.
    match goal with |- always (budget _ ?n) _ =>
      replace n with (0 + (n + (0 + 0)))%nat by lia end.
    apply budget_bind; [apply sends_push|intros _].
    apply budget_bind; [apply sends_for_each|intros _].
    apply budget_bind; [apply sends_model_call|intros fin].
    apply (always_bind (budget is_send_call 0)); [apply sends_push|].
    intros _ s. apply budget_refl.
Qed.


(** *** The history *)

Global Instance grows_preorder : PreOrder (@grows W).
Proof.
  split.
  - intros st. split; exists []; by rewrite app_nil_r.
  - intros a b c [(h1 & Hh1) (e1 & He1)] [(h2 & Hh2) (e2 & He2)].
    split; [exists (h1 ++ h2)|exists (e1 ++ e2)];
      rewrite app_assoc; congruence.
Qed.

Lemma frame_grows n (st st' : State W) : frame n st st' -> grows st st'.
Proof.
  intros [Hh (evs & Hc & _)]. split; [exists []; by rewrite app_nil_r|].
  by exists evs.
Qed.

Lemma grows_tool t func_args run :
  bind_kwargs cap b64_utf8 mime_encode OLLAMA_MODEL t func_args = Return run ->
  always grows run.
Proof.
  unfold bind_kwargs. destruct func_args as [| | | | |kw]; try done.
  destruct (unexpected t kw); [done|]. destruct t.
  - intros [= <-] st. eapply frame_grows, frame_list.
  - destruct (kw_get "email_number" kw); [|done]. intros [= <-] st.
    eapply frame_grows, frame_read.
  - destruct (kw_get "email_number" kw); [|done]. intros [= <-] st.
    eapply frame_grows, frame_send.
Qed.

Lemma grows_push m : always (@grows W) (modify (push_history m)).
Proof.
  intros st. split; [by exists [m]|]. exists []. by rewrite app_nil_r.
Qed.

Lemma grows_dispatch tc : always grows (dispatch' tc).
Proof.
  unfold dispatch.
  apply always_bind; [apply _|apply always_lift; apply _|]. intros func_args.
  apply always_bind; [apply _| |intros r; apply grows_push].
  destruct (tool_functions (fn_name tc)) as [t|];
    [|apply always_ret; apply _].
  unfold call_tool.
  destruct (bind_kwargs _ _ _ _ _ _) as [run|e] eqn:Hb;
    [|apply always_raise; apply _].
  apply always_bind; [apply _| |intros _; by eapply grows_tool].
  intros st. split; [exists []; by rewrite app_nil_r|]. by eexists [_].
Qed.

Lemma grows_for_each tcs : always grows (for_each tcs dispatch').
Proof.
  induction tcs as [|tc tcs IH]; simpl; [apply always_ret; apply _|].
  apply always_bind; [apply _|apply grows_dispatch|intros _; exact IH].
Qed.

Lemma grows_model_call : always grows (model_call cap OLLAMA_MODEL).
Proof.
  unfold model_call. intros st. unfold bind, Monad.get, invoke. simpl.
  destruct (llm_chat cap _ _ _). simpl.
  split; [exists []; by rewrite app_nil_r|]. by eexists [_].
Qed.

(** Every turn starts the same way: the user message goes to the
    history, and the first request carries the system prompt, the
    history and that message. *)
Lemma chat_first_request (st : State W) (user_message : string) :
  let first := MsgSystem SYSTEM_PROMPT
                 :: conversation_history st ++ [MsgUser user_message] in
  exists hs evs,
    conversation_history (chat' user_message st).2
    = conversation_history st ++ MsgUser user_message :: hs /\
    calls (chat' user_message st).2
    = calls st ++ CallChat OLLAMA_MODEL first :: evs.
Proof.
  cbv zeta. rewrite chat_run. cbv zeta.
  destruct (llm_chat cap OLLAMA_MODEL _ (world st)) as [[am|e] w1]; simpl.
  2: { by exists [], []. }
  match goal with |- context [calls (_ ?s).2] => set (st1 := s) end.
  assert (Hk : forall k : M (State W) string, always grows k ->
    exists hs evs,
      conversation_history (k st1).2
      = conversation_history st ++ MsgUser user_message :: hs /\
      calls (k st1).2
      = calls st ++ CallChat OLLAMA_MODEL
          (MsgSystem SYSTEM_PROMPT
             :: conversation_history st ++ [MsgUser user_message]) :: evs).
  { intros k Hk. destruct (Hk st1) as [(hs & Hh) (evs & Hc)].
    exists hs, evs. rewrite Hh, Hc. subst st1. simpl.
    by rewrite <- !app_assoc. }
  apply Hk. destruct (tool_calls am) as [|tc tcs] eqn:Htcs.
  - apply always_bind; [apply _|apply grows_push|].
    intros _. apply always_ret; apply _.
  - rewrite <- Htcs.
    apply always_bind; [apply _|apply grows_push|intros _].
    apply always_bind; [apply _|apply grows_for_each|intros _].
    apply always_bind; [apply _|apply grows_model_call|intros fin].
    apply always_bind; [apply _|apply grows_push|].
    intros _. apply always_ret; apply _.
Qed.

(** No turn loses history.  However a turn ends, the history afterwards
    is the history before, followed by the user message and by what the
    turn added; the log starts with the first request.  When that first
    request faults, the turn raises the fault, and the user message has
    been recorded all the same: nothing is rolled back. *)
Theorem chat_never_loses_history (st : State W) (user_message : string) :
  let first := MsgSystem SYSTEM_PROMPT
                 :: conversation_history st ++ [MsgUser user_message] in
  let run := chat' user_message st in
  (exists hs evs,
     conversation_history run.2
     = conversation_history st ++ MsgUser user_message :: hs /\
     calls run.2 = calls st ++ CallChat OLLAMA_MODEL first :: evs) /\
  match llm_chat cap OLLAMA_MODEL first (world st) with
  | (Raise e, w1) =>
      run = (Raise e,
             logged (push_history (MsgUser user_message) st) w1
                    [CallChat OLLAMA_MODEL first])
  | (Return _, _) => True
  end.
Proof.
  cbv zeta. split; [apply chat_first_request|].
  rewrite chat_run. cbv zeta.
  by destruct (llm_chat cap OLLAMA_MODEL _ (world st)) as [[am|e] w1].
Qed.

(** *** Starting over *)

(** [reset] forgets everything: the history is empty and the session is
    a new one.  Every handle is unknown again to [read_email] and
    [send_reply], no draft can be regenerated, and the first request of
    the next turn carries the system prompt and the new user message,
    nothing else.  The world and the log are not touched. *)
Theorem reset_forgets (st : State W) :
  let st' := (reset st).2 in
  (reset st).1 = Return tt /\
  st' = {| mailbox := new_session; conversation_history := [];
           world := world st; calls := calls st |} /\
  (forall h g t,
     read_email cap b64_utf8 OLLAMA_MODEL (VInt h) g t st'
     = (Return (invalid_number (VInt h)), st')) /\
  (forall h b,
     send_reply cap mime_encode (VInt h) b st'
     = (Return (invalid_number (VInt h)), st')) /\
  (forall h t,
     regenerate_draft cap OLLAMA_MODEL (VInt h) t st'
     = (Return (not_cached (VInt h)), st')) /\
  (forall user_message, exists evs,
     calls (chat' user_message st').2
     = calls st ++ CallChat OLLAMA_MODEL
         [MsgSystem SYSTEM_PROMPT; MsgUser user_message] :: evs).
Proof.
  cbv zeta. split; [done|]. split; [done|].
  set (st' := (reset st).2).
  assert (Hr : forall h, resolve (VInt h) st' = (Return None, st')).
  { intros h. by apply resolve_absent. }
  split; [|split; [|split]].
  - intros h g t. unfold read_email. by rewrite (bind_return _ _ _ _ _ (Hr h)).
  - intros h b. unfold send_reply. by rewrite (bind_return _ _ _ _ _ (Hr h)).
  - intros h t. by rewrite regenerate_draft_run.
  - intros user_message.
    destruct (chat_first_request st' user_message) as (hs & evs & _ & Hc).
    by exists evs.
Qed.

End AgentSteps.

(** ** The client of the model *)

Section Thinking.
Import PyStr Ollama.

Lemma app_nil_l' (s : string) : EmptyString +:+ s = s.
Proof. done. Qed.

Lemma contains_app_r p (a b : string) :
  contains p b = true -> contains p (a +:+ b) = true.
Proof.
  intros H. induction a as [|c a IH]; [done|].
  rewrite app_cons. simpl. rewrite IH. apply orb_true_r.
Qed.

Lemma startswith_app p (s : string) : startswith p (p +:+ s) = true.
Proof.
  induction p as [|c p IH]; [done|]. rewrite app_cons. simpl.
  by rewrite Ascii.eqb_refl.
Qed.

Lemma contains_here p (s : string) : contains p (p +:+ s) = true.
Proof.
  destruct (p +:+ s) eqn:E; simpl; rewrite <- E, startswith_app; done.
Qed.

Lemma drop_app (a b : string) : drop (String.length a) (a +:+ b) = b.
Proof. induction a as [|c a IH]; [by destruct b|]. rewrite app_cons. done. Qed.

Lemma remove_think_skip n : forall s,
  remove_think n s = remove_think O (drop n s).
Proof.
  induction n as [|n IH]; intros [|c s]; simpl; try done; try apply IH.
Qed.

(** Text without an opening tag is copied. *)
Lemma remove_think_none (s : string) :
  contains "<think>" s = false -> remove_think O s = s.
Proof.
  induction s as [|c s IH]; [done|].
  intros H. change (contains "<think>" (String c s))
    with (startswith "<think>" (String c s) || contains "<think>" s) in H.
  apply orb_false_iff in H as [Hs Hc].
  change (remove_think 0 (String c s))
    with (match think_block (String c s) with
          | Some (S n) => remove_think n s
          | _ => String c (remove_think O s)
          end).
  unfold think_block. rewrite Hs. by rewrite IH.
Qed.

Lemma remove_think_prefix (pre s : string) :
  contains_char "<" pre = false ->
  remove_think O (pre +:+ s) = pre +:+ remove_think O s.
Proof.
  induction pre as [|c pre IH]; [done|]. simpl. intros H.
  apply orb_false_iff in H as [Hc Hpre]. rewrite !app_cons.
  change (remove_think 0 (String c (pre +:+ s)))
    with (match think_block (String c (pre +:+ s)) with
          | Some (S n) => remove_think n (pre +:+ s)
          | _ => String c (remove_think O (pre +:+ s))
          end).
  unfold think_block.
  assert (startswith "<think>" (String c (pre +:+ s)) = false) as ->.
  { change (startswith "<think>" (String c (pre +:+ s)))
      with (Ascii.eqb "<" c && startswith "think>" (pre +:+ s)).
    by rewrite Ascii.eqb_sym, Hc. }
  by rewrite IH.
Qed.

Local Opaque Ascii.eqb.

(** The closing tag does not overlap itself: an occurrence at the head of
    [u] followed by the tag lies within [u], unless [u] is empty. *)
Lemma closing_tag_no_border (u x : string) :
  startswith "</think>" (u +:+ "</think>" +:+ x) = true ->
  u = EmptyString \/ startswith "</think>" u = true.
Proof.
  destruct u as [|c0 [|c1 [|c2 [|c3 [|c4 [|c5 [|c6 [|c7 u]]]]]]]];
    [by left|..]; intros H; right;
    rewrite ?app_cons, ?app_nil_l' in H; simpl in H;
    repeat (apply andb_true_iff in H as [? H]);
    repeat match goal with
           | E : Ascii.eqb ?a ?b = true |- _ =>
               apply Ascii.eqb_eq in E; try discriminate E; subst
           end.
  reflexivity.
Qed.

Local Transparent Ascii.eqb.

Lemma find_end_eq p (s : string) :
  find_end p s =
  if startswith p s then Some (String.length p)
  else match s with
       | EmptyString => None
       | String _ s' => S <$> find_end p s'
       end.
Proof. by destruct s. Qed.

Lemma contains_eq p (s : string) :
  contains p s =
  startswith p s || match s with
                    | EmptyString => false
                    | String _ s' => contains p s'
                    end.
Proof. by destruct s. Qed.

Lemma find_end_first (t x : string) :
  contains "</think>" t = false ->
  find_end "</think>" (t +:+ "</think>" +:+ x) = Some (String.length t + 8)%nat.
Proof.
  induction t as [|c t IH].
  - intros _. rewrite app_nil_l', find_end_eq. by rewrite startswith_app.
  - intros H. rewrite contains_eq in H.
    apply orb_false_iff in H as [Hs Hc].
    rewrite find_end_eq.
    destruct (startswith "</think>" (String c t +:+ "</think>" +:+ x)) eqn:E.
    + destruct (closing_tag_no_border _ _ E) as [?|E']; [done|congruence].
    + rewrite app_cons. by rewrite IH.
Qed.

(** A text that thinks first and answers then: the thinking goes, the
    rest is stripped. *)
Lemma remove_think_block (pre t answer : string) :
  contains_char "<" pre = false ->
  contains "</think>" t = false ->
  contains "<think>" answer = false ->
  remove_think O (pre +:+ "<think>" +:+ t +:+ "</think>" +:+ answer)
  = pre +:+ answer.
Proof.
  intros Hpre Ht Ha. rewrite remove_think_prefix by done. f_equal.
  change ("<think>" +:+ t +:+ "</think>" +:+ answer)
    with (String "<" ("think>" +:+ t +:+ "</think>" +:+ answer)).
  change (remove_think 0 (String "<" ?s))
    with (match think_block (String "<" s) with
          | Some (S n) => remove_think n s
          | _ => String "<" (remove_think O s)
          end).
  unfold think_block.
  change (startswith "<think>" (String "<" ("think>" +:+ ?s)))
    with (startswith EmptyString s).
  change (drop 7 (String "<" ("think>" +:+ ?s))) with s.
  rewrite find_end_first by done. simpl.
  rewrite remove_think_skip.
  repeat match goal with
         | |- context [drop (S ?n) (String ?c ?s)] =>
             change (drop (S n) (String c s)) with (drop n s)
         end.
  rewrite ?app_nil_l'.
  replace (String.length t + 8)%nat
    with (String.length (t +:+ "</think>")) by (rewrite length_app'; done).
  rewrite <- app_assoc', drop_app. by apply remove_think_none.
Qed.

Section Cleaning.
Variable py_error : string -> PyVal -> string.

(** Thinking is removed from the answer of a model that thinks aloud.
    A content with an opening tag, thinking that holds no closing tag, a
    closing tag and an answer that holds no opening tag is cleaned to
    what stands before and after the block, stripped; what stands before
    is text without any bracket. *)
Theorem clean_content_removes_thinking (pre t answer : string) :
  contains_char "<" pre = false ->
  contains "</think>" t = false ->
  contains "<think>" answer = false ->
  clean_content py_error
    (VStr (pre +:+ "<think>" +:+ t +:+ "</think>" +:+ answer))
  = Return (VStr (strip (pre +:+ answer))).
Proof.
  intros Hpre Ht Ha. unfold clean_content, py_in.
  rewrite contains_app_r by apply contains_here.
  rewrite contains_app_r by (do 2 apply contains_app_r; apply contains_here).
  by rewrite remove_think_block.
Qed.

End Cleaning.

End Thinking.
Section ModelClient.
Import PyStr Monad Agent Ollama Behaviour.
Context {W : Type}.
Variable post : HttpClient -> string -> ChatPayload -> W
                -> (HttpFault + Response) * W.
Variable json_loads : string -> Loaded.
Variable py_error : string -> PyVal -> string.
Variable OLLAMA_MODEL : string.

Local Abbreviation chat' := (chat post json_loads py_error).
Local Abbreviation generate_text' :=
  (generate_text post json_loads py_error OLLAMA_MODEL).
Local Abbreviation test_connection' :=
  (test_connection post json_loads py_error OLLAMA_MODEL).

Lemma kw_get_in k d :
  existsb (fun kv : string * PyVal => String.eqb kv.1 k) d
  = bool_decide (is_Some (kw_get k d)).
Proof.
  induction d as [|[k' v] d IH]; [done|]. simpl. rewrite IH.
  by destruct (kw_get k d), (String.eqb k' k).
Qed.

(** The loop joins what the lines add. *)
Lemma stream_loop_joins lines : forall acc cs,
  Forall2 (fun l c => line_content json_loads l = Some c) lines cs ->
  stream_loop json_loads py_error lines acc = Return (acc +:+ join cs).
Proof.
  induction lines as [|l lines IH]; intros acc cs H.
  - apply Forall2_nil_inv_l in H as ->. simpl. by rewrite app_empty_r.
  - apply Forall2_cons_inv_l in H as (c & cs' & Hl & Hall & ->).
    specialize (IH (acc +:+ c) cs' Hall). simpl.
    rewrite <- app_assoc'. rewrite <- IH. clear IH.
    unfold line_content in Hl.
    destruct (truthy (strip l)).
    2: { injection Hl as <-. by rewrite app_empty_r. }
    destruct (json_loads l) as [chunk| |e]; [|injection Hl as <-; by rewrite app_empty_r|done].
    destruct chunk as [| | | | |d]; try done.
    unfold chunk_content, py_in, py_item. rewrite kw_get_in.
    destruct (kw_get "message" d) as [m|].
    2: { injection Hl as <-. rewrite app_empty_r.
         by rewrite bool_decide_eq_false_2 by (by intros [? ?]). }
    rewrite bool_decide_eq_true_2 by eauto.
    destruct m as [| | | | |m]; try done. rewrite kw_get_in.
    destruct (kw_get "content" m) as [x|].
    2: { injection Hl as <-. rewrite app_empty_r.
         by rewrite bool_decide_eq_false_2 by (by intros [? ?]). }
    rewrite bool_decide_eq_true_2 by eauto.
    destruct x; try done. by injection Hl as <-.
Qed.

Lemma chat_run_ollama (st : Client W) model messages tools options stream c st1 :
  http_client st = (Return c, st1) ->
  chat' model messages tools options stream st =
  let payload :=
    {| payload_model := model;
       payload_messages := messages;
       payload_stream := stream;
       payload_tools :=
         match tools with Some (t :: ts) => Some (t :: ts) | _ => None end;
       payload_options :=
         match options with Some (o :: os) => Some (o :: os) | _ => None end
    |} in
  match post c (host (self st) +:+ "/api/chat") payload (net st1) with
  | (inr response, w') =>
      (read_response json_loads py_error response,
       {| self := self st1; net := w' |})
  | (inl f, w') =>
      (Raise (fault_message (host (self st)) f),
       {| self := self st1; net := w' |})
  end.
Proof.
  intros Hc. unfold chat. rewrite (bind_return _ _ _ _ _ Hc).
  assert (host (self st1) = host (self st)) as ->.
  { unfold http_client in Hc.
    destruct (_http_client (self st)); by injection Hc as _ <-. }
  cbv zeta.
  destruct (post c _ _ (net st1)) as [[[e|e|e]|response] w']; done.
Qed.


(** [generate_text] up to the answer to its request. *)
Lemma generate_text_run (st : Client W) prompt model temperature c st1 :
  http_client st = (Return c, st1) ->
  let chosen :=
    match model with
    | Some m => if truthy m then m else OLLAMA_MODEL
    | None => OLLAMA_MODEL
    end in
  generate_text' prompt model temperature st =
  match post c (host (self st) +:+ "/api/chat")
             (generation_payload chosen prompt temperature) (net st1) with
  | (inr response, w') =>
      (match read_response json_loads py_error response with
       | Return r =>
           match py_get py_error r "message" (VDict []) with
           | Return message =>
               match py_get py_error message "content" (VStr EmptyString) with
               | Return content => clean_content py_error content
               | Raise e => Raise e
               end
           | Raise e => Raise e
           end
       | Raise e => Raise e
       end, {| self := self st1; net := w' |})
  | (inl f, w') =>
      (Raise (fault_message (host (self st)) f),
       {| self := self st1; net := w' |})
  end.
Proof.
  intros Hc. cbv zeta. unfold generate_text, bind at 1.
  rewrite (chat_run_ollama st _ _ _ _ _ c st1 Hc). cbv zeta.
  unfold generation_payload.
  destruct (post c _ _ (net st1)) as [[f|response] w']; [done|].
  destruct (read_response _ _ response) as [r|e]; [|done].
  unfold bind, lift.
  destruct (py_get py_error r "message" (VDict [])) as [message|e]; [|done].
  by destruct (py_get py_error message "content" (VStr EmptyString)).
Qed.

(** A streamed answer is read as the text of its chunks.  [generate_text]
    posts its request to the chat endpoint of the host; when the answer
    has status 200 and a body of several lines, each of them blank, no
    JSON, or a chunk, the text generated is what the lines add, joined in
    order, and cleaned of thinking. *)
Theorem generate_text_joins_the_stream (st : Client W) prompt model temperature
    c st1 response w' cs :
  let chosen :=
    match model with
    | Some m => if truthy m then m else OLLAMA_MODEL
    | None => OLLAMA_MODEL
    end in
  http_client st = (Return c, st1) ->
  post c (host (self st) +:+ "/api/chat")
       (generation_payload chosen prompt temperature) (net st1)
  = (inr response, w') ->
  status_code response = 200 ->
  contains_char "010" (text response) = true ->
  Forall2 (fun l c => line_content json_loads l = Some c)
          (split "010" (strip (text response))) cs ->
  generate_text' prompt model temperature st
  = (clean_content py_error (VStr (join cs)),
     {| self := self st1; net := w' |}).
Proof.
  intros chosen Hc Hpost Hstatus Hnl Hlines.
  rewrite (generate_text_run st _ _ _ c st1 Hc). cbv zeta. fold chosen.
  rewrite Hpost. unfold read_response. rewrite Hstatus, Hnl. simpl.
  by rewrite (stream_loop_joins _ EmptyString cs Hlines).
Qed.

Lemma first_100_short v r :
  first_100 py_error v = Return r ->
  match r with
  | VStr s => (String.length s <= 100)%nat
  | VList l => (length l <= 100)%nat
  | _ => False
  end.
Proof.
  destruct v as [| | |s|l|]; try done.
  - change (first_100 py_error (VStr s)) with (@Return PyVal (VStr (take 100 s))).
    intros H. assert (r = VStr (take 100 s)) as -> by congruence.
    apply take_length.
  - change (first_100 py_error (VList l))
      with (@Return PyVal (VList (firstn 100 l))).
    intros H. assert (r = VList (firstn 100 l)) as -> by congruence.
    rewrite length_firstn. lia.
Qed.

(** [test_connection] never raises, and says what went wrong.  A fault
    of the request is reported with its message, the host named when the
    connection failed; an answer with a status other than 200 is reported
    with the status and at most 500 characters of its body.  A report of
    success carries at most 100 characters of text (or 100 items). *)
Theorem test_connection_reports (st : Client W) c st1 :
  http_client st = (Return c, st1) ->
  let request :=
    post c (host (self st) +:+ "/api/chat")
         (generation_payload OLLAMA_MODEL "Say 'Hello' in one word." (1 # 10))
         (net st1) in
  exists ok msg,
    test_connection' st
    = (Return (ok, msg), {| self := self st1; net := request.2 |}) /\
    match request.1 with
    | inl f => ok = false /\ msg = VStr (fault_message (host (self st)) f)
    | inr response =>
        if status_code response =? 200 then
          ok = true ->
          match msg with
          | VStr s => (String.length s <= 100)%nat
          | VList l => (length l <= 100)%nat
          | _ => False
          end
        else ok = false /\ msg = VStr (status_message response)
    end.
Proof.
  intros Hc. cbv zeta. unfold test_connection, try_except, bind at 1.
  rewrite (generate_text_run st _ (Some OLLAMA_MODEL) _ c st1 Hc). cbv zeta.
  assert ((if truthy OLLAMA_MODEL then OLLAMA_MODEL else OLLAMA_MODEL)
          = OLLAMA_MODEL) as -> by (by destruct (truthy OLLAMA_MODEL)).
  destruct (post c _ _ (net st1)) as [[f|response] w']; simpl.
  { by eexists _, _. }
  unfold read_response at 1. unfold status_message.
  destruct (status_code response =? 200) eqn:Hs; simpl.
  2: { by eexists _, _. }
  match goal with |- context [match ?o with Return _ => _ | Raise _ => _ end] =>
    destruct o as [response'|e] eqn:Hg end.
  2: { eexists _, _. split; [reflexivity|]. done. }
  unfold bind, lift, ret.
  destruct (py_bool response').
  - destruct (first_100 py_error response') as [r|e] eqn:Hf.
    + eexists _, _. split; [reflexivity|]. intros _.
      by apply (first_100_short response').
    + eexists _, _. split; [reflexivity|]. done.
  - eexists _, _. split; [reflexivity|]. intros _. simpl. lia.
Qed.

End ModelClient.

(** ** The application *)

Section Application.
Import PyStr Monad Mailbox Agent Spec Behaviour App AppSpec.
Context {W : Type}.
Variable cap : Capabilities W.
Variable platform : Platform W.
Variable b64_utf8 : string -> Outcome string.
Variable mime_encode : string -> string -> PyVal -> Outcome string.
Variable OLLAMA_MODEL : string.
Variable json_loads : string -> Loaded.
Variable json_dumps : PyVal -> string.

Global Instance same_objects_preorder : PreOrder (@same_objects W).
Proof.
  split.
  - intros app. by repeat split.
  - intros a b c (?&?&?&?&?) (?&?&?&?&?). repeat split; congruence.
Qed.

Lemma same_objects_shared (app app' : App W) :
  same_objects app app' -> shared_session app -> shared_session app'.
Proof.
  intros (Hg & Ho & Hm & Ha & Hl) [(l & Hl1 & Hl2) Hag]. split.
  - exists l. rewrite Hm, Hl. done.
  - intros a' Ha'. rewrite Ha' in Ha.
    destruct (agent app) as [a|] eqn:E; [|done]. injection Ha as Ha.
    destruct (Hag a eq_refl) as [? ?]. rewrite Ho, Hm, Ha. done.
Qed.

Lemma same_on_session {A} l h (m : M (State W) A) (app : App W) :
  same_objects app (on_session l h m app).2.
Proof.
  unfold on_session. destruct (m _) as [r st'].
  do 4 (split; [done|]). simpl. apply length_insert.
Qed.

Lemma same_call {A} (f : W -> A * W) (app : App W) :
  same_objects app (call f app).2.
Proof. unfold call. destruct (f _). by repeat split. Qed.

Lemma same_record m (app : App W) : same_objects app (record m app).
Proof. by repeat split. Qed.

Lemma same_set_history h (app : App W) : same_objects app (set_history h app).
Proof. repeat split; try done. simpl. by destruct (agent app). Qed.

Lemma same_on_state_mailbox {A} name (m : M (State W) A) (app : App W) :
  same_objects app (on_state_mailbox name m app).2.
Proof.
  unfold on_state_mailbox. destruct (state_mailbox app) as [l|]; [|done].
  pose proof (same_on_session l [] m app) as H.
  by destruct (on_session l [] m app) as [[[r|e] h] app'].
Qed.

Lemma same_on_state_agent {A} name (m : M (State W) A) (app : App W) :
  same_objects app (on_state_agent name m app).2.
Proof.
  unfold on_state_agent. destruct (agent app) as [a|]; [|done].
  pose proof (same_on_session (agent_mailbox a) (agent_history a) m app) as H.
  destruct (on_session _ _ m app) as [[r h] app']. simpl in *.
  etrans; [exact H|apply same_set_history].
Qed.

(** A new session for [state], and a new agent on it. *)
Lemma shared_new (app : App W) :
  is_Some (ollama_client app) ->
  shared_session (new_state_agent (new_state_mailbox app)).
Proof.
  intros Ho. split.
  - eexists. split; [reflexivity|]. simpl. rewrite length_app. simpl. lia.
  - intros a [= <-]. done.
Qed.

Lemma shared_new_mailbox (app : App W) :
  agent app = None -> shared_session (new_state_mailbox app).
Proof.
  intros Ha. split.
  - eexists. split; [reflexivity|]. simpl. rewrite length_app. simpl. lia.
  - intros a. simpl. by rewrite Ha.
Qed.

Lemma shared_new_agent (app : App W) :
  shared_session app -> is_Some (ollama_client app) ->
  shared_session (new_state_agent app).
Proof.
  intros [(l & Hl & Hlt) _] Ho. split.
  - exists l. simpl. by rewrite Hl.
  - intros a [= <-]. simpl. by rewrite Hl.
Qed.

Lemma shared_ensure (app : App W) :
  shared_session app -> shared_session (ensure_gmail_service platform app).2.
Proof.
  intros Hs. unfold ensure_gmail_service.
  destruct (gmail_service app); [done|].
  pose proof (same_call (check_token_status platform) app) as H1.
  destruct (call (check_token_status platform) app) as [valid app1].
  simpl in H1. pose proof (same_objects_shared _ _ H1 Hs) as Hs1.
  destruct valid; simpl; [|done].
  pose proof (same_call (get_gmail_service platform false) app1) as H2.
  destruct (call (get_gmail_service platform false) app1) as [[service|e] app2];
    simpl in H2; pose proof (same_objects_shared _ _ H2 Hs1) as Hs2; [|done].
  destruct (ollama_client app2) as [o|] eqn:Ho; simpl.
  - apply (shared_new (set_gmail_service (Some service) app2)). simpl.
    rewrite Ho. eauto.
  - apply (shared_new_mailbox (set_gmail_service (Some service) app2)).
    simpl. destruct (agent app2) as [a|] eqn:Ha; [|done].
    destruct Hs2 as [_ Hag]. destruct (Hag a Ha) as [[? Hc] _].
    congruence.
Qed.

Lemma shared_and_then {A B} (m : Handler W A) (f : A -> Handler W B) app :
  shared_session (m app).2 ->
  (forall a app', shared_session app' -> shared_session (f a app').2) ->
  shared_session (and_then m f app).2.
Proof.
  intros Hm Hf. unfold and_then.
  destruct (m app) as [[a|s d|e] app']; simpl in *; [by apply Hf|done|done].
Qed.

Ltac shared_step :=
  first
    [ eapply same_objects_shared; [apply same_on_state_mailbox|done]
    | eapply same_objects_shared; [apply same_on_state_agent|done]
    | eapply same_objects_shared; [apply same_record|done]
    | eapply same_objects_shared; [apply same_call|done] ].

Lemma shared_list request (app : App W) :
  shared_session app -> shared_session (list_emails cap platform request app).2.
Proof.
  intros Hs. unfold list_emails.
  apply shared_and_then; [by apply shared_ensure|]. intros _ app1 Hs1.
  apply shared_and_then; [shared_step|]. intros result app2 Hs2.
  destruct (error_of result); [done|].
  destruct result as [| | | | |d]; try done.
  destruct (kw_get "emails" d) as [[| | |?|?|?]|]; try done; simpl;
    shared_step.
Qed.

Lemma shared_read request (app : App W) :
  shared_session app ->
  shared_session (read_email cap platform b64_utf8 OLLAMA_MODEL request app).2.
Proof.
  intros Hs. unfold read_email.
  apply shared_and_then; [by apply shared_ensure|]. intros _ app1 Hs1.
  apply shared_and_then; [shared_step|]. intros result app2 Hs2.
  destruct (error_of result); [done|]. simpl.
  assert (Hr : shared_session (record record_email_read app2)) by shared_step.
  destruct (_ && _); [shared_step|done].
Qed.

Lemma shared_regenerate request (app : App W) :
  shared_session app ->
  shared_session (regenerate_draft cap platform OLLAMA_MODEL request app).2.
Proof.
  intros Hs. unfold regenerate_draft.
  apply shared_and_then; [by apply shared_ensure|]. intros _ app1 Hs1.
  destruct (negb _); [done|].
  apply shared_and_then; [shared_step|]. intros result app2 Hs2.
  destruct (error_of result); [done|]. simpl. shared_step.
Qed.

Lemma shared_send request (app : App W) :
  shared_session app ->
  shared_session (send_reply cap platform mime_encode request app).2.
Proof.
  intros Hs. unfold send_reply.
  apply shared_and_then; [by apply shared_ensure|]. intros _ app1 Hs1.
  apply shared_and_then; [shared_step|]. intros result app2 Hs2.
  destruct (error_of result); [done|]. simpl. shared_step.
Qed.

Lemma shared_chat request (app : App W) :
  shared_session app ->
  shared_session (agent_chat cap platform b64_utf8 mime_encode OLLAMA_MODEL
                    json_loads json_dumps request app).2.
Proof.
  intros Hs. unfold agent_chat.
  apply shared_and_then; [by apply shared_ensure|]. intros _ app1 Hs1.
  apply shared_and_then.
  { destruct (agent app1); [done|].
    destruct (ollama_client app1) eqn:Ho; [|done]. simpl.
    apply shared_new_agent; [done|]. rewrite Ho. eauto. }
  intros _ app2 Hs2.
  apply shared_and_then; [shared_step|]. intros [[text|e] h] app3 Hs3; simpl;
    shared_step.
Qed.

Lemma shared_reset (app : App W) :
  shared_session app -> shared_session (agent_reset app).2.
Proof.
  intros Hs. unfold agent_reset.
  apply shared_and_then.
  { destruct (agent app); [|done].
    apply shared_and_then; [shared_step|]. intros r app1 Hs1.
    by destruct (r.1). }
  intros _ app1 Hs1. apply shared_and_then; [|done].
  destruct (state_mailbox app1); [shared_step|done].
Qed.

Lemma shared_callback request (app : App W) :
  shared_session app ->
  shared_session (auth_callback platform request app).2.
Proof.
  intros Hs. unfold auth_callback.
  pose proof (same_call (create_token_from_code platform (code request)
                           (redirect_uri request)) app) as H1.
  destruct (call (create_token_from_code _ _ _) app) as [[token|e] app1];
    simpl in H1; pose proof (same_objects_shared _ _ H1 Hs) as Hs1.
  2: { simpl. shared_step. }
  pose proof (same_call (get_gmail_service platform true) app1) as H2.
  destruct (call (get_gmail_service platform true) app1) as [[service|e] app2];
    simpl in H2; pose proof (same_objects_shared _ _ H2 Hs1) as Hs2.
  2: { simpl. shared_step. }
  set (app3 := set_gmail_service (Some service) app2).
  assert (Hs3 : shared_session app3) by exact Hs2.
  pose proof (same_call (test_gmail_connection platform (gmail_service app3))
                        app3) as H4.
  destruct (call (test_gmail_connection _ _) app3) as [[success msg] app4].
  simpl in H4. pose proof (same_objects_shared _ _ H4 Hs3) as Hs4. simpl.
  eapply same_objects_shared; [apply same_record|].
  eapply same_objects_shared; [apply same_record|].
  destruct (ollama_client app4) eqn:Ho; [|done].
  apply shared_new. rewrite Ho. eauto.
Qed.

Lemma shared_refresh (app : App W) :
  shared_session app -> shared_session (refresh_auth_token platform app).2.
Proof.
  intros Hs. unfold refresh_auth_token.
  pose proof (same_call (refresh_token platform) app) as H1.
  destruct (call (refresh_token platform) app) as [result app1].
  simpl in H1. pose proof (same_objects_shared _ _ H1 Hs) as Hs1.
  destruct (from_option _ _ _); simpl; [|shared_step].
  assert (Hs2 : shared_session
                  (record (record_auth_operation "refresh" "success") app1))
    by shared_step.
  pose proof (same_call (get_gmail_service platform true)
                (record (record_auth_operation "refresh" "success") app1)) as H3.
  destruct (call (get_gmail_service platform true) _) as [[service|e] app3];
    simpl in *; pose proof (same_objects_shared _ _ H3 Hs2) as Hs3; done.
Qed.

Lemma shared_delete (app : App W) :
  shared_session app -> shared_session (delete_auth_token platform app).2.
Proof.
  intros Hs. unfold delete_auth_token.
  pose proof (same_call (delete_token platform) app) as H1.
  destruct (call (delete_token platform) app) as [[result|e] app1];
    simpl in H1; pose proof (same_objects_shared _ _ H1 Hs) as Hs1; [|done].
  simpl. eapply same_objects_shared; [apply same_record|].
  eapply same_objects_shared; [apply same_record|].
  destruct Hs1 as [Hl _]. split; [exact Hl|done].
Qed.

Lemma same_no_agent (app app' : App W) :
  same_objects app app' -> agent app = None -> agent app' = None.
Proof.
  intros (_ & _ & _ & Ha & _) Hn. rewrite Hn in Ha. by destruct (agent app').
Qed.

Lemma shared_lifespan (w : W) : shared_session (lifespan platform (initial w)).
Proof.
  unfold lifespan.
  set (app1 := match call (get_ollama_client platform) (initial w) with
               | (Raise _, app') => _ | (Return client, app') => _ end).
  assert (Ha1 : agent app1 = None).
  { subst app1.
    pose proof (same_call (get_ollama_client platform) (initial w)) as H.
    destruct (call (get_ollama_client platform) (initial w))
      as [[client|e] app']; simpl in H;
      pose proof (same_no_agent _ _ H eq_refl) as Hn; [|done].
    pose proof (same_call (test_connection platform client)
                  (set_ollama_client (Some client) app')) as H'.
    destruct (call (test_connection platform client) _)
      as [[[success msg]|e] a]; simpl in H';
      by apply (same_no_agent _ _ H'). }
  clearbody app1.
  pose proof (same_call (check_token_status platform) app1) as H2.
  destruct (call (check_token_status platform) app1) as [valid app2].
  simpl in H2. pose proof (same_no_agent _ _ H2 Ha1) as Ha2.
  set (app3 := if valid then _ else _).
  assert (Ha3 : agent app3 = None).
  { subst app3. destruct valid; [|done].
    pose proof (same_call (get_gmail_service platform false)
                  (record (set_token_status true) app2)) as H3.
    destruct (call (get_gmail_service platform false) _) as [[service|e] a'];
      simpl in H3; by apply (same_no_agent _ _ H3). }
  clearbody app3. simpl.
  destruct (gmail_service app3) eqn:Hg; [|by apply shared_new_mailbox].
  destruct (ollama_client app3) eqn:Ho; [|by apply shared_new_mailbox].
  apply shared_new. rewrite Ho. eauto.
Qed.


(** The agent and the endpoints work on one session.  After the start of
    the application, and after every request to an endpoint that assigns
    to [state] or calls a method of the session or of the agent: [state]
    refers to a session, and an agent, when there is one, works on that
    very session, so that what is listed or read through the endpoints is
    known to the agent, and the other way round. *)
Theorem agent_works_on_the_shared_session :
  (forall w : W, shared_session (lifespan platform (initial w))) /\
  forall app : App W, shared_session app ->
    shared_session (ensure_gmail_service platform app).2 /\
    (forall r, shared_session (list_emails cap platform r app).2) /\
    (forall r, shared_session
                 (read_email cap platform b64_utf8 OLLAMA_MODEL r app).2) /\
    (forall r, shared_session
                 (regenerate_draft cap platform OLLAMA_MODEL r app).2) /\
    (forall r, shared_session (send_reply cap platform mime_encode r app).2) /\
    (forall r, shared_session
                 (agent_chat cap platform b64_utf8 mime_encode OLLAMA_MODEL
                             json_loads json_dumps r app).2) /\
    shared_session (agent_reset app).2 /\
    (forall r, shared_session (auth_callback platform r app).2) /\
    shared_session (refresh_auth_token platform app).2 /\
    shared_session (delete_auth_token platform app).2.
Proof.
  split; [apply shared_lifespan|]. intros app Hs.
  split; [by apply shared_ensure|].
  split; [intros; by apply shared_list|].
  split; [intros; by apply shared_read|].
  split; [intros; by apply shared_regenerate|].
  split; [intros; by apply shared_send|].
  split; [intros; by apply shared_chat|].
  split; [by apply shared_reset|].
  split; [intros; by apply shared_callback|].
  split; [by apply shared_refresh|by apply shared_delete].
Qed.

(** *** What the endpoints answer and count *)

Lemma ensure_present (app : App W) :
  is_Some (gmail_service app) ->
  ensure_gmail_service platform app = (Ok tt, app).
Proof. intros [s Hs]. unfold ensure_gmail_service. by rewrite Hs. Qed.

(** A method of the session that [state] refers to, on the
    application. *)
Lemma on_state_mailbox_run {A} name (m : M (State W) A) (app : App W) l s :
  state_mailbox app = Some l -> sessions app !! l = Some s ->
  let st := {| mailbox := s; conversation_history := [];
               world := app_world app; calls := app_calls app |} in
  on_state_mailbox name m app =
  (match (m st).1 with Return r => Ok r | Raise e => Error e end,
   {| gmail_service := gmail_service app; ollama_client := ollama_client app;
      state_mailbox := state_mailbox app; agent := agent app;
      sessions := <[l := mailbox (m st).2]> (sessions app);
      metrics := metrics app;
      app_world := world (m st).2; app_calls := calls (m st).2 |}).
Proof.
  intros Hl Hs. cbv zeta. unfold on_state_mailbox, on_session.
  rewrite Hl, Hs. simpl. by destruct (m _) as [[r|e] st'].
Qed.

Lemma send_reply_outcome (st : State W) h body :
  exists r st',
    Mailbox.send_reply cap mime_encode (VInt h) body st = (Return r, st') /\
    ((is_error r /\ mailbox st' = mailbox st) \/ is_success r).
Proof.
  unfold Mailbox.send_reply. rewrite (bind_return _ _ _ _ _ (resolve_int st h)).
  destruct (index_map (mailbox st) !! h) as [id|].
  2: { eexists _, _. split; [reflexivity|]. left. split; [by eexists|done]. }
  destruct (truthy id).
  2: { eexists _, _. split; [reflexivity|]. left. split; [by eexists|done]. }
  rewrite (bind_return get_session _ st (mailbox st) st eq_refl).
  destruct (body_to_send (mailbox st) h body) as [b|].
  2: { eexists _, _. split; [reflexivity|]. left. split; [by eexists|done]. }
  rewrite deliver_run. cbv zeta.
  destruct (svc_get cap id _ (world st)) as [[orig|e] w1].
  2: { eexists _, _. split; [reflexivity|]. left. split; [by eexists|done]. }
  destruct (EmailUtils.create_reply_message _ _ _ _ _) as [msg|e].
  2: { eexists _, _. split; [reflexivity|]. left. split; [by eexists|done]. }
  destruct (svc_send cap msg w1) as [[[]|e] w2].
  2: { eexists _, _. split; [reflexivity|]. left. split; [by eexists|done]. }
  eexists _, _. split; [reflexivity|]. right. by eexists _, _.
Qed.

(** The reply endpoint counts what was delivered.  With the mail service
    at hand, a request to [POST /emails/reply] is answered with the
    success payload, and counted as one message sent, exactly when the
    reply was delivered; otherwise it is refused with status 400 and the
    error of the session, nothing is counted and every session is as it
    was. *)
Theorem reply_endpoint_counts_deliveries (app : App W) request :
  is_Some (gmail_service app) -> shared_session app ->
  match send_reply cap platform mime_encode request app with
  | (Ok r, app') =>
      is_success r /\ metrics app' = metrics app ++ [record_email_sent]
  | (HTTPException status_code detail, app') =>
      status_code = 400 /\ (exists e, detail = VStr e) /\
      metrics app' = metrics app /\ sessions app' = sessions app
  | (Error _, _) => False
  end.
Proof.
  intros Hg [(l & Hl & Hlt) _].
  destruct (lookup_lt_is_Some_2 _ _ Hlt) as [s Hs].
  unfold send_reply, and_then at 1. rewrite (ensure_present app Hg).
  unfold and_then. rewrite (on_state_mailbox_run _ _ app l s Hl Hs). cbv zeta.
  match goal with |- context [Mailbox.send_reply _ _ ?n ?b ?st] =>
    destruct (send_reply_outcome st (reply_email_number request) b)
      as (r & st' & Hrun & Hcases) end.
  rewrite Hrun. simpl.
  destruct Hcases as [[[e ->] Hm]|Hok].
  - simpl. split; [done|]. split; [by eexists|]. split; [done|].
    rewrite Hm. simpl. by apply list_insert_id.
  - destruct Hok as (t & sj & ->). simpl. split; [by eexists _, _|done].
Qed.


Lemma read_email_outcome (st : State W) h g tone :
  exists r st',
    Mailbox.read_email cap b64_utf8 OLLAMA_MODEL (VInt h) g tone st
    = (Return r, st') /\
    ((is_error r /\ mailbox st' = mailbox st)
     \/ (error_of r = None /\
         match r with
         | VDict d => bool_decide (is_Some (kw_get "draft_reply" d))
         | _ => false
         end = g)).
Proof.
  unfold Mailbox.read_email. rewrite (bind_return _ _ _ _ _ (resolve_int st h)).
  destruct (index_map (mailbox st) !! h) as [id|].
  2: { eexists _, _. split; [reflexivity|]. left. split; [by eexists|done]. }
  destruct (truthy id).
  2: { eexists _, _. split; [reflexivity|]. left. split; [by eexists|done]. }
  rewrite fetch_and_draft_run.
  destruct (svc_get cap id Full (world st)) as [[msg|e] w1].
  2: { eexists _, _. split; [reflexivity|]. left. split; [by eexists|done]. }
  destruct (EmailUtils.extract_email_body _ _ _) as [body|e].
  2: { eexists _, _. split; [reflexivity|]. left. split; [by eexists|done]. }
  cbv zeta. destruct g.
  - match goal with |- context [_generate_draft _ _ ?f ?s ?b ?t ?s1] =>
      destruct (generate_draft_state cap OLLAMA_MODEL s1 f s b t)
        as (text & w' & ->) end.
    eexists _, _. split; [reflexivity|]. right. done.
  - eexists _, _. split; [reflexivity|]. right. done.
Qed.

(** The read endpoint counts what was read and drafted.  With the mail
    service at hand, a request to [POST /emails/read] that is answered
    counts one message read, and one draft generated exactly when a
    draft was asked for; a request that is refused, with status 400 and
    the error of the session, counts nothing and leaves every session as
    it was. *)
Theorem read_endpoint_counts_reads_and_drafts (app : App W) request :
  is_Some (gmail_service app) -> shared_session app ->
  match read_email cap platform b64_utf8 OLLAMA_MODEL request app with
  | (Ok r, app') =>
      metrics app' =
      metrics app ++ record_email_read
        :: (if generate_draft request then [record_draft_generated] else [])
  | (HTTPException status_code detail, app') =>
      status_code = 400 /\ (exists e, detail = VStr e) /\
      metrics app' = metrics app /\ sessions app' = sessions app
  | (Error _, _) => False
  end.
Proof.
  intros Hg [(l & Hl & Hlt) _].
  destruct (lookup_lt_is_Some_2 _ _ Hlt) as [s Hs].
  unfold read_email, and_then at 1. rewrite (ensure_present app Hg).
  unfold and_then. rewrite (on_state_mailbox_run _ _ app l s Hl Hs). cbv zeta.
  match goal with |- context [Mailbox.read_email _ _ _ ?n ?g ?t ?st] =>
    destruct (read_email_outcome st (read_email_number request) g t)
      as (r & st' & Hrun & Hcases) end.
  rewrite Hrun. simpl.
  destruct Hcases as [[[e ->] Hm]|[Hnone Hd]].
  - simpl. split; [done|]. split; [by eexists|]. split; [done|].
    rewrite Hm. simpl. by apply list_insert_id.
  - rewrite Hnone. simpl. rewrite Hd.
    destruct (generate_draft request); simpl; [|done].
    by rewrite <- app_assoc.
Qed.

Lemma ensure_metrics (app : App W) :
  metrics (ensure_gmail_service platform app).2 = metrics app /\
  match (ensure_gmail_service platform app).1 with
  | Ok _ => True
  | HTTPException s _ => s = 401 \/ s = 503
  | Error _ => False
  end.
Proof.
  unfold ensure_gmail_service. destruct (gmail_service app); [done|].
  unfold call. destruct (check_token_status platform _) as [valid w1].
  destruct valid; simpl; [|split; [done|by left]].
  destruct (get_gmail_service platform false w1) as [[service|e] w2]; simpl.
  - by destruct (ollama_client app).
  - split; [done|by right].
Qed.

(** The chat endpoint always answers, and never forgets what was asked.
    A request to [POST /agent/chat] is answered with the text of the
    turn and the length of the history, or refused with a status: 401 or
    503 before any turn is made, nothing being counted; 500 with the text
    of the exception when the turn raises.  A turn that raises is counted
    as an error, and the message of the user stays in the history of the
    agent. *)
Theorem chat_endpoint_always_answers (app : App W) request :
  match agent_chat cap platform b64_utf8 mime_encode OLLAMA_MODEL json_loads
                   json_dumps request app with
  | (Ok answer, app') =>
      exists a, agent app' = Some a /\
        conversation_length answer = length (agent_history a) /\
        metrics app' =
        metrics app ++ [record_agent_chat "success" (length (agent_history a))]
  | (HTTPException status_code detail, app') =>
      ((status_code = 401 \/ status_code = 503) /\ metrics app' = metrics app)
      \/ (status_code = 500 /\
          metrics app' = metrics app ++ [record_agent_chat "error" O] /\
          exists a, agent app' = Some a /\
                    In (MsgUser (message request)) (agent_history a))
  | (Error _, _) => False
  end.
Proof.
  unfold agent_chat, and_then at 1.
  destruct (ensure_metrics app) as [Hm He].
  destruct (ensure_gmail_service platform app) as [[[]|s d|e] app1];
    simpl in *; [|by left|done].
  unfold and_then at 1.
  assert (Hagent : match agent app1 with
                   | Some _ => (Ok tt, app1)
                   | None =>
                       match ollama_client app1 with
                       | None =>
                           (HTTPException 503
                              (VStr "Ollama client not available. Check Ollama configuration."),
                            app1)
                       | Some _ => (Ok tt, new_state_agent app1)
                       end
                   end = (HTTPException 503
                            (VStr "Ollama client not available. Check Ollama configuration."),
                          app1)
                  \/ exists app2 a, match agent app1 with
                   | Some _ => (Ok tt, app1)
                   | None =>
                       match ollama_client app1 with
                       | None =>
                           (HTTPException 503
                              (VStr "Ollama client not available. Check Ollama configuration."),
                            app1)
                       | Some _ => (Ok tt, new_state_agent app1)
                       end
                   end = (Ok tt, app2) /\ agent app2 = Some a /\
                         metrics app2 = metrics app1).
  { destruct (agent app1) as [a|] eqn:Ha; [right; by exists app1, a|].
    destruct (ollama_client app1); [|by left].
    right. by eexists _, _. }
  destruct Hagent as [->|(app2 & a & -> & Ha & Hm2)].
  { left. split; [by right|done]. }
  unfold and_then, on_state_agent. rewrite Ha.
  unfold on_session.
  match goal with |- context [Agent.chat _ _ _ _ _ _ ?msg ?st] =>
    pose proof (chat_first_request cap b64_utf8 mime_encode OLLAMA_MODEL
                  json_loads json_dumps st msg) as (hs & evs & Hh & _);
    destruct (Agent.chat cap b64_utf8 mime_encode OLLAMA_MODEL json_loads
                json_dumps msg st) as [[text|e] st'] end; simpl in *.
  - eexists. rewrite Ha. simpl. split; [reflexivity|]. simpl.
    split; [done|]. congruence.
  - right. split; [done|]. split; [congruence|].
    eexists. rewrite Ha. simpl. split; [reflexivity|]. simpl.
    rewrite Hh. apply in_or_app. right. by left.
Qed.

End Application.

(** ** The further properties at work *)

Section FurtherExamples.
Import PyStr Draft EmailUtils Monad Mailbox Agent Spec Behaviour Example
       Scenario.

Lemma parse_email_address_bracketed_witness :
  parse_email_address "Ann <Lee> < ann@example.com >" = "ann@example.com".
Proof.
  exact (parse_email_address_bracketed "Ann <Lee> " " ann@example.com "
           eq_refl eq_refl).
Defined.

Lemma extract_email_body_bounded_witness :
  match extract_email_body Double.b64_utf8 html_then_text 1 with
  | Return b => (String.length b <= Z.to_nat 1)%nat
  | Raise e => exists d, Double.b64_utf8 d = Raise e
  end.
Proof.
  apply (extract_email_body_bounded Double.b64_utf8 1 html_then_text). lia.
Defined.

Lemma read_email_failure_keeps_session_witness :
  let run := read_email lossy Double.b64_utf8 Double.OLLAMA_MODEL (VInt 2)
                        true "normal" drafted in
  run.1 = Return (error_dict Double.not_found) /\
  mailbox run.2 = mailbox drafted /\
  conversation_history run.2 = conversation_history drafted.
Proof.
  split; [reflexivity|].
  apply (read_email_failure_keeps_session lossy Double.b64_utf8
           Double.OLLAMA_MODEL drafted (VInt 2) true "normal"
           (Return (error_dict Double.not_found)));
    [reflexivity|by exists Double.not_found].
Defined.

Lemma read_email_draft_can_be_sent_witness :
  exists r st' text,
    let d := text +:+ nl +:+ nl +:+ signature (config_of "friendly") in
    read_email steady Double.b64_utf8 Double.OLLAMA_MODEL (VInt 1) true
               "friendly" after_listing = (Return r, st') /\
    entry "draft_reply" r = Some (VStr d) /\
    pending_for (mailbox st') 1 d /\
    send_reply steady Double.mime_encode (VInt 1) VNone st'
    = deliver steady Double.mime_encode 1 "m1" (VStr d) st'.
Proof.
  eexists _, _.
  assert (Hrun : read_email steady Double.b64_utf8 Double.OLLAMA_MODEL
                   (VInt 1) true "friendly" after_listing
                 = (Return ?[r], ?[st'])) by reflexivity.
  destruct (read_email_draft_can_be_sent steady Double.b64_utf8
              Double.mime_encode Double.OLLAMA_MODEL after_listing 1 "m1"
              "friendly" _ _ eq_refl eq_refl Hrun) as (text & H).
  { intros [e He]. discriminate He. }
  exists text. split; [exact Hrun|exact H].
Defined.

Lemma read_email_then_regenerate_witness :
  exists r st' c,
    read_email steady Double.b64_utf8 Double.OLLAMA_MODEL (VInt 1) false
               "normal" after_listing = (Return r, st') /\
    email_cache (mailbox st') !! 1 = Some c /\
    entry "body" r = Some (VStr (cached_body c)) /\
    exists text st'',
      regenerate_draft steady Double.OLLAMA_MODEL (VInt 1) "professional" st'
      = (Return (VDict [ ("number", VInt 1);
                         ("draft_reply",
                          VStr (text +:+ nl +:+ nl
                                +:+ signature (config_of "professional")));
                         ("tone", VStr "professional") ]), st'').
Proof.
  eexists _, _.
  assert (Hrun : read_email steady Double.b64_utf8 Double.OLLAMA_MODEL
                   (VInt 1) false "normal" after_listing
                 = (Return ?[r], ?[st'])) by reflexivity.
  destruct (read_email_then_regenerate steady Double.b64_utf8
              Double.OLLAMA_MODEL after_listing (VInt 1) false "normal"
              _ _ Hrun) as (n & c & Hn & Hc & Hb & Hre).
  { intros [e He]. discriminate He. }
  injection Hn as <-.
  exists c. split; [exact Hrun|]. split; [exact Hc|]. split; [exact Hb|].
  destruct (Hre "professional") as (text & prompt & st'' & Hr & _).
  exists text, st''. exact Hr.
Defined.

Lemma pending_draft_follows_the_number_witness :
  exists r st1 d,
    pending_for (mailbox drafted) 2 d /\
    index_map (mailbox drafted) !! 2 = Some "m2" /\
    list_emails reordered (VInt 5) (VStr "is:unread") drafted
    = (Return r, st1) /\
    pending_for (mailbox st1) 2 d /\
    send_reply reordered Double.mime_encode (VInt 2) VNone st1
    = deliver reordered Double.mime_encode 2 "m1" (VStr d) st1.
Proof.
  destruct (pending_draft_follows_the_number reordered Double.mime_encode
              drafted (VInt 5) (VStr "is:unread")
              [ {| ref_id := "m3" |}; {| ref_id := "m1" |} ] O
              [ Double.message "Cy <cy@example.com>" "Re: Plan" "aGk=";
                Double.message "Ann <ann@example.com>" "Lunch" "aGk=" ] O
              2 ("Sure, see you then!" +:+ nl +:+ nl +:+ "Regards," +:+ nl
                 +:+ "Ayaan") "m1")
    as (r & st1 & H); [by repeat split|reflexivity..|].
  exists r, st1. eexists. split; [by repeat split|]. split; [reflexivity|].
  exact H.
Defined.

Lemma list_emails_shows_the_handles_witness :
  exists emails st1,
    list_emails steady (VInt 5) (VStr "is:unread") earlier
    = (Return (VDict [ ("emails", VList emails); ("count", VInt 3) ]), st1) /\
    length emails = 3%nat /\
    forall (k : nat) e, emails !! k = Some e ->
      entry "number" e = Some (VInt (Z.of_nat k + 1)) /\
      entry "id" e = VStr <$> index_map (mailbox st1) !! (Z.of_nat k + 1) /\
      exists s, entry "snippet" e = Some (VStr s) /\
                (String.length s <= 120)%nat.
Proof.
  apply (list_emails_shows_the_handles steady earlier (VInt 5)
           (VStr "is:unread") Double.listing3 O (map snd Double.store3) O);
    [reflexivity|reflexivity|discriminate].
Defined.

Lemma clean_content_removes_thinking_witness :
  Ollama.clean_content Scenario.py_error
    (VStr "Sure. <think>The user greets me.</think> Hello! ")
  = Return (VStr "Sure.  Hello!").
Proof.
  exact (clean_content_removes_thinking Scenario.py_error "Sure. "
           "The user greets me." " Hello! " eq_refl eq_refl eq_refl).
Defined.

Lemma generate_text_joins_the_stream_witness :
  Ollama.generate_text (answering (inr hello_stream)) Scenario.json_loads
    Scenario.py_error Double.OLLAMA_MODEL "Say hello" None (7 # 10)
    fresh_client
  = (Return (VStr "Hello"),
     {| Ollama.self :=
          {| Ollama.host := "https://api.ollama.com";
             Ollama.api_key := "secret";
             Ollama._http_client := Some first_use |};
        Ollama.net := 1%nat |}).
Proof.
  apply (generate_text_joins_the_stream (answering (inr hello_stream))
           Scenario.json_loads Scenario.py_error Double.OLLAMA_MODEL
           fresh_client "Say hello" None (7 # 10) first_use
           {| Ollama.self :=
                {| Ollama.host := "https://api.ollama.com";
                   Ollama.api_key := "secret";
                   Ollama._http_client := Some first_use |};
              Ollama.net := O |} hello_stream
           1%nat [ "<think>One word."; "</think>"; "Hel"; EmptyString; "lo" ]);
    [reflexivity|reflexivity|reflexivity|reflexivity|].
  repeat (constructor; [reflexivity|]). constructor.
Defined.

Lemma test_connection_reports_witness :
  Ollama.test_connection
    (answering (inl (Ollama.ConnectError "All connection attempts failed")))
    Scenario.json_loads Scenario.py_error Double.OLLAMA_MODEL fresh_client
  = (Return (false,
             VStr "Failed to connect to Ollama at https://api.ollama.com: All connection attempts failed"),
     {| Ollama.self :=
          {| Ollama.host := "https://api.ollama.com";
             Ollama.api_key := "secret";
             Ollama._http_client := Some first_use |};
        Ollama.net := 1%nat |}).
Proof.
  destruct (test_connection_reports
              (answering (inl (Ollama.ConnectError
                                 "All connection attempts failed")))
              Scenario.json_loads Scenario.py_error Double.OLLAMA_MODEL
              fresh_client first_use _ eq_refl)
    as (ok & msg & Hrun & Hok & Hmsg).
  rewrite Hrun, Hok, Hmsg. reflexivity.
Defined.

End FurtherExamples.

Section ApplicationExamples.
Import PyStr Monad Spec Behaviour Example Scenario App AppSpec.

Lemma reply_endpoint_counts_deliveries_witness :
  exists app',
    send_reply steady platform Double.mime_encode
      {| reply_email_number := 2; reply_body := None |}
      (running (mailbox drafted))
    = (Ok (success "bob@example.com" "Re: Report"), app') /\
    metrics app' = [record_email_sent].
Proof.
  pose proof (reply_endpoint_counts_deliveries steady platform
                Double.mime_encode (running (mailbox drafted))
                {| reply_email_number := 2; reply_body := None |}) as H.
  eexists. split; [reflexivity|].
  apply H.
  - by eexists.
  - split; [exists O; split; [reflexivity|simpl; lia]|].
    intros a [= <-]. split; [by eexists|reflexivity].
Defined.

Lemma read_endpoint_counts_reads_and_drafts_witness :
  match read_email steady platform Double.b64_utf8 Double.OLLAMA_MODEL
          {| read_email_number := 1; generate_draft := true;
             read_tone := "formal" |}
          (running (mailbox after_listing)) with
  | (Ok r, app') =>
      entry "tone" r = Some (VStr "normal") /\
      metrics app' = [record_email_read; record_draft_generated]
  | _ => False
  end.
Proof.
  assert (Hg : is_Some (gmail_service (running (mailbox after_listing))))
    by (by eexists).
  assert (Hs : shared_session (running (mailbox after_listing))).
  { split; [exists O; split; [reflexivity|simpl; lia]|].
    intros a [= <-]. split; [by eexists|reflexivity]. }
  pose proof (read_endpoint_counts_reads_and_drafts steady platform
                Double.b64_utf8 Double.OLLAMA_MODEL
                (running (mailbox after_listing))
                {| read_email_number := 1; generate_draft := true;
                   read_tone := "formal" |} Hg Hs) as H.
  destruct (read_email steady platform Double.b64_utf8 Double.OLLAMA_MODEL _
              (running (mailbox after_listing))) as [[r|s d|e] app'] eqn:E;
    vm_compute in E; [|discriminate E..].
  split; [|exact H].
  injection E as <- _. reflexivity.
Defined.

End ApplicationExamples.
